(** * Paper trader: ledger replay, trade execution and risk exits

    A shallow embedding of [PaperTrader] from
    [python-ai-trading/package/paper_trader.py].

    Modelling conventions.
    - Amounts (balances, quantities, prices, values) are idealised as exact
      rationals [Q] (no rounding, no [nan] or [inf]); equality of amounts
      is [Qeq] ([==]).  A division of Python floats by zero raises
      [ZeroDivisionError], which the embedding makes explicit.
    - Where the code branches on a float it has computed (the P&L ratio of
      the risk monitor, the predicted change and the confidence of the
      signal evaluator) the embedding rounds as the code does: [fl] stands
      for the rounding of a real to the nearest double and is applied
      operation by operation, and to the decimal literals compared with.
      The numpy floats of the signal evaluator can be infinite or nan.
    - A Python [dict] is an insertion-ordered association list with the
      assignment, deletion, membership and iteration behaviour of [dict].
    - A method is a function from the state of [self] to a result (a value
      or an exception) and a new state: mutations made before an exception
      stay in place, and [try]/[except] is a combinator.
    - [uuid.uuid4], [datetime.utcnow] and the outcome of
      [trading_table.put_item] are oracles of the environment. *)

From Stdlib Require Import List String Ascii Bool Arith QArith Lia Lqa.
From Stdlib Require Import Permutation Sorted OrdersEx RelationClasses.
From Stdlib Require Import Qabs Qminmax.
Import ListNotations.

Local Open Scope string_scope.
Local Open Scope Q_scope.

(** ** Exceptions, results and the trader monad *)

Inductive exn : Type :=
| KeyError (key : string)
| ValueError (text : string)
| ZeroDivisionError
| ClientError.

Inductive result (A : Type) : Type :=
| Ok (a : A)
| Raise (e : exn).

Arguments Ok {A} a.
Arguments Raise {A} e.

Definition raises {A : Type} (r : result A) : Prop := exists e, r = Raise e.

(** ** Python dictionaries keyed by strings *)

Section Dict.
Context {V : Type}.

Definition dict : Type := list (string * V).

Fixpoint dget (k : string) (d : dict) : option V :=
  match d with
  | [] => None
  | (k', v) :: r => if String.eqb k k' then Some v else dget k r
  end.

(** [k in d] *)
Definition dmem (k : string) (d : dict) : bool :=
  match dget k d with Some _ => true | None => false end.

(** [d[k] = v]: an existing key keeps its place, a new key goes last. *)
Fixpoint dset (k : string) (v : V) (d : dict) : dict :=
  match d with
  | [] => [(k, v)]
  | (k', v') :: r =>
      if String.eqb k k' then (k, v) :: r else (k', v') :: dset k v r
  end.

(** [del d[k]] (only ever run when [k in d]). *)
Fixpoint ddel (k : string) (d : dict) : dict :=
  match d with
  | [] => []
  | (k', v') :: r =>
      if String.eqb k k' then ddel k r else (k', v') :: ddel k r
  end.

End Dict.

Arguments dict V : clear implicits.

(** ** Data model *)

(** A value of a DynamoDB item read back with [float(...)]: the attribute is
    missing, holds the text of a number, or holds some other text. *)
Inductive attr : Type :=
| Absent
| Num (q : Q)
| Text (s : string).

(** One item of the trading table, with the keys the trader writes. *)
Record item : Type := mkItem {
  t_tradeId : option string;
  t_symbol : option string;
  t_marketType : option string;
  t_action : option string;
  t_quantity : attr;
  t_price : attr;
  t_value : attr;
  t_confidence : attr;
  t_timestamp : string;
  t_status : option string;
  t_walletBalanceBefore : attr;
  t_predictedChange : attr;
  t_walletBalanceAfter : attr;
  t_entryPrice : attr;
  t_pnl : attr;
  t_pnlPercent : attr;
  t_originalTradeId : option string;
  t_exitReason : option string
}.

(** [trade[key]] for a text attribute. *)
Definition getitem (key : string) (o : option string) : result string :=
  match o with
  | Some s => Ok s
  | None => Raise (KeyError key)
  end.

(** [float(trade[key])] *)
Definition float (key : string) (a : attr) : result Q :=
  match a with
  | Absent => Raise (KeyError key)
  | Num q => Ok q
  | Text s => Raise (ValueError s)
  end.

(** An entry of [self.portfolio]. *)
Record position : Type := mkPosition {
  pos_quantity : Q;
  pos_entry_price : Q;
  pos_entry_time : string;
  pos_trade_id : string;
  pos_market_type : string
}.

Inductive signal : Type := BUY | SELL | HOLD.

(** A prediction as built by [predict_crypto_prices] and
    [predict_forex_prices]. *)
Record prediction : Type := mkPrediction {
  p_symbol : string;
  p_market_type : string;
  p_current_price : Q;
  p_predicted_price : Q;
  p_predicted_change_pct : Q;
  p_confidence : Q;
  p_signal : signal
}.

(** A market data item; only the keys read by the trading logic. *)
Record quote : Type := mkQuote {
  m_symbol : string;
  m_price : Q
}.

(** The mutable attributes of a [PaperTrader], the items it has put in the
    trading table, and the number of [uuid4]/[utcnow] calls made so far. *)
Record trader : Type := mkTrader {
  portfolio : dict position;
  wallet_balance : Q;
  current_market_prices : dict Q;
  trading_table : list item;
  ticks : nat
}.

(** A method body: it reads and mutates [self], and returns or raises; the
    mutations made before an exception stay in place. *)
Definition M (A : Type) : Type := trader -> result A * trader.

Definition ret {A : Type} (a : A) : M A := fun self => (Ok a, self).

Definition throw {A : Type} (e : exn) : M A := fun self => (Raise e, self).

Definition bind {A B : Type} (m : M A) (k : A -> M B) : M B :=
  fun self =>
    match m self with
    | (Ok a, self') => k a self'
    | (Raise e, self') => (Raise e, self')
    end.

Notation "x <- m ;; k" := (bind m (fun x => k))
  (at level 61, m at next level, right associativity).
Notation "m ;; k" := (bind m (fun _ => k))
  (at level 61, right associativity).

(** [try: body except Exception as e: handler] *)
Definition try_except {A : Type} (body : M A) (handler : exn -> M A) : M A :=
  fun self =>
    match body self with
    | (Ok a, self') => (Ok a, self')
    | (Raise e, self') => handler e self'
    end.

Definition lift {A : Type} (r : result A) : M A := fun self => (r, self).

Definition gets {A : Type} (f : trader -> A) : M A :=
  fun self => (Ok (f self), self).

Definition set_portfolio (pf : dict position) : M unit :=
  fun self =>
    (Ok tt, {| portfolio := pf; wallet_balance := wallet_balance self;
               current_market_prices := current_market_prices self;
               trading_table := trading_table self; ticks := ticks self |}).

Definition set_wallet_balance (w : Q) : M unit :=
  fun self =>
    (Ok tt, {| portfolio := portfolio self; wallet_balance := w;
               current_market_prices := current_market_prices self;
               trading_table := trading_table self; ticks := ticks self |}).

Definition set_current_market_prices (d : dict Q) : M unit :=
  fun self =>
    (Ok tt, {| portfolio := portfolio self;
               wallet_balance := wallet_balance self;
               current_market_prices := d;
               trading_table := trading_table self; ticks := ticks self |}).

(** [a / b] on floats *)
Definition div (a b : Q) : M Q :=
  if Qeq_bool b 0 then throw ZeroDivisionError else ret (a / b).

(** Rounded arithmetic, used where the code branches on a float it has
    computed.  [fl x] stands for the double nearest to the real [x]: an
    operation on floats returns [fl] of the exact result, and a literal [c]
    of the source is the double [fl c]. *)
Section Floats.
Variable fl : Q -> Q.

(** [a - b] *)
Definition fsub (a b : Q) : Q := fl (a - b).

(** [a / b] on Python floats *)
Definition fdiv (a b : Q) : M Q :=
  if Qeq_bool b 0 then throw ZeroDivisionError else ret (fl (a / b)).

End Floats.

(** [for x in xs: body(x)] *)
Fixpoint for_each {X : Type} (xs : list X) (body : X -> M unit) : M unit :=
  match xs with
  | [] => ret tt
  | x :: r => body x ;; for_each r body
  end.

(** [a < b] and [a >= b] on floats *)
Definition Qlt_bool (a b : Q) : bool := negb (Qle_bool b a).
Definition Qge_bool (a b : Q) : bool := Qle_bool b a.

(** ** Ledger replay: [load_portfolio_state] *)

(** [a <= b] on timestamps: Python compares [str] by code point. *)
Definition ts_leb (a b : string) : bool :=
  match String_as_OT.compare a b with
  | Gt => false
  | _ => true
  end.

Fixpoint insert_by_timestamp (x : item) (l : list item) : list item :=
  match l with
  | [] => [x]
  | y :: r =>
      if ts_leb (t_timestamp x) (t_timestamp y)
      then x :: y :: r
      else y :: insert_by_timestamp x r
  end.

(** [sorted(trades, key=lambda x: x['timestamp'])]: a stable sort, records
    with equal timestamps keep their input order.  Every scanned item has a
    text timestamp: the scan filters on it. *)
Fixpoint sorted (trades : list item) : list item :=
  match trades with
  | [] => []
  | x :: r => insert_by_timestamp x (sorted r)
  end.

(** The body of the replay loop. *)
Definition replay_trade (trade : item) : M unit :=
  symbol <- lift (getitem "symbol" (t_symbol trade)) ;;
  action <- lift (getitem "action" (t_action trade)) ;;
  quantity <- lift (float "quantity" (t_quantity trade)) ;;
  price <- lift (float "price" (t_price trade)) ;;
  if String.eqb action "BUY" then
    trade_id <- lift (getitem "tradeId" (t_tradeId trade)) ;;
    pf <- gets portfolio ;;
    set_portfolio
      (dset symbol
         {| pos_quantity := quantity;
            pos_entry_price := price;
            pos_entry_time := t_timestamp trade;
            pos_trade_id := trade_id;
            pos_market_type := match t_marketType trade with
                           | Some m => m
                           | None => "unknown"
                           end |} pf) ;;
    w <- gets wallet_balance ;;
    set_wallet_balance (w - price * quantity)
  else
    pf <- gets portfolio ;;
    if String.eqb action "SELL" && dmem symbol pf then
      set_portfolio (ddel symbol pf) ;;
      w <- gets wallet_balance ;;
      set_wallet_balance (w + price * quantity)
    else ret tt.

Section Replay.
Variable INITIAL_BALANCE : Q.

(** [load_portfolio_state]; [scan] is the outcome of
    [self.trading_table.scan(...)], the items of the trailing window when the
    call returns.  Any exception is logged and replaced by the initial
    state. *)
Definition load_portfolio_state (scan : result (list item)) : M unit :=
  try_except
    (trades <- lift scan ;;
     set_wallet_balance INITIAL_BALANCE ;;
     set_portfolio [] ;;
     for_each (sorted trades) replay_trade)
    (fun _ =>
       set_wallet_balance INITIAL_BALANCE ;;
       set_portfolio []).

End Replay.

(** ** Trading parameters (set in [__init__]) *)

Definition max_position_size : Q := 0.2.
Definition stop_loss_pct : Q := 0.05.
Definition take_profit_pct : Q := 0.10.
Definition min_confidence : Q := 0.6.

(** ** Trade execution *)

Section Trading.
Variable INITIAL_BALANCE : Q.
(** The environment: the identifiers and the clock readings handed out, and
    whether the trading table accepts an item. *)
Variable uuid_of : nat -> string.
Variable now_of : nat -> string.
Variable put_item_ok : item -> bool.
(** The rounding of floats. *)
Variable fl : Q -> Q.

Definition tick (self : trader) : trader :=
  {| portfolio := portfolio self; wallet_balance := wallet_balance self;
     current_market_prices := current_market_prices self;
     trading_table := trading_table self; ticks := S (ticks self) |}.

(** [str(uuid.uuid4())] *)
Definition uuid4 : M string :=
  fun self => (Ok (uuid_of (ticks self)), tick self).

(** [datetime.utcnow().isoformat()] *)
Definition utcnow : M string :=
  fun self => (Ok (now_of (ticks self)), tick self).

(** [self.trading_table.put_item(Item=trade)] *)
Definition put_item (trade : item) : M unit :=
  fun self =>
    if put_item_ok trade then
      (Ok tt, {| portfolio := portfolio self;
                 wallet_balance := wallet_balance self;
                 current_market_prices := current_market_prices self;
                 trading_table := (trading_table self ++ [trade])%list;
                 ticks := ticks self |})
    else (Raise ClientError, self).

(** [trade['walletBalanceAfter'] = str(w)] *)
Definition with_walletBalanceAfter (trade : item) (w : Q) : item :=
  {| t_tradeId := t_tradeId trade; t_symbol := t_symbol trade;
     t_marketType := t_marketType trade; t_action := t_action trade;
     t_quantity := t_quantity trade; t_price := t_price trade;
     t_value := t_value trade; t_confidence := t_confidence trade;
     t_timestamp := t_timestamp trade; t_status := t_status trade;
     t_walletBalanceBefore := t_walletBalanceBefore trade;
     t_predictedChange := t_predictedChange trade;
     t_walletBalanceAfter := Num w;
     t_entryPrice := t_entryPrice trade; t_pnl := t_pnl trade;
     t_pnlPercent := t_pnlPercent trade;
     t_originalTradeId := t_originalTradeId trade;
     t_exitReason := t_exitReason trade |}.

Definition should_trade (self : trader) (prediction : prediction) : bool :=
  if Qlt_bool (p_confidence prediction) min_confidence then false
  else match p_signal prediction with
       | HOLD => false
       | SELL => false
       | BUY =>
           let position_value := wallet_balance self * max_position_size in
           if Qlt_bool position_value 1 then false
           else if dmem (p_symbol prediction) (portfolio self) then false
           else true
       end.

(** The [BUY] item written by [execute_trade]. *)
Definition buy_item (trade_id symbol market_type : string)
    (quantity current_price position_size confidence : Q)
    (timestamp : string) (wallet predicted_change : Q) : item :=
  {| t_tradeId := Some trade_id; t_symbol := Some symbol;
     t_marketType := Some market_type; t_action := Some "BUY";
     t_quantity := Num quantity; t_price := Num current_price;
     t_value := Num position_size; t_confidence := Num confidence;
     t_timestamp := timestamp; t_status := Some "EXECUTED";
     t_walletBalanceBefore := Num wallet;
     t_predictedChange := Num predicted_change;
     t_walletBalanceAfter := Absent;
     t_entryPrice := Absent; t_pnl := Absent; t_pnlPercent := Absent;
     t_originalTradeId := None; t_exitReason := None |}.

(** The [SELL] item written by [execute_trade] and [close_position]. *)
Definition sell_item (trade_id symbol market_type : string)
    (quantity current_price entry_price pnl_pct : Q) (timestamp : string)
    (exit_reason : option string) (wallet : Q) (original : string) : item :=
  {| t_tradeId := Some trade_id; t_symbol := Some symbol;
     t_marketType := Some market_type; t_action := Some "SELL";
     t_quantity := Num quantity; t_price := Num current_price;
     t_value := Num (current_price * quantity); t_confidence := Absent;
     t_timestamp := timestamp; t_status := Some "EXECUTED";
     t_walletBalanceBefore := Num wallet; t_predictedChange := Absent;
     t_walletBalanceAfter := Absent;
     t_entryPrice := Num entry_price;
     t_pnl := Num ((current_price - entry_price) * quantity);
     t_pnlPercent := Num pnl_pct;
     t_originalTradeId := Some original;
     t_exitReason := exit_reason |}.


(** [execute_trade] on Python floats: the division of the BUY raises on a
    price of 0.  (When the confidence or the wallet balance is a numpy
    float, that division gives an infinity instead of raising and the BUY
    goes through with an infinite quantity, which the rationals do not
    have: the properties that depend on what such a BUY does are stated for
    predictions whose price is not 0.) *)
Definition execute_trade (prediction : prediction) : M bool :=
  try_except
    (let symbol := p_symbol prediction in
     let current_price := p_current_price prediction in
     let confidence := p_confidence prediction in
     wallet <- gets wallet_balance ;;
     let base_position_size := wallet * max_position_size in
     let position_size := base_position_size * confidence in
     pf <- gets portfolio ;;
     match p_signal prediction with
     | BUY =>
         quantity <- div position_size current_price ;;
         trade_id <- uuid4 ;;
         timestamp <- utcnow ;;
         let trade :=
           buy_item trade_id symbol (p_market_type prediction) quantity
             current_price position_size confidence timestamp wallet
             (p_predicted_change_pct prediction) in
         entry_time <- utcnow ;;
         set_portfolio
           (dset symbol
              {| pos_quantity := quantity; pos_entry_price := current_price;
                 pos_entry_time := entry_time; pos_trade_id := trade_id;
                 pos_market_type := p_market_type prediction |} pf) ;;
         set_wallet_balance (wallet - position_size) ;;
         put_item (with_walletBalanceAfter trade (wallet - position_size)) ;;
         ret true
     | SELL =>
         match dget symbol pf with
         | Some position =>
             let quantity := pos_quantity position in
             let entry_price := pos_entry_price position in
             ratio <- div (current_price - entry_price) entry_price ;;
             let pnl_pct := ratio * 100 in
             trade_id <- uuid4 ;;
             timestamp <- utcnow ;;
             let trade :=
               sell_item trade_id symbol (p_market_type prediction) quantity
                 current_price entry_price pnl_pct timestamp None wallet
                 (pos_trade_id position) in
             set_wallet_balance (wallet + current_price * quantity) ;;
             set_portfolio (ddel symbol pf) ;;
             put_item
               (with_walletBalanceAfter trade
                  (wallet + current_price * quantity)) ;;
             ret true
         | None => ret false
         end
     | HOLD => ret false
     end)
    (fun _ => ret false).

Definition close_position (symbol : string) (current_price : Q)
    (reason : string) : M unit :=
  try_except
    (pf <- gets portfolio ;;
     match dget symbol pf with
     | None => ret tt
     | Some position =>
         let quantity := pos_quantity position in
         let entry_price := pos_entry_price position in
         ratio <- div (current_price - entry_price) entry_price ;;
         let pnl_pct := ratio * 100 in
         trade_id <- uuid4 ;;
         timestamp <- utcnow ;;
         wallet <- gets wallet_balance ;;
         let trade :=
           sell_item trade_id symbol (pos_market_type position) quantity
             current_price entry_price pnl_pct timestamp (Some reason) wallet
             (pos_trade_id position) in
         set_wallet_balance (wallet + current_price * quantity) ;;
         set_portfolio (ddel symbol pf) ;;
         put_item
           (with_walletBalanceAfter trade (wallet + current_price * quantity))
     end)
    (fun _ => ret tt).

(** [{item['symbol']: item for item in data}] *)
Definition by_symbol (data : list quote) : dict quote :=
  fold_left (fun d item => dset (m_symbol item) item d) data [].

(** The scanning loop of [check_exit_conditions] over
    [self.portfolio.items()].  The P&L ratio is the rounded quotient of the
    rounded difference, and the two thresholds are the doubles that the
    attributes hold. *)
Fixpoint exit_scan (all_data : dict quote) (items : list (string * position))
    (symbols_to_close : list (string * Q * string))
  : M (list (string * Q * string)) :=
  match items with
  | [] => ret symbols_to_close
  | (symbol, position) :: r =>
      match dget symbol all_data with
      | None => exit_scan all_data r symbols_to_close
      | Some data =>
          let current_price := m_price data in
          let entry_price := pos_entry_price position in
          pnl_pct <-
            fdiv fl (fsub fl current_price entry_price) entry_price ;;
          if Qle_bool pnl_pct (- fl stop_loss_pct) then
            exit_scan all_data r
              (symbols_to_close ++ [(symbol, current_price, "STOP_LOSS")])%list
          else if Qge_bool pnl_pct (fl take_profit_pct) then
            exit_scan all_data r
              (symbols_to_close ++ [(symbol, current_price, "TAKE_PROFIT")])%list
          else exit_scan all_data r symbols_to_close
      end
  end.

Definition check_exit_conditions (crypto_data forex_data : list quote)
  : M unit :=
  let all_data := by_symbol (crypto_data ++ forex_data)%list in
  pf <- gets portfolio ;;
  symbols_to_close <- exit_scan all_data pf [] ;;
  for_each symbols_to_close
    (fun '(symbol, price, reason) => close_position symbol price reason).

(** ** The trading session *)

Definition calculate_portfolio_value (self : trader) : Q :=
  fold_left
    (fun total_value '(symbol, position) =>
       let current_price :=
         match dget symbol (current_market_prices self) with
         | Some price => price
         | None => pos_entry_price position
         end in
       total_value + pos_quantity position * current_price)
    (portfolio self) (wallet_balance self).

Definition calculate_total_pnl (self : trader) : Q :=
  calculate_portfolio_value self - INITIAL_BALANCE.

Record session_result : Type := mkResult {
  trades_executed : nat;
  portfolio_value : Q;
  result_wallet_balance : Q;
  total_pnl : Q
}.

Definition session_summary (trades_executed : nat) : M session_result :=
  fun self =>
    (Ok {| trades_executed := trades_executed;
           portfolio_value := calculate_portfolio_value self;
           result_wallet_balance := wallet_balance self;
           total_pnl := calculate_total_pnl self |}, self).

(** PHASE 1: exit signals for existing positions. *)
Fixpoint exit_phase (all_predictions : list prediction)
    (trades_executed : nat) : M nat :=
  match all_predictions with
  | [] => ret trades_executed
  | prediction :: r =>
      pf <- gets portfolio ;;
      match p_signal prediction with
      | SELL =>
          if dmem (p_symbol prediction) pf
             && Qge_bool (p_confidence prediction) min_confidence
          then
            trade_executed <- execute_trade prediction ;;
            exit_phase r
              (if trade_executed then S trades_executed else trades_executed)
          else exit_phase r trades_executed
      | _ => exit_phase r trades_executed
      end
  end.

(** PHASE 2: buy signals for new positions. *)
Fixpoint entry_phase (all_predictions : list prediction)
    (trades_executed : nat) : M nat :=
  match all_predictions with
  | [] => ret trades_executed
  | prediction :: r =>
      self <- gets (fun self => self) ;;
      if should_trade self prediction then
        trade_executed <- execute_trade prediction ;;
        entry_phase r
          (if trade_executed then S trades_executed else trades_executed)
      else entry_phase r trades_executed
  end.

(** The three steps of a session once the predictions are known. *)
Definition trade_on_predictions (all_predictions : list prediction)
    (crypto_data forex_data : list quote) : M nat :=
  n1 <- exit_phase all_predictions 0%nat ;;
  check_exit_conditions crypto_data forex_data ;;
  entry_phase all_predictions n1.

(** [execute_trading_session]; the outcomes of the calls to the stores and
    to the models are arguments: [scan] (the trading table scan),
    [model_loaded] ([load_latest_model]), the market data, and the two
    prediction functions, which read [self.portfolio]. *)
Definition execute_trading_session (scan : result (list item))
    (model_loaded : bool) (crypto_data forex_data : list quote)
    (predict_crypto_prices predict_forex_prices :
       dict position -> list quote -> list prediction)
  : M session_result :=
  load_portfolio_state INITIAL_BALANCE scan ;;
  if negb model_loaded then session_summary 0%nat
  else
    set_current_market_prices
      (fold_left (fun d item => dset (m_symbol item) (m_price item) d)
         (crypto_data ++ forex_data)%list []) ;;
    pf <- gets portfolio ;;
    let crypto_predictions := predict_crypto_prices pf crypto_data in
    let forex_predictions := predict_forex_prices pf forex_data in
    let all_predictions := (crypto_predictions ++ forex_predictions)%list in
    trades_executed <-
      trade_on_predictions all_predictions crypto_data forex_data ;;
    session_summary trades_executed.

End Trading.

(** ** The signal evaluator: [predict_crypto_prices], [predict_forex_prices] *)

(** A numpy float: a number, an infinity or nan.  The outputs of the models
    are numpy floats, and so is what is computed from them. *)
Inductive xfloat : Type :=
| Fin (q : Q)
| PosInf
| NegInf
| NaN.

(** The two methods have the same body up to the market type and three
    constants: the factor that turns the predicted change into a confidence,
    the predicted decline that sells a held symbol, and the predicted change
    that signals an entry. *)
Record asset_class : Type := mkAssetClass {
  ac_market_type : string;
  ac_sensitivity : Q;
  ac_decline : Q;
  ac_entry : Q
}.

Definition crypto : asset_class :=
  {| ac_market_type := "crypto"; ac_sensitivity := 10;
     ac_decline := 0.01; ac_entry := 0.02 |}.

Definition forex : asset_class :=
  {| ac_market_type := "forex"; ac_sensitivity := 20;
     ac_decline := 0.0005; ac_entry := 0.001 |}.

Section Numpy.
Variable fl : Q -> Q.

(** [a / b] for a numpy float [a] and a float [b]: a divisor 0 gives an
    infinity or nan, with a warning and without an exception. *)
Definition np_div (a b : Q) : xfloat :=
  if Qeq_bool b 0 then
    if Qlt_bool 0 a then PosInf else if Qlt_bool a 0 then NegInf else NaN
  else Fin (fl (a / b)).

(** [abs(x)] *)
Definition xabs (x : xfloat) : xfloat :=
  match x with
  | Fin q => Fin (Qabs q)
  | PosInf | NegInf => PosInf
  | NaN => NaN
  end.

(** [x * c] for a positive number [c] (10, 20 and 100 in the source) *)
Definition xscale (x : xfloat) (c : Q) : xfloat :=
  match x with
  | Fin q => Fin (fl (q * c))
  | _ => x
  end.

(** [x < c] and [x > c]; a comparison with nan is false. *)
Definition xlt (x : xfloat) (c : Q) : bool :=
  match x with
  | Fin q => Qlt_bool q c
  | NegInf => true
  | PosInf | NaN => false
  end.

Definition xgt (x : xfloat) (c : Q) : bool :=
  match x with
  | Fin q => Qlt_bool c q
  | PosInf => true
  | NegInf | NaN => false
  end.

(** [min(x, c)] is [c] when [c < x] and [x] otherwise; [max(x, c)] is [c]
    when [c > x] and [x] otherwise. *)
Definition xmin (x : xfloat) (c : Q) : xfloat := if xgt x c then Fin c else x.
Definition xmax (x : xfloat) (c : Q) : xfloat := if xlt x c then Fin c else x.

End Numpy.

(** A prediction as the signal evaluator makes it: the predicted change
    and the confidence are numpy floats.  ([prediction] above has the keys
    that the trading logic reads, with finite amounts.) *)
Record forecast : Type := mkForecast {
  fc_symbol : string;
  fc_market_type : string;
  fc_current_price : Q;
  fc_predicted_price : Q;
  fc_predicted_change_pct : xfloat;
  fc_confidence : xfloat;
  fc_signal : signal
}.

Section Prediction.
Variable fl : Q -> Q.
(** The outcome, for the [i]-th data item, of scaling its features and of
    [self.models[...].predict(features_scaled)[0]] for the random forest and
    for the gradient boosting model: a number or an exception. *)
Variable rf_pred : nat -> quote -> result Q.
Variable gb_pred : nat -> quote -> result Q.

(** The body of the loop for one data item.  The predicted price is a numpy
    float, so the predicted change at a current price of 0 is an infinity
    or nan and the prediction is made all the same.  The unrealized P&L is
    a quotient of Python floats and raises on an entry price of 0, before
    the signal is chosen. *)
Definition predict_one (ac : asset_class) (pf : dict position) (i : nat)
    (data : quote) : result forecast :=
  match rf_pred i data with
  | Raise e => Raise e
  | Ok rf =>
      match gb_pred i data with
      | Raise e => Raise e
      | Ok gb =>
          let ensemble_pred := fl (fl (rf + gb) / 2) in
          let current_price := m_price data in
          let predicted_change :=
            np_div fl (fl (ensemble_pred - current_price)) current_price in
          let confidence :=
            xmin (xscale fl (xabs predicted_change) (ac_sensitivity ac)) 1 in
          let symbol := m_symbol data in
          let prediction signal confidence :=
            {| fc_symbol := symbol; fc_market_type := ac_market_type ac;
               fc_current_price := current_price;
               fc_predicted_price := ensemble_pred;
               fc_predicted_change_pct := xscale fl predicted_change 100;
               fc_confidence := confidence; fc_signal := signal |} in
          match dget symbol pf with
          | Some position =>
              let entry_price := pos_entry_price position in
              if Qeq_bool entry_price 0 then Raise ZeroDivisionError
              else
                let unrealized_pnl_pct :=
                  fl (fl (current_price - entry_price) / entry_price) in
                if xlt predicted_change (- fl (ac_decline ac)) then
                  Ok (prediction SELL (xmax confidence (fl 0.7)))
                else if Qge_bool unrealized_pnl_pct (fl take_profit_pct) then
                  Ok (prediction SELL (Fin (fl 0.9)))
                else if Qle_bool unrealized_pnl_pct (- fl stop_loss_pct) then
                  Ok (prediction SELL (Fin (fl 0.95)))
                else Ok (prediction HOLD confidence)
          | None =>
              if xgt predicted_change (fl (ac_entry ac)) then
                Ok (prediction BUY confidence)
              else if xlt predicted_change (- fl (ac_entry ac)) then
                Ok (prediction SELL confidence)
              else Ok (prediction HOLD confidence)
          end
      end
  end.

(** The loop inside the [try]: an exception ends it and the predictions made
    so far are returned. *)
Fixpoint predict_loop (ac : asset_class) (pf : dict position) (i : nat)
    (data : list quote) (predictions : list forecast) : list forecast :=
  match data with
  | [] => predictions
  | d :: r =>
      match predict_one ac pf i d with
      | Raise _ => predictions
      | Ok prediction =>
          predict_loop ac pf (S i) r (predictions ++ [prediction])%list
      end
  end.

(** [models_loaded]: [self.models] is set and has the random forest of the
    asset class. *)
Definition predict_prices (ac : asset_class) (models_loaded : bool)
    (pf : dict position) (data : list quote) : list forecast :=
  if negb models_loaded then [] else predict_loop ac pf 0 data [].

Definition predict_crypto_prices := predict_prices crypto.
Definition predict_forex_prices := predict_prices forex.

End Prediction.

(** ** The market data feed: [get_latest_crypto_data], [get_latest_forex_data] *)

(** An item of a price table; an attribute that is not there is [Absent]. *)
Record price_row : Type := mkRow {
  r_price : attr;
  r_volume : attr;
  r_bid : attr;
  r_ask : attr;
  r_spread : attr;
  r_timestamp : option string
}.

(** [float(item.get(key, 0))] *)
Definition float_or_zero (a : attr) : result Q :=
  match a with
  | Absent => Ok 0
  | Num q => Ok q
  | Text s => Raise (ValueError s)
  end.

(** [item.get('timestamp', '')] *)
Definition timestamp_or_empty (o : option string) : string :=
  match o with Some s => s | None => "" end.

Record crypto_item : Type := mkCrypto {
  c_symbol : string;
  c_price : Q;
  c_volume : Q;
  c_timestamp : string;
  c_market_type : string
}.

Record forex_item : Type := mkForex {
  f_symbol : string;
  f_price : Q;
  f_bid : Q;
  f_ask : Q;
  f_spread : Q;
  f_timestamp : string;
  f_market_type : string
}.

Definition crypto_symbols : list string :=
  ["BTC"; "ETH"; "ADA"; "SOL"; "LINK"; "AVAX"].

Definition forex_pairs : list string :=
  ["EURUSD"; "GBPUSD"; "USDJPY"; "USDCHF"; "AUDUSD"].

(** The dictionary appended for a crypto symbol. *)
Definition crypto_item_of (symbol : string) (item : price_row)
  : M crypto_item :=
  price <- lift (float_or_zero (r_price item)) ;;
  volume <- lift (float_or_zero (r_volume item)) ;;
  ret {| c_symbol := symbol; c_price := price; c_volume := volume;
         c_timestamp := timestamp_or_empty (r_timestamp item);
         c_market_type := "crypto" |}.

(** The dictionary appended for a forex pair. *)
Definition forex_item_of (pair : string) (item : price_row) : M forex_item :=
  bid <- lift (float_or_zero (r_bid item)) ;;
  ask <- lift (float_or_zero (r_ask item)) ;;
  let mid_price := (bid + ask) / 2 in
  spread <- lift (float_or_zero (r_spread item)) ;;
  ret {| f_symbol := pair; f_price := mid_price; f_bid := bid; f_ask := ask;
         f_spread := spread;
         f_timestamp := timestamp_or_empty (r_timestamp item);
         f_market_type := "forex" |}.

Section MarketData.
Context {A : Type}.
(** The outcome of [table.query(...)] with [Limit=1], newest first, for a
    symbol: the value of [response['Items']] or an exception. *)
Variable query : string -> result (list price_row).
Variable item_of : string -> price_row -> M A.

(** The loop over the symbols, inside the [try]. *)
Fixpoint fetch_loop (symbols : list string) (data : list A) : M (list A) :=
  match symbols with
  | [] => ret data
  | symbol :: r =>
      items <- lift (query symbol) ;;
      match items with
      | [] => fetch_loop r data
      | item :: _ =>
          d <- item_of symbol item ;;
          fetch_loop r (data ++ [d])%list
      end
  end.

(** The method: any exception is logged and the result is the empty
    list. *)
Definition get_latest (symbols : list string) : M (list A) :=
  try_except (fetch_loop symbols []) (fun _ => ret []).

End MarketData.

Definition get_latest_crypto_data (query : string -> result (list price_row))
  : M (list crypto_item) :=
  get_latest query crypto_item_of crypto_symbols.

Definition get_latest_forex_data (query : string -> result (list price_row))
  : M (list forex_item) :=
  get_latest query forex_item_of forex_pairs.

(** The keys of a market data item that the trading logic reads. *)
Definition crypto_quote (c : crypto_item) : quote :=
  {| m_symbol := c_symbol c; m_price := c_price c |}.

Definition forex_quote (f : forex_item) : quote :=
  {| m_symbol := f_symbol f; m_price := f_price f |}.

(** ** Portfolio status and the Lambda handler *)

(** An entry of ['openPositions']. *)
Record open_position : Type := mkOpen {
  o_symbol : string;
  o_quantity : Q;
  o_entryPrice : Q;
  o_entryTime : string;
  o_marketType : string
}.

Record portfolio_status : Type := mkStatus {
  s_walletBalance : Q;
  s_portfolioValue : Q;
  s_totalPnL : Q;
  s_positions : nat;
  s_openPositions : list open_position
}.

(** The answers of [lambda_handler], one for each [return]: the session
    figures, the portfolio status, the unknown request type, and the
    exception [e] of the message ['Trading failed: ' + str(e)]. *)
Inductive response : Type :=
| session_completed (tradesExecuted : nat)
    (portfolioValue walletBalance totalPnL : Q)
| status_report (portfolio_status : portfolio_status)
| unknown_request_type (request_type : string)
| trading_failed (e : exn).

(** ['statusCode'] *)
Definition statusCode (r : response) : nat :=
  match r with
  | session_completed _ _ _ _ => 200
  | status_report _ => 200
  | unknown_request_type _ => 400
  | trading_failed _ => 500
  end.

Section Handler.
Variable INITIAL_BALANCE : Q.
Variable uuid_of : nat -> string.
Variable now_of : nat -> string.
Variable put_item_ok : item -> bool.
Variable fl : Q -> Q.

Definition get_portfolio_status : M portfolio_status :=
  fun self =>
    (Ok {| s_walletBalance := wallet_balance self;
           s_portfolioValue := calculate_portfolio_value self;
           s_totalPnL := calculate_total_pnl INITIAL_BALANCE self;
           s_positions := List.length (portfolio self);
           s_openPositions :=
             map (fun '(symbol, pos) =>
                    {| o_symbol := symbol;
                       o_quantity := pos_quantity pos;
                       o_entryPrice := pos_entry_price pos;
                       o_entryTime := pos_entry_time pos;
                       o_marketType := pos_market_type pos |})
               (portfolio self) |}, self).

(** [lambda_handler]; [event] holds the string values of the event, the
    other arguments are those of [execute_trading_session]. *)
Definition lambda_handler (event : dict string) (scan : result (list item))
    (model_loaded : bool) (crypto_data forex_data : list quote)
    (predict_crypto_prices predict_forex_prices :
       dict position -> list quote -> list prediction)
  : M response :=
  try_except
    (let request_type :=
       match dget "requestType" event with
       | Some request_type => request_type
       | None => "trade_execution"
       end in
     if String.eqb request_type "trade_execution" then
       result <-
         execute_trading_session INITIAL_BALANCE uuid_of now_of put_item_ok
           fl scan model_loaded crypto_data forex_data predict_crypto_prices
           predict_forex_prices ;;
       ret (session_completed (trades_executed result)
              (portfolio_value result) (result_wallet_balance result)
              (total_pnl result))
     else if String.eqb request_type "portfolio_status" then
       portfolio_status <- get_portfolio_status ;;
       ret (status_report portfolio_status)
     else ret (unknown_request_type request_type))
    (fun e => ret (trading_failed e)).

End Handler.

(** * Vocabulary of the properties *)

Definition ts_lt (a b : string) : Prop := String_as_OT.lt a b.

Definition before (x y : item) : Prop := ts_lt (t_timestamp x) (t_timestamp y).

(** The records of [l] stamped [ts], in their order in [l]. *)
Definition stamped (ts : string) (l : list item) : list item :=
  filter (fun t => String.eqb (t_timestamp t) ts) l.

(** [x] is stamped no later than [y]. *)
Definition not_after (x y : item) : Prop :=
  ts_leb (t_timestamp x) (t_timestamp y) = true.

Definition symbol_of (t : item) : string :=
  match t_symbol t with Some s => s | None => "" end.

Definition has_action (a : string) (t : item) : bool :=
  match t_action t with Some a' => String.eqb a' a | None => false end.

Definition is_buy : item -> bool := has_action "BUY".
Definition is_sell : item -> bool := has_action "SELL".

(** [price * quantity] of a record. *)
Definition trade_value (t : item) : Q :=
  match t_price t, t_quantity t with
  | Num price, Num quantity => price * quantity
  | _, _ => 0
  end.

Definition sum_value (l : list item) : Q :=
  fold_right (fun t acc => trade_value t + acc) 0 l.

(** A record the replay loop can read: the keys it indexes are present and
    the two numeric fields parse. *)
Definition readable (t : item) : bool :=
  match t_symbol t, t_action t, t_quantity t, t_price t with
  | Some _, Some a, Num _, Num _ =>
      if String.eqb a "BUY"
      then match t_tradeId t with Some _ => true | None => false end
      else true
  | _, _, _, _ => false
  end.

(** A record with a missing or unparseable numeric field. *)
Definition corrupt (t : item) : bool :=
  match t_quantity t, t_price t with
  | Num _, Num _ => false
  | _, _ => true
  end.

(** Whether [s] is open after the records of [history] (latest first): the
    latest BUY or SELL record on [s] is a BUY. *)
Fixpoint holds (s : string) (history : list item) : bool :=
  match history with
  | [] => false
  | t :: r =>
      if String.eqb (symbol_of t) s then
        if is_buy t then true else if is_sell t then false else holds s r
      else holds s r
  end.

(** The SELL records of [l] that find their symbol open, [l] coming after
    [history]. *)
Fixpoint credited (history l : list item) : list item :=
  match l with
  | [] => []
  | t :: r =>
      if is_sell t && holds (symbol_of t) history
      then t :: credited (t :: history) r
      else credited (t :: history) r
  end.

(** [self] with a new portfolio and wallet balance. *)
Definition update (self : trader) (pf : dict position) (w : Q) : trader :=
  {| portfolio := pf; wallet_balance := w;
     current_market_prices := current_market_prices self;
     trading_table := trading_table self; ticks := ticks self |}.


(** The SELL items on [s] of a trading table. *)
Definition sells_for (s : string) (table : list item) : list item :=
  filter (fun t => is_sell t && String.eqb (symbol_of t) s) table.

Section TradeVocabulary.
Variable uuid_of : nat -> string.
Variable now_of : nat -> string.

(** [self] after a trade attempt that changed the portfolio and the wallet
    balance, made [n] calls to [uuid4] and [utcnow], and whose item was
    [stored] or not. *)
Definition after_trade (self : trader) (pf : dict position) (w : Q)
    (trade : item) (n : nat) (stored : bool) : trader :=
  {| portfolio := pf; wallet_balance := w;
     current_market_prices := current_market_prices self;
     trading_table :=
       if stored then (trading_table self ++ [trade])%list
       else trading_table self;
     ticks := n + ticks self |}.

(** The amount [execute_trade] commits to a BUY. *)
Definition position_size_of (prediction : prediction) (self : trader) : Q :=
  wallet_balance self * max_position_size * p_confidence prediction.

(** The position and the item of a BUY executed from [self]. *)
Definition bought_position (prediction : prediction) (self : trader)
  : position :=
  {| pos_quantity :=
       position_size_of prediction self / p_current_price prediction;
     pos_entry_price := p_current_price prediction;
     pos_entry_time := now_of (2 + ticks self);
     pos_trade_id := uuid_of (ticks self);
     pos_market_type := p_market_type prediction |}.

Definition bought_item (prediction : prediction) (self : trader) : item :=
  with_walletBalanceAfter
    (buy_item (uuid_of (ticks self)) (p_symbol prediction)
       (p_market_type prediction)
       (position_size_of prediction self / p_current_price prediction)
       (p_current_price prediction) (position_size_of prediction self)
       (p_confidence prediction) (now_of (1 + ticks self))
       (wallet_balance self) (p_predicted_change_pct prediction))
    (wallet_balance self - position_size_of prediction self).

(** The item of a SELL of [position] at [price] from [self]. *)
Definition sold_item (symbol market_type : string) (price : Q)
    (exit_reason : option string) (position : position) (self : trader)
  : item :=
  with_walletBalanceAfter
    (sell_item (uuid_of (ticks self)) symbol market_type
       (pos_quantity position) price (pos_entry_price position)
       ((price - pos_entry_price position) / pos_entry_price position * 100)
       (now_of (1 + ticks self)) exit_reason (wallet_balance self)
       (pos_trade_id position))
    (wallet_balance self + price * pos_quantity position).

End TradeVocabulary.

(** The symbol of an entry of [symbols_to_close]. *)
Definition closing_symbol (c : string * Q * string) : string := fst (fst c).

(** The items a method call has added to the trading table. *)
Definition added (self self' : trader) : list item :=
  skipn (List.length (trading_table self)) (trading_table self').

(** From [self] to [self'] the trading table has only grown, by items that
    satisfy [P]. *)
Definition extends (P : item -> Prop) (self self' : trader) : Prop :=
  exists l,
    trading_table self' = (trading_table self ++ l)%list /\ Forall P l.

(** An item whose [walletBalanceAfter] is a non-negative amount. *)
Definition balance_after_nonneg (t : item) : Prop :=
  match t_walletBalanceAfter t with
  | Num w => 0 <= w
  | _ => False
  end.

(** A non-negative wallet balance and non-negative quantities. *)
Definition solvent (self : trader) : Prop :=
  0 <= wallet_balance self
  /\ forall k pos, In (k, pos) (portfolio self) -> 0 <= pos_quantity pos.

(** [self'] is solvent and was reached from [self] by writing only items
    with a non-negative balance. *)
Definition sound_step (self self' : trader) : Prop :=
  solvent self' /\ extends balance_after_nonneg self self'.

(** An item that is not a SELL on [s]. *)
Definition not_sell_on (s : string) (t : item) : Prop :=
  is_sell t && String.eqb (symbol_of t) s = false.

(** A prediction that makes phase 1 sell [s]. *)
Definition model_exit (s : string) (p : prediction) : Prop :=
  p_symbol p = s /\ p_signal p = SELL /\ min_confidence <= p_confidence p.

(** A position on which the risk monitor takes profit at the quoted
    price. *)
Definition take_profit_due (all_data : dict quote) (s : string)
    (pos : position) : Prop :=
  exists data,
    dget s all_data = Some data
    /\ ~ pos_entry_price pos == 0
    /\ take_profit_pct
       <= (m_price data - pos_entry_price pos) / pos_entry_price pos.

(** ** Sample data *)

(** [PaperTrader.__init__] *)
Definition init (INITIAL_BALANCE : Q) : trader :=
  {| portfolio := []; wallet_balance := INITIAL_BALANCE;
     current_market_prices := []; trading_table := []; ticks := 0 |}.

(** A ledger record with the keys the replay reads. *)
Definition ledger_record (id symbol action : string) (quantity price : attr)
    (timestamp : string) : item :=
  {| t_tradeId := Some id; t_symbol := Some symbol;
     t_marketType := Some "crypto"; t_action := Some action;
     t_quantity := quantity; t_price := price; t_value := Absent;
     t_confidence := Absent; t_timestamp := timestamp;
     t_status := Some "EXECUTED"; t_walletBalanceBefore := Absent;
     t_predictedChange := Absent; t_walletBalanceAfter := Absent;
     t_entryPrice := Absent; t_pnl := Absent; t_pnlPercent := Absent;
     t_originalTradeId := None; t_exitReason := None |}.

Definition sell_sol : item :=
  ledger_record "t-1" "SOL" "SELL" (Num 1) (Num 10) "2024-05-01T10:00:00".
Definition buy_btc_1 : item :=
  ledger_record "t-2" "BTC" "BUY" (Num 1) (Num 10) "2024-05-01T10:00:00".
Definition buy_btc_2 : item :=
  ledger_record "t-3" "BTC" "BUY" (Num 2) (Num 3) "2024-05-02T10:00:00".
Definition sell_btc_same_time : item :=
  ledger_record "t-4" "BTC" "SELL" (Num 1) (Num 12) "2024-05-01T10:00:00".
Definition buy_eth_unparseable : item :=
  ledger_record "t-5" "ETH" "BUY" (Text "n/a") (Num 3) "2024-05-03T10:00:00".
Definition buy_eth : item :=
  ledger_record "t-6" "ETH" "BUY" (Num 2) (Num 3) "2024-05-03T10:00:00".

(** A BUY signal on BTC at 45000 with confidence 0.8. *)
Definition btc_buy : prediction :=
  {| p_symbol := "BTC"; p_market_type := "crypto";
     p_current_price := 45000; p_predicted_price := 46350;
     p_predicted_change_pct := 3; p_confidence := 0.8; p_signal := BUY |}.

(** The rounding that leaves a number as it is; it is the rounding of the
    code on the numbers that are doubles. *)
Definition no_rounding (x : Q) : Q := x.

(** A BUY signal on ETH at 3000 with confidence 0.8. *)
Definition eth_buy : prediction :=
  {| p_symbol := "ETH"; p_market_type := "crypto";
     p_current_price := 3000; p_predicted_price := 3090;
     p_predicted_change_pct := 3; p_confidence := 0.8; p_signal := BUY |}.

Definition sample_uuid (n : nat) : string := "5f0c2a9e".
Definition sample_now (n : nat) : string := "2024-05-04T12:00:00".
Definition store_accepts (t : item) : bool := true.
Definition store_rejects (t : item) : bool := false.
(** A trading table that loses the items on [s] and takes the others. *)
Definition store_loses (s : string) (t : item) : bool :=
  negb (String.eqb (symbol_of t) s).

(** An open EURUSD lot entered at 1.1000, quoted at 1.2100, with a SELL
    signal of confidence 0.9. *)
Definition eurusd_lot : position :=
  {| pos_quantity := 10; pos_entry_price := 1.1;
     pos_entry_time := "2024-05-01T10:00:00"; pos_trade_id := "t-8";
     pos_market_type := "forex" |}.

Definition holding_eurusd : trader :=
  {| portfolio := [("EURUSD", eurusd_lot)]; wallet_balance := 39;
     current_market_prices := []; trading_table := []; ticks := 0 |}.

Definition eurusd_quote : quote := {| m_symbol := "EURUSD"; m_price := 1.21 |}.

(** An open GBPUSD lot entered at 1.25 and quoted at 1.5: the difference
    0.25 is a double, and the P&L ratio 0.2 is well above
    [take_profit_pct]. *)
Definition gbpusd_lot : position :=
  {| pos_quantity := 10; pos_entry_price := 1.25;
     pos_entry_time := "2024-05-01T11:00:00"; pos_trade_id := "t-9";
     pos_market_type := "forex" |}.

Definition holding_gbpusd : trader :=
  {| portfolio := [("GBPUSD", gbpusd_lot)]; wallet_balance := 37.5;
     current_market_prices := []; trading_table := []; ticks := 0 |}.

Definition gbpusd_quote : quote := {| m_symbol := "GBPUSD"; m_price := 1.5 |}.

Definition eurusd_sell : prediction :=
  {| p_symbol := "EURUSD"; p_market_type := "forex";
     p_current_price := 1.21; p_predicted_price := 1.2;
     p_predicted_change_pct := - 0.83; p_confidence := 0.9;
     p_signal := SELL |}.

(** ** Further vocabulary *)

(** The lot a BUY record stands for. *)
Definition lot_of (t : item) : position :=
  {| pos_quantity := match t_quantity t with Num q => q | _ => 0 end;
     pos_entry_price := match t_price t with Num p => p | _ => 0 end;
     pos_entry_time := t_timestamp t;
     pos_trade_id := match t_tradeId t with Some i => i | None => "" end;
     pos_market_type := match t_marketType t with
                        | Some m => m
                        | None => "unknown"
                        end |}.

(** The position on [s] after the records of [history] (latest first): the
    lot of the latest BUY or SELL record on [s], if that record is a BUY. *)
Fixpoint holding (s : string) (history : list item) : option position :=
  match history with
  | [] => None
  | t :: r =>
      if String.eqb (symbol_of t) s then
        if is_buy t then Some (lot_of t)
        else if is_sell t then None else holding s r
      else holding s r
  end.

(** Every held lot has a non-zero entry price. *)
Definition priced (self : trader) : Prop :=
  forall k pos, In (k, pos) (portfolio self) -> ~ pos_entry_price pos == 0.

(** Some held lot that has a quote has entry price 0. *)
Definition zero_entry_quoted (all_data : dict quote)
    (pf : dict position) : bool :=
  existsb
    (fun '(k, pos) =>
       match dget k all_data with
       | Some _ => Qeq_bool (pos_entry_price pos) 0
       | None => false
       end) pf.

(** An item written by [execute_trade]: it has no exit reason. *)
Definition model_trade (t : item) : bool :=
  match t_exitReason t with None => true | Some _ => false end.

(** The BUY items on [s] of a trading table. *)
Definition buys_for (s : string) (table : list item) : list item :=
  filter (fun t => is_buy t && String.eqb (symbol_of t) s) table.

(** From [self] with count [n] to [self'] with count [n']: the count has
    grown by the number of items written without exit reason. *)
Definition counted (n : nat) (self : trader) (n' : nat) (self' : trader)
  : Prop :=
  exists l,
    trading_table self' = (trading_table self ++ l)%list
    /\ n' = (n + List.length (filter model_trade l))%nat.

(** An item that is not a BUY on [s]. *)
Definition not_buy_on (s : string) (t : item) : Prop :=
  is_buy t && String.eqb (symbol_of t) s = false.

(** Two lots that differ at most in their entry time. *)
Definition same_lot (a b : position) : Prop :=
  pos_quantity a = pos_quantity b
  /\ pos_entry_price a = pos_entry_price b
  /\ pos_trade_id a = pos_trade_id b
  /\ pos_market_type a = pos_market_type b.

(** Two traders with the same cash and, symbol by symbol, the same lots. *)
Definition agrees (a b : trader) : Prop :=
  wallet_balance a == wallet_balance b
  /\ forall s,
       match dget s (portfolio a), dget s (portfolio b) with
       | Some x, Some y => same_lot x y
       | None, None => True
       | _, _ => False
       end.

(** From [self] to [self'] the trading table has grown by items whose
    replay, from any trader that agrees with [self], gives a trader that
    agrees with [self']. *)
Definition replayable (self self' : trader) : Prop :=
  exists l,
    trading_table self' = (trading_table self ++ l)%list
    /\ forall a, agrees a self ->
         exists a',
           for_each l replay_trade a = (Ok tt, a') /\ agrees a' self'.

(** A dictionary holds each key once. *)
Definition well_keyed {V : Type} (d : dict V) : Prop := NoDup (map fst d).

Section RiskVocabulary.
Variable fl : Q -> Q.

(** The P&L ratio of the lot [pos] at [price], as the floats give it. *)
Definition float_pnl (price : Q) (pos : position) : Q :=
  fl (fl (price - pos_entry_price pos) / pos_entry_price pos).

(** The price and the reason at which the risk monitor closes the lot
    [pos] on [k], if it does. *)
Definition exit_due (all_data : dict quote) (k : string) (pos : position)
  : option (Q * string) :=
  match dget k all_data with
  | None => None
  | Some data =>
      if Qle_bool (float_pnl (m_price data) pos) (- fl stop_loss_pct)
      then Some (m_price data, "STOP_LOSS")
      else if Qge_bool (float_pnl (m_price data) pos) (fl take_profit_pct)
           then Some (m_price data, "TAKE_PROFIT")
           else None
  end.

(** The entries of [symbols_to_close] for the lots of [items]. *)
Definition due_list (all_data : dict quote) (items : list (string * position))
  : list (string * Q * string) :=
  flat_map
    (fun '(k, pos) =>
       match exit_due all_data k pos with
       | Some (price, reason) => [(k, price, reason)]
       | None => []
       end) items.

(** What closing the due lots of [items] brings in. *)
Definition exit_proceeds (all_data : dict quote)
    (items : list (string * position)) : Q :=
  fold_right
    (fun '(k, pos) acc =>
       match exit_due all_data k pos with
       | Some (price, _) => price * pos_quantity pos + acc
       | None => acc
       end) 0 items.

End RiskVocabulary.

(** The price at which [calculate_portfolio_value] values a lot: the
    current market price of its symbol, or else its entry price. *)
Definition mark (prices : dict Q) (symbol : string) (pos : position) : Q :=
  match dget symbol prices with
  | Some price => price
  | None => pos_entry_price pos
  end.

(** The value of the lots of [pf] at their marks. *)
Definition positions_value (prices : dict Q) (pf : dict position) : Q :=
  fold_right
    (fun '(k, pos) acc => pos_quantity pos * mark prices k pos + acc) 0 pf.

(** What a rounding to the nearest double does, as far as the properties
    need it: it keeps the order, and 0 and 1 are doubles. *)
Definition rounding (fl : Q -> Q) : Prop :=
  (forall x y, x <= y -> fl x <= fl y) /\ fl 0 == 0 /\ fl 1 == 1.

(** A confidence: between 0 and 1, or nan. *)
Definition unit_confidence (x : xfloat) : Prop :=
  match x with
  | Fin c => 0 <= c <= 1
  | NaN => True
  | PosInf | NegInf => False
  end.

Section PredictionVocabulary.
Variable fl : Q -> Q.
Variable rf_pred : nat -> quote -> result Q.
Variable gb_pred : nat -> quote -> result Q.

(** The predictions [made] are those of the loop body for the first items
    of [data], taken in order from the [i]-th on. *)
Fixpoint made_from (ac : asset_class) (pf : dict position) (i : nat)
    (made : list forecast) (data : list quote) : Prop :=
  match made, data with
  | [], _ => True
  | f :: made', d :: data' =>
      predict_one fl rf_pred gb_pred ac pf i d = Ok f
      /\ made_from ac pf (S i) made' data'
  | _ :: _, [] => False
  end.

(** The loop of the signal evaluator ends at the [i]-th item [d]: a model
    raises on it, or its symbol is held with entry price 0. *)
Definition stops (pf : dict position) (i : nat) (d : quote) : Prop :=
  raises (rf_pred i d) \/ raises (gb_pred i d)
  \/ exists pos,
       dget (m_symbol d) pf = Some pos /\ pos_entry_price pos == 0.

End PredictionVocabulary.

(** A feed item without price: BTC at 0. *)
Definition btc_unpriced : quote := {| m_symbol := "BTC"; m_price := 0 |}.

Section FeedVocabulary.
Context {A : Type}.
Variable query : string -> result (list price_row).
Variable item_of : string -> price_row -> M A.
Variable self : trader.

(** The newest row of a symbol, when its query returns one. *)
Definition newest (symbol : string) : option price_row :=
  match query symbol with
  | Ok (row :: _) => Some row
  | _ => None
  end.

(** The query of the symbol raises, or its newest row does not parse. *)
Definition feed_fails (symbol : string) : bool :=
  match query symbol with
  | Raise _ => true
  | Ok [] => false
  | Ok (row :: _) =>
      match fst (item_of symbol row self) with
      | Raise _ => true
      | Ok _ => false
      end
  end.

(** The data items of the symbols that have a row. *)
Definition feed_items (symbols : list string) : list A :=
  flat_map
    (fun symbol =>
       match newest symbol with
       | Some row =>
           match fst (item_of symbol row self) with
           | Ok d => [d]
           | Raise _ => []
           end
       | None => []
       end) symbols.

End FeedVocabulary.

(** The request type that [lambda_handler] reads from [event]. *)
Definition request_type_of (event : dict string) : string :=
  match dget "requestType" event with
  | Some request_type => request_type
  | None => "trade_execution"
  end.

(** No BUY record of [trades] has price 0. *)
Definition buys_priced (trades : list item) : Prop :=
  Forall (fun t => is_buy t = true ->
                   forall q, t_price t = Num q -> ~ q == 0) trades.

Definition trade_event : dict string := [("requestType", "trade_execution")].
Definition status_event : dict string := [("requestType", "portfolio_status")].

(** * Properties *)

(** ** Dictionaries *)

Section DictFacts.
Context {V : Type}.
Implicit Types (d : dict V) (k : string) (v : V).

Lemma dget_dset_eq k v d : dget k (dset k v d) = Some v.
Proof.
  induction d as [|[k' v'] r IH]; simpl.
  - now rewrite String.eqb_refl.
  - destruct (String.eqb k k') eqn:E; simpl.
    + now rewrite String.eqb_refl.
    + now rewrite E.
Qed.

Lemma dget_dset_neq k k' v d : k <> k' -> dget k' (dset k v d) = dget k' d.
Proof.
  intros Hne. induction d as [|[k0 v0] r IH]; simpl.
  - destruct (String.eqb_spec k' k); congruence.
  - destruct (String.eqb_spec k k0) as [->|Hk]; simpl.
    + destruct (String.eqb_spec k' k0); congruence.
    + destruct (String.eqb_spec k' k0); congruence.
Qed.

Lemma dget_ddel_eq k d : dget k (ddel k d) = None.
Proof.
  induction d as [|[k0 v0] r IH]; simpl; trivial.
  destruct (String.eqb k k0) eqn:E; simpl; trivial.
  now rewrite E.
Qed.

Lemma dget_ddel_neq k k' d : k <> k' -> dget k' (ddel k d) = dget k' d.
Proof.
  intros Hne. induction d as [|[k0 v0] r IH]; simpl; trivial.
  destruct (String.eqb_spec k k0) as [->|Hk]; simpl.
  - destruct (String.eqb_spec k' k0); congruence.
  - destruct (String.eqb_spec k' k0); congruence.
Qed.

Lemma dmem_dset k k' v d :
  dmem k' (dset k v d) = if String.eqb k k' then true else dmem k' d.
Proof.
  unfold dmem. destruct (String.eqb_spec k k') as [->|Hne].
  - now rewrite dget_dset_eq.
  - now rewrite dget_dset_neq.
Qed.

Lemma dmem_ddel k k' d :
  dmem k' (ddel k d) = if String.eqb k k' then false else dmem k' d.
Proof.
  unfold dmem. destruct (String.eqb_spec k k') as [->|Hne].
  - now rewrite dget_ddel_eq.
  - now rewrite dget_ddel_neq.
Qed.

Lemma dget_In k v d : dget k d = Some v -> In (k, v) d.
Proof.
  induction d as [|[k0 v0] r IH]; simpl; [discriminate|].
  destruct (String.eqb_spec k k0) as [->|Hk]; intros H.
  - left. congruence.
  - right. auto.
Qed.


Lemma ddel_absent k d : dget k d = None -> ddel k d = d.
Proof.
  induction d as [|[k0 v0] r IH]; simpl; trivial.
  destruct (String.eqb k k0); [discriminate|].
  intros H. now rewrite IH.
Qed.

End DictFacts.

(** ** Timestamps and sorting *)

Lemma ts_lt_irrefl a : ~ ts_lt a a.
Proof. exact (@StrictOrder_Irreflexive _ _ String_as_OT.lt_strorder a). Qed.

Lemma ts_lt_trans a b c : ts_lt a b -> ts_lt b c -> ts_lt a c.
Proof. exact (@StrictOrder_Transitive _ _ String_as_OT.lt_strorder a b c). Qed.

Lemma ts_leb_cases a b : ts_leb a b = true <-> (a = b \/ ts_lt a b).
Proof.
  unfold ts_leb.
  destruct (String_as_OT.compare_spec a b) as [H|H|H]; split; auto.
  - discriminate.
  - intros [->|H']; exfalso.
    + exact (ts_lt_irrefl _ H).
    + exact (ts_lt_irrefl _ (ts_lt_trans _ _ _ H H')).
Qed.

Lemma ts_leb_false a b : ts_leb a b = false -> ts_lt b a.
Proof.
  unfold ts_leb, ts_lt.
  now destruct (String_as_OT.compare_spec a b).
Qed.

Lemma insert_by_timestamp_perm x l :
  Permutation (insert_by_timestamp x l) (x :: l).
Proof.
  induction l as [|y r IH]; simpl; auto.
  destruct (ts_leb _ _); auto.
  rewrite IH. apply perm_swap.
Qed.

Lemma sorted_perm l : Permutation (sorted l) l.
Proof.
  induction l as [|x r IH]; simpl; auto.
  rewrite insert_by_timestamp_perm. auto.
Qed.

(** On items whose timestamps are pairwise distinct, the order of the output
    is strict. *)
Lemma insert_by_timestamp_sorted x l :
  ~ In (t_timestamp x) (map t_timestamp l) ->
  StronglySorted before l ->
  StronglySorted before (insert_by_timestamp x l).
Proof.
  induction l as [|y r IH]; simpl; intros Hx Hs.
  - repeat constructor.
  - inversion Hs as [|? ? Hr Hy]; subst.
    destruct (ts_leb _ _) eqn:E.
    + apply ts_leb_cases in E.
      destruct E as [E|E]; [exfalso; apply Hx; left; congruence|].
      constructor; [assumption|]. constructor; [assumption|].
      rewrite Forall_forall in *. intros z Hz. unfold before in *.
      eapply ts_lt_trans; eauto.
    + apply ts_leb_false in E.
      constructor; [apply IH; tauto|].
      rewrite Forall_forall in *. intros z Hz.
      apply (Permutation_in _ (insert_by_timestamp_perm x r)) in Hz.
      destruct Hz as [<-|Hz]; auto.
Qed.

Lemma sorted_strongly l :
  NoDup (map t_timestamp l) -> StronglySorted before (sorted l).
Proof.
  induction l as [|x r IH]; simpl; intros Hnd.
  - constructor.
  - inversion Hnd; subst. apply insert_by_timestamp_sorted; auto.
    intros Hin. apply (Permutation_in _ (Permutation_map _ (sorted_perm r))) in Hin.
    contradiction.
Qed.

Lemma before_asym x y : before x y -> before y x -> False.
Proof.
  unfold before. intros H1 H2.
  exact (ts_lt_irrefl _ (ts_lt_trans _ _ _ H1 H2)).
Qed.

Lemma strongly_sorted_unique (l1 l2 : list item) :
  StronglySorted before l1 -> StronglySorted before l2 ->
  Permutation l1 l2 -> l1 = l2.
Proof.
  revert l2. induction l1 as [|a r1 IH]; intros l2 H1 H2 Hp.
  - apply Permutation_nil in Hp. now subst.
  - destruct l2 as [|b r2].
    + apply Permutation_sym, Permutation_nil in Hp. discriminate.
    + inversion H1 as [|? ? Hr1 Ha]; inversion H2 as [|? ? Hr2 Hb]; subst.
      assert (a = b) as ->.
      { assert (Hin1 : In a (b :: r2))
          by (eapply Permutation_in; [exact Hp | now left]).
        assert (Hin2 : In b (a :: r1))
          by (eapply Permutation_in; [exact (Permutation_sym Hp) | now left]).
        destruct Hin1 as [->|Hin1]; trivial.
        destruct Hin2 as [->|Hin2]; trivial.
        rewrite Forall_forall in Ha, Hb.
        exfalso. eapply before_asym; eauto. }
      f_equal. apply IH; auto. eapply Permutation_cons_inv; eassumption.
Qed.

Lemma sorted_input_order l1 l2 :
  Permutation l1 l2 -> NoDup (map t_timestamp l1) -> sorted l1 = sorted l2.
Proof.
  intros Hp Hnd. apply strongly_sorted_unique.
  - apply sorted_strongly; assumption.
  - apply sorted_strongly.
    eapply Permutation_NoDup; [apply Permutation_map; eassumption | assumption].
  - rewrite !sorted_perm. assumption.
Qed.

Lemma ts_leb_trans a b c :
  ts_leb a b = true -> ts_leb b c = true -> ts_leb a c = true.
Proof.
  rewrite !ts_leb_cases.
  intros [->|H1] [->|H2]; auto.
  right. eapply ts_lt_trans; eassumption.
Qed.

Lemma ts_lt_neq a b : ts_lt a b -> String.eqb a b = false.
Proof.
  intros H. apply String.eqb_neq. intros ->.
  exact (ts_lt_irrefl _ H).
Qed.

(** The output is in ascending order of timestamp. *)
Lemma sorted_ascending l : StronglySorted not_after (sorted l).
Proof.
  induction l as [|x r IH]; simpl; [constructor|].
  induction IH as [|y r' Hr' IH' Hy]; simpl.
  - repeat constructor.
  - destruct (ts_leb (t_timestamp x) (t_timestamp y)) eqn:E.
    + constructor; [now constructor|].
      constructor; [exact E|].
      eapply Forall_impl; [|exact Hy].
      intros z Hz. unfold not_after in *. eapply ts_leb_trans; eassumption.
    + constructor; [exact IH'|].
      apply ts_leb_false in E.
      rewrite Forall_forall in *. intros z Hz.
      apply (Permutation_in _ (insert_by_timestamp_perm x r')) in Hz.
      destruct Hz as [<-|Hz]; [|auto].
      apply ts_leb_cases. now right.
Qed.

(** The sort is stable: records with one timestamp keep their input
    order. *)
Lemma stamped_insert ts x l :
  stamped ts (insert_by_timestamp x l) = stamped ts (x :: l).
Proof.
  induction l as [|y r IH]; simpl; [reflexivity|].
  destruct (ts_leb (t_timestamp x) (t_timestamp y)) eqn:E; [reflexivity|].
  apply ts_leb_false, ts_lt_neq in E.
  unfold stamped in *. simpl in *. rewrite IH.
  destruct (String.eqb_spec (t_timestamp x) ts) as [Hx|Hx];
    destruct (String.eqb_spec (t_timestamp y) ts) as [Hy|Hy]; trivial.
  rewrite Hx, Hy, String.eqb_refl in E. discriminate.
Qed.

Lemma sorted_stable ts l : stamped ts (sorted l) = stamped ts l.
Proof.
  induction l as [|x r IH]; simpl; [reflexivity|].
  rewrite stamped_insert. unfold stamped in *. simpl. now rewrite IH.
Qed.

(** Two ascending lists of the same records in which the records of each
    timestamp come in the same order are equal. *)
Lemma ascending_same_ties (l1 l2 : list item) :
  StronglySorted not_after l1 -> StronglySorted not_after l2 ->
  Permutation l1 l2 ->
  (forall ts, stamped ts l1 = stamped ts l2) ->
  l1 = l2.
Proof.
  revert l2. induction l1 as [|a r1 IH]; intros l2 H1 H2 Hp Hsame.
  - apply Permutation_nil in Hp. now subst.
  - destruct l2 as [|b r2].
    + apply Permutation_sym, Permutation_nil in Hp. discriminate.
    + inversion H1 as [|? ? Hr1 Ha]; inversion H2 as [|? ? Hr2 Hb]; subst.
      rewrite Forall_forall in Ha, Hb.
      assert (Hts : t_timestamp a = t_timestamp b).
      { assert (Hin1 : In a (b :: r2))
          by (eapply Permutation_in; [exact Hp | now left]).
        assert (Hin2 : In b (a :: r1))
          by (eapply Permutation_in; [exact (Permutation_sym Hp) | now left]).
        destruct Hin1 as [->|Hin1]; trivial.
        destruct Hin2 as [->|Hin2]; trivial.
        pose proof (Hb a Hin1) as Hba. pose proof (Ha b Hin2) as Hab.
        unfold not_after in Hba, Hab. apply ts_leb_cases in Hba, Hab.
        destruct Hab as [Hab|Hab]; [exact Hab|].
        destruct Hba as [Hba|Hba]; [now symmetry|].
        exfalso. exact (ts_lt_irrefl _ (ts_lt_trans _ _ _ Hab Hba)). }
      assert (a = b) as ->.
      { pose proof (Hsame (t_timestamp a)) as E. unfold stamped in E.
        simpl in E. rewrite <- Hts, String.eqb_refl in E. now injection E. }
      f_equal. apply IH; trivial.
      * eapply Permutation_cons_inv; eassumption.
      * intros ts. pose proof (Hsame ts) as E. unfold stamped in E |- *.
        simpl in E. destruct (String.eqb (t_timestamp b) ts); [|exact E].
        now injection E.
Qed.

Lemma sorted_same_ties l1 l2 :
  Permutation l1 l2 -> (forall ts, stamped ts l1 = stamped ts l2) ->
  sorted l1 = sorted l2.
Proof.
  intros Hp Hsame. apply ascending_same_ties.
  - apply sorted_ascending.
  - apply sorted_ascending.
  - rewrite !sorted_perm. exact Hp.
  - intros ts. now rewrite !sorted_stable.
Qed.

(** ** Ledger replay *)

Ltac run :=
  cbv beta iota delta
    [bind ret throw lift gets try_except div fdiv fsub set_portfolio
     set_wallet_balance
     set_current_market_prices uuid4 utcnow put_item tick].

Lemma update_self self : update self (portfolio self) (wallet_balance self) = self.
Proof. now destruct self. Qed.

Lemma sum_value_perm l1 l2 (f : item -> bool) :
  Permutation l1 l2 -> sum_value (filter f l1) == sum_value (filter f l2).
Proof.
  induction 1 as [|x l l' _ IH|x y l|l l' l'' _ IH1 _ IH2]; simpl.
  - reflexivity.
  - destruct (f x); simpl; rewrite IH; reflexivity.
  - destruct (f x), (f y); simpl; lra.
  - rewrite IH1. assumption.
Qed.

Lemma replay_trade_corrupt t self :
  corrupt t = true -> exists e, replay_trade t self = (Raise e, self).
Proof.
  unfold corrupt, replay_trade. intros H. run.
  destruct (t_symbol t), (t_action t), (t_quantity t), (t_price t);
    simpl; try discriminate; eauto.
Qed.

(** The three outcomes of the loop body on a record it can read. *)
Lemma replay_trade_buy t self sym q p tid :
  t_symbol t = Some sym -> t_action t = Some "BUY" ->
  t_quantity t = Num q -> t_price t = Num p -> t_tradeId t = Some tid ->
  replay_trade t self =
    (Ok tt,
     update self
       (dset sym
          {| pos_quantity := q; pos_entry_price := p;
             pos_entry_time := t_timestamp t; pos_trade_id := tid;
             pos_market_type := match t_marketType t with
                                | Some m => m
                                | None => "unknown"
                                end |} (portfolio self))
       (wallet_balance self - p * q)).
Proof.
  intros Hs Ha Hq Hp Hid. unfold replay_trade.
  rewrite Hs, Ha, Hq, Hp, Hid. reflexivity.
Qed.

Lemma replay_trade_sell_open t self sym q p :
  t_symbol t = Some sym -> t_action t = Some "SELL" ->
  t_quantity t = Num q -> t_price t = Num p ->
  dmem sym (portfolio self) = true ->
  replay_trade t self =
    (Ok tt,
     update self (ddel sym (portfolio self)) (wallet_balance self + p * q)).
Proof.
  intros Hs Ha Hq Hp Hm. unfold replay_trade.
  rewrite Hs, Ha, Hq, Hp. run. simpl. rewrite Hm. reflexivity.
Qed.

Lemma replay_trade_skip t self sym act q p :
  t_symbol t = Some sym -> t_action t = Some act ->
  t_quantity t = Num q -> t_price t = Num p ->
  String.eqb act "BUY" = false ->
  String.eqb act "SELL" && dmem sym (portfolio self) = false ->
  replay_trade t self = (Ok tt, self).
Proof.
  intros Hs Ha Hq Hp Hb Hm. unfold replay_trade.
  rewrite Hs, Ha, Hq, Hp. run. simpl. rewrite Hb, Hm. reflexivity.
Qed.

Lemma update_update self pf w pf' w' :
  update (update self pf w) pf' w' = update self pf' w'.
Proof. reflexivity. Qed.

Lemma replay_readable l : forall self history,
  Forall (fun t => readable t = true) l ->
  (forall s, dmem s (portfolio self) = holds s history) ->
  exists pf w,
    for_each l replay_trade self = (Ok tt, update self pf w)
    /\ w == wallet_balance self - sum_value (filter is_buy l)
            + sum_value (credited history l)
    /\ forall s, dmem s pf = holds s (rev l ++ history)%list.
Proof.
  induction l as [|t r IH]; intros self history Hr Hinv.
  - exists (portfolio self), (wallet_balance self). simpl.
    rewrite update_self. repeat split; auto. lra.
  - inversion Hr as [|? ? Ht Hr']; subst.
    simpl for_each. unfold bind at 1.
    unfold readable in Ht.
    destruct (t_symbol t) as [sym|] eqn:Esym; try discriminate.
    destruct (t_action t) as [act|] eqn:Eact; try discriminate.
    destruct (t_quantity t) as [|q|] eqn:Eq; try discriminate.
    destruct (t_price t) as [|p|] eqn:Ep; try discriminate.
    assert (Hsym : symbol_of t = sym) by (unfold symbol_of; now rewrite Esym).
    assert (Hval : trade_value t = p * q)
      by (unfold trade_value; now rewrite Ep, Eq).
    destruct (String.eqb act "BUY") eqn:Ebuy.
    + destruct (t_tradeId t) as [tid|] eqn:Etid; try discriminate.
      assert (Hb : is_buy t = true)
        by (unfold is_buy, has_action; now rewrite Eact).
      apply String.eqb_eq in Ebuy. subst act.
      assert (Hs : is_sell t = false)
        by (unfold is_sell, has_action; now rewrite Eact).
      rewrite (replay_trade_buy t self sym q p tid) by assumption.
      match goal with |- context [for_each r replay_trade ?st] =>
        destruct (IH st (t :: history) Hr') as (pf & w & Hrun & Hw & Hpf)
      end.
      { intros s. simpl portfolio. rewrite dmem_dset. simpl holds.
        rewrite Hsym, Hb. destruct (String.eqb sym s); auto. }
      exists pf, w. rewrite Hrun. simpl in Hw |- *.
      rewrite Hb, Hs. simpl. rewrite Hval. repeat split; auto; try lra.
      intros s. rewrite Hpf, <- app_assoc. reflexivity.
    + assert (Hnb : is_buy t = false)
        by (unfold is_buy, has_action; now rewrite Eact).
      destruct (String.eqb act "SELL") eqn:Esell.
      * assert (Hs : is_sell t = true)
          by (unfold is_sell, has_action; now rewrite Eact).
        apply String.eqb_eq in Esell. subst act.
        destruct (dmem sym (portfolio self)) eqn:Emem.
        -- rewrite (replay_trade_sell_open t self sym q p) by assumption.
           match goal with |- context [for_each r replay_trade ?st] =>
             destruct (IH st (t :: history) Hr') as (pf & w & Hrun & Hw & Hpf)
           end.
           { intros s. simpl portfolio. rewrite dmem_ddel. simpl holds.
             rewrite Hsym, Hnb, Hs.
             destruct (String.eqb sym s); auto. }
           exists pf, w. rewrite Hrun. simpl in Hw |- *.
           rewrite Hnb, Hs, Hsym, <- Hinv, Emem. simpl.
           rewrite Hval. repeat split; auto; try lra.
           intros s. rewrite Hpf, <- app_assoc. reflexivity.
        -- rewrite (replay_trade_skip t self sym "SELL" q p)
             by (auto; now rewrite Emem).
           destruct (IH self (t :: history) Hr') as (pf & w & Hrun & Hw & Hpf).
           { intros s. simpl holds. rewrite Hsym, Hnb, Hs.
             destruct (String.eqb_spec sym s) as [<-|]; auto. }
           exists pf, w. rewrite Hrun. simpl.
           rewrite Hnb, Hs, Hsym, <- Hinv, Emem. simpl.
           repeat split; auto.
           intros s. rewrite Hpf, <- app_assoc. reflexivity.
      * assert (Hs : is_sell t = false)
          by (unfold is_sell, has_action; now rewrite Eact).
        rewrite (replay_trade_skip t self sym act q p)
          by (auto; now rewrite Esell).
        destruct (IH self (t :: history) Hr') as (pf & w & Hrun & Hw & Hpf).
        { intros s. simpl holds. rewrite Hnb, Hs.
          destruct (String.eqb _ s); auto. }
        exists pf, w. rewrite Hrun. simpl.
        rewrite Hnb, Hs. simpl.
        repeat split; auto.
        intros s. rewrite Hpf, <- app_assoc. reflexivity.
Qed.

Lemma replay_trade_frame t self :
  exists r pf w, replay_trade t self = (r, update self pf w).
Proof.
  assert (Hself : forall r : result unit,
             exists r' pf w, (r, self) = (r', update self pf w)).
  { intros r. exists r, (portfolio self), (wallet_balance self).
    now rewrite update_self. }
  unfold replay_trade. run.
  destruct (t_symbol t), (t_action t), (t_quantity t), (t_price t); simpl;
    try apply Hself.
  destruct (String.eqb _ "BUY").
  - destruct (t_tradeId t); simpl; try apply Hself.
    eexists _, _, _. reflexivity.
  - destruct (String.eqb _ "SELL" && _); try apply Hself.
    eexists _, _, _. reflexivity.
Qed.

Lemma replay_frame l : forall self,
  exists r pf w, for_each l replay_trade self = (r, update self pf w).
Proof.
  induction l as [|t l IH]; intros self; simpl.
  - exists (Ok tt), (portfolio self), (wallet_balance self).
    now rewrite update_self.
  - unfold bind. destruct (replay_trade_frame t self) as (r & pf & w & ->).
    destruct r.
    + destruct (IH (update self pf w)) as (r' & pf' & w' & ->).
      rewrite update_update. eauto.
    + eauto.
Qed.

Lemma replay_corrupt l c : In c l -> corrupt c = true ->
  forall self, exists e self', for_each l replay_trade self = (Raise e, self').
Proof.
  induction l as [|t l IH]; intros Hin Hc self; [contradiction|].
  simpl. unfold bind.
  destruct (replay_trade t self) as [[[]|e] self1] eqn:E.
  - destruct Hin as [->|Hin].
    + destruct (replay_trade_corrupt c self Hc) as (e & He). congruence.
    + apply IH; assumption.
  - eauto.
Qed.

Section ReplayFacts.
Variable INITIAL_BALANCE : Q.
Local Abbreviation load := (load_portfolio_state INITIAL_BALANCE).

Lemma load_unfold trades self :
  load (Ok trades) self =
    match for_each (sorted trades) replay_trade (update self [] INITIAL_BALANCE)
    with
    | (Ok a, self') => (Ok a, self')
    | (Raise _, self') => (Ok tt, update self' [] INITIAL_BALANCE)
    end.
Proof.
  unfold load_portfolio_state. run. simpl.
  destruct (for_each _ _ _) as [[a|e] self']; reflexivity.
Qed.

Lemma load_scan_failure e self :
  load (Raise e) self = (Ok tt, update self [] INITIAL_BALANCE).
Proof. reflexivity. Qed.

(** [load_portfolio_state] returns normally on every input. *)
Lemma load_never_raises scan self : fst (load scan self) = Ok tt.
Proof.
  destruct scan as [trades|e]; [|reflexivity].
  rewrite load_unfold.
  destruct (for_each _ _ _) as [[[]|e] self']; reflexivity.
Qed.

Lemma load_readable trades self :
  Forall (fun t => readable t = true) trades ->
  exists pf w,
    load (Ok trades) self = (Ok tt, update self pf w)
    /\ w == INITIAL_BALANCE - sum_value (filter is_buy trades)
            + sum_value (credited [] (sorted trades))
    /\ forall s, dmem s pf = holds s (rev (sorted trades)).
Proof.
  intros Hr. rewrite load_unfold.
  destruct (replay_readable (sorted trades) (update self [] INITIAL_BALANCE) [])
    as (pf & w & Hrun & Hw & Hpf).
  - rewrite Forall_forall in *. intros t Ht. apply Hr.
    eapply Permutation_in; [apply sorted_perm | exact Ht].
  - reflexivity.
  - exists pf, w. rewrite Hrun, update_update. simpl in Hw.
    repeat split.
    + rewrite Hw. rewrite (sum_value_perm _ _ is_buy (sorted_perm trades)).
      reflexivity.
    + intros s. rewrite Hpf, app_nil_r. reflexivity.
Qed.

Lemma load_corrupt trades c self :
  In c trades -> corrupt c = true ->
  load (Ok trades) self = (Ok tt, update self [] INITIAL_BALANCE).
Proof.
  intros Hin Hc. rewrite load_unfold.
  assert (Hin' : In c (sorted trades))
    by (eapply Permutation_in; [apply Permutation_sym, sorted_perm | exact Hin]).
  destruct (replay_corrupt _ _ Hin' Hc (update self [] INITIAL_BALANCE))
    as (e & self' & Hrun).
  destruct (replay_frame (sorted trades) (update self [] INITIAL_BALANCE))
    as (r & pf & w & Hfr).
  rewrite Hrun in Hfr |- *. inversion Hfr; subst. reflexivity.
Qed.

End ReplayFacts.

(** *** Balance conservation *)

(** C1, as stated, fails: a window holding only a SELL on a symbol that is not
    open leaves the balance at 50, not at 50 + 10. *)
Lemma replay_balance_unmatched_sell :
  ~ (wallet_balance (snd (load_portfolio_state 50 (Ok [sell_sol]) (init 50)))
     == 50 - sum_value (filter is_buy [sell_sol])
           + sum_value (filter is_sell [sell_sol])).
Proof. vm_compute. discriminate. Qed.

(** C1 (amended).  For every window whose records are all readable, the
    replayed cash balance equals the initial balance, minus price * quantity
    over all BUY records, plus price * quantity over the SELL records that
    find their symbol open when replayed in timestamp order (the latest
    earlier BUY or SELL record on the symbol is a BUY); a SELL on a symbol
    that is not open credits nothing.  When every SELL finds its symbol
    open, this is initial - sum(BUY) + sum(SELL). *)
Theorem replay_balance_conservation (INITIAL_BALANCE : Q)
    (trades : list item) (self : trader) :
  Forall (fun t => readable t = true) trades ->
  let self' := snd (load_portfolio_state INITIAL_BALANCE (Ok trades) self) in
  wallet_balance self'
    == INITIAL_BALANCE - sum_value (filter is_buy trades)
       + sum_value (credited [] (sorted trades))
  /\ (credited [] (sorted trades) = filter is_sell (sorted trades) ->
      wallet_balance self'
        == INITIAL_BALANCE - sum_value (filter is_buy trades)
           + sum_value (filter is_sell trades)).
Proof.
  intros Hr.
  destruct (load_readable INITIAL_BALANCE trades self Hr)
    as (pf & w & Hrun & Hw & _).
  rewrite Hrun. simpl. split; [exact Hw|].
  intros Hall. rewrite Hw, Hall.
  rewrite (sum_value_perm _ _ is_sell (sorted_perm trades)). reflexivity.
Qed.

Lemma replay_balance_conservation_witness :
  Forall (fun t => readable t = true) [sell_btc_same_time; buy_btc_1; sell_sol]
  /\ let self' :=
       snd (load_portfolio_state 50
              (Ok [sell_btc_same_time; buy_btc_1; sell_sol]) (init 50)) in
     wallet_balance self'
       == 50 - sum_value (filter is_buy [sell_btc_same_time; buy_btc_1; sell_sol])
          + sum_value
              (credited [] (sorted [sell_btc_same_time; buy_btc_1; sell_sol]))
     /\ (credited [] (sorted [sell_btc_same_time; buy_btc_1; sell_sol])
         = filter is_sell (sorted [sell_btc_same_time; buy_btc_1; sell_sol]) ->
         wallet_balance self'
           == 50 - sum_value
                     (filter is_buy [sell_btc_same_time; buy_btc_1; sell_sol])
              + sum_value
                  (filter is_sell [sell_btc_same_time; buy_btc_1; sell_sol])).
Proof.
  assert (H : Forall (fun t => readable t = true)
                [sell_btc_same_time; buy_btc_1; sell_sol])
    by (repeat constructor).
  split; [exact H|].
  exact (replay_balance_conservation 50 _ (init 50) H).
Defined.

(** *** A BUY on a symbol that is already open *)

(** C2, as stated, fails: the window of two BUY records on BTC is replayed
    without any failure; BTC ends up with the second record's lot, both
    records are debited, and the session that starts from this window
    returns its summary. *)
Lemma replay_double_buy_accepted :
  let window := Ok [buy_btc_1; buy_btc_2] in
  let r := load_portfolio_state 50 window (init 50) in
  ~ raises (fst r)
  /\ option_map pos_quantity (dget "BTC" (portfolio (snd r))) = Some 2
  /\ wallet_balance (snd r) == 50 - 1 * 10 - 2 * 3
  /\ ~ raises
        (fst (execute_trading_session 50 sample_uuid sample_now store_accepts
                no_rounding
                window true [] [] (fun _ _ => []) (fun _ _ => []) (init 50))).
Proof.
  split; [|split; [|split]].
  - intros [e H]. vm_compute in H. discriminate H.
  - reflexivity.
  - vm_compute. reflexivity.
  - intros [e H]. vm_compute in H. discriminate H.
Qed.

(** C2 (amended).  Replaying a BUY on a symbol that is already open does
    not fail: the record's lot replaces the open position, the cash balance
    is debited by price * quantity once more, and [load_portfolio_state]
    returns normally on every window. *)
Theorem replay_buy_on_open_symbol (INITIAL_BALANCE : Q) (t : item)
    (self : trader) (sym tid : string) (q p : Q) (held : position) :
  t_symbol t = Some sym -> t_action t = Some "BUY" ->
  t_quantity t = Num q -> t_price t = Num p -> t_tradeId t = Some tid ->
  dget sym (portfolio self) = Some held ->
  (fst (replay_trade t self) = Ok tt
   /\ dget sym (portfolio (snd (replay_trade t self)))
      = Some {| pos_quantity := q; pos_entry_price := p;
                pos_entry_time := t_timestamp t; pos_trade_id := tid;
                pos_market_type := match t_marketType t with
                                   | Some m => m
                                   | None => "unknown"
                                   end |}
   /\ wallet_balance (snd (replay_trade t self)) = wallet_balance self - p * q)
  /\ forall scan self0,
       fst (load_portfolio_state INITIAL_BALANCE scan self0) = Ok tt.
Proof.
  intros Hs Ha Hq Hp Hid _.
  rewrite (replay_trade_buy t self sym q p tid) by assumption.
  simpl. rewrite dget_dset_eq. repeat split.
  apply load_never_raises.
Qed.

Lemma replay_buy_on_open_symbol_witness :
  let self :=
    snd (load_portfolio_state 50 (Ok [buy_btc_1]) (init 50)) in
  fst (replay_trade buy_btc_2 self) = Ok tt
  /\ option_map pos_quantity
       (dget "BTC" (portfolio (snd (replay_trade buy_btc_2 self)))) = Some 2
  /\ wallet_balance (snd (replay_trade buy_btc_2 self))
     = wallet_balance self - 3 * 2.
Proof.
  intros self.
  destruct (replay_buy_on_open_symbol 50 buy_btc_2 self "BTC" "t-3" 2 3
              {| pos_quantity := 1; pos_entry_price := 10;
                 pos_entry_time := "2024-05-01T10:00:00";
                 pos_trade_id := "t-2"; pos_market_type := "crypto" |}
              eq_refl eq_refl eq_refl eq_refl eq_refl eq_refl)
    as [(H1 & H2 & H3) _].
  split; [exact H1|]. split; [|exact H3].
  rewrite H2. reflexivity.
Defined.

(** *** A SELL on a symbol that is not open *)

(** C3, as stated, fails: the window holding only a SELL on SOL is replayed
    without any failure. *)
Lemma replay_unmatched_sell_accepted :
  ~ raises (fst (load_portfolio_state 50 (Ok [sell_sol]) (init 50))).
Proof. intros [e H]. vm_compute in H. discriminate H. Qed.

(** C3 (amended).  Replaying a SELL on a symbol with no open position does
    not fail: the record is ignored, the portfolio and the cash balance are
    left as they are; a window holding only such a SELL yields the initial
    balance and no positions. *)
Theorem replay_sell_without_position (INITIAL_BALANCE : Q) (t : item)
    (self : trader) (sym : string) (q p : Q) :
  t_symbol t = Some sym -> t_action t = Some "SELL" ->
  t_quantity t = Num q -> t_price t = Num p ->
  dmem sym (portfolio self) = false ->
  replay_trade t self = (Ok tt, self)
  /\ load_portfolio_state INITIAL_BALANCE (Ok [t]) self
     = (Ok tt, update self [] INITIAL_BALANCE).
Proof.
  intros Hs Ha Hq Hp Hm. split.
  - apply (replay_trade_skip t self sym "SELL" q p); auto.
  - rewrite load_unfold. simpl sorted. simpl for_each. unfold bind.
    rewrite (replay_trade_skip t _ sym "SELL" q p); auto.
Qed.

Lemma replay_sell_without_position_witness :
  replay_trade sell_sol (init 50) = (Ok tt, init 50)
  /\ load_portfolio_state 50 (Ok [sell_sol]) (init 50)
     = (Ok tt, update (init 50) [] 50).
Proof.
  exact (replay_sell_without_position 50 sell_sol (init 50) "SOL" 1 10
           eq_refl eq_refl eq_refl eq_refl eq_refl).
Defined.

(** *** A record with a missing or unparseable numeric field *)

(** C5, as stated, fails: with an unparseable quantity in the second record
    the replay does not yield what the remaining record alone yields; the
    BTC position of the first record is lost. *)
Lemma replay_corrupt_record_not_isolated :
  let window := [buy_btc_1; buy_eth_unparseable] in
  snd (load_portfolio_state 50 (Ok window) (init 50))
  <> snd (load_portfolio_state 50
            (Ok (filter (fun t => negb (corrupt t)) window)) (init 50)).
Proof. intros window H. vm_compute in H. discriminate H. Qed.

(** C5 (amended).  A record with a missing or unparseable quantity or price
    anywhere in the window makes the whole replay fall back: whatever the
    other records are, [load_portfolio_state] returns normally with the
    initial balance and no positions. *)
Theorem replay_corrupt_record_falls_back (INITIAL_BALANCE : Q)
    (trades : list item) (c : item) (self : trader) :
  In c trades -> corrupt c = true ->
  load_portfolio_state INITIAL_BALANCE (Ok trades) self
  = (Ok tt, update self [] INITIAL_BALANCE).
Proof. apply load_corrupt. Qed.

Lemma replay_corrupt_record_falls_back_witness :
  In buy_eth_unparseable [buy_btc_1; buy_eth_unparseable]
  /\ corrupt buy_eth_unparseable = true
  /\ load_portfolio_state 50 (Ok [buy_btc_1; buy_eth_unparseable]) (init 50)
     = (Ok tt, update (init 50) [] 50).
Proof.
  assert (Hin : In buy_eth_unparseable [buy_btc_1; buy_eth_unparseable])
    by (right; left; reflexivity).
  split; [exact Hin|]. split; [reflexivity|].
  exact (replay_corrupt_record_falls_back 50 _ _ (init 50) Hin eq_refl).
Defined.

(** *** Order of the replay *)

(** C6, as stated, fails: a BUY and a SELL on BTC with the same timestamp
    are replayed in their input order, so the two input orders of the same
    records give different portfolios. *)
Lemma replay_depends_on_input_order :
  Permutation [buy_btc_1; sell_btc_same_time] [sell_btc_same_time; buy_btc_1]
  /\ snd (load_portfolio_state 50 (Ok [buy_btc_1; sell_btc_same_time]) (init 50))
     <> snd (load_portfolio_state 50 (Ok [sell_btc_same_time; buy_btc_1]) (init 50)).
Proof.
  split; [apply perm_swap|].
  intros H. vm_compute in H. discriminate H.
Qed.

(** C6 (amended).  The replay processes the records in ascending order of
    timestamp, the sort being on the timestamp only and stable: the records
    of one timestamp keep their input order, there is no tie-break on
    tradeId.  So two input orders of the same records give the same result
    (same cash balance, same positions) whenever they list the records of
    each timestamp in the same order, and in particular whenever the
    timestamps are pairwise distinct. *)
Theorem replay_deterministic (INITIAL_BALANCE : Q) (l1 l2 : list item)
    (self : trader) :
  Permutation l1 l2 ->
  NoDup (map t_timestamp l1) \/ (forall ts, stamped ts l1 = stamped ts l2) ->
  (StronglySorted not_after (sorted l1)
   /\ forall ts, stamped ts (sorted l1) = stamped ts l1)
  /\ sorted l1 = sorted l2
  /\ load_portfolio_state INITIAL_BALANCE (Ok l1) self
     = load_portfolio_state INITIAL_BALANCE (Ok l2) self.
Proof.
  intros Hp Hsame.
  assert (E : sorted l1 = sorted l2).
  { destruct Hsame as [Hnd|Hsame].
    - exact (sorted_input_order l1 l2 Hp Hnd).
    - exact (sorted_same_ties l1 l2 Hp Hsame). }
  split; [|split].
  - split; [apply sorted_ascending|intros ts; apply sorted_stable].
  - exact E.
  - rewrite !load_unfold. now rewrite E.
Qed.

Lemma replay_deterministic_witness :
  let l1 := [buy_btc_1; sell_btc_same_time; buy_eth] in
  let l2 := [buy_eth; buy_btc_1; sell_btc_same_time] in
  t_timestamp buy_btc_1 = t_timestamp sell_btc_same_time
  /\ stamped (t_timestamp buy_btc_1) (sorted l2)
     = [buy_btc_1; sell_btc_same_time]
  /\ load_portfolio_state 50 (Ok l1) (init 50)
     = load_portfolio_state 50 (Ok l2) (init 50).
Proof.
  intros l1 l2.
  assert (Hp : Permutation l1 l2).
  { subst l1 l2.
    change (Permutation ([buy_btc_1; sell_btc_same_time] ++ [buy_eth])
              ([buy_eth] ++ [buy_btc_1; sell_btc_same_time])).
    apply Permutation_app_comm. }
  assert (Hsame : forall ts, stamped ts l1 = stamped ts l2).
  { intros ts. subst l1 l2. unfold stamped. cbn [filter].
    change (t_timestamp buy_btc_1) with "2024-05-01T10:00:00".
    change (t_timestamp sell_btc_same_time) with "2024-05-01T10:00:00".
    change (t_timestamp buy_eth) with "2024-05-03T10:00:00".
    destruct (String.eqb_spec "2024-05-01T10:00:00" ts) as [E1|H1];
      destruct (String.eqb_spec "2024-05-03T10:00:00" ts) as [E2|H2];
      try reflexivity.
    rewrite <- E1 in E2. discriminate E2. }
  destruct (replay_deterministic 50 l1 l2 (init 50) Hp (or_intror Hsame))
    as ([_ Hstable] & Hsorted & Hload).
  split; [reflexivity|]. split; [|exact Hload].
  rewrite <- Hsorted, Hstable. reflexivity.
Defined.

(** ** Trade execution *)

Section TradingFacts.
Variable uuid_of : nat -> string.
Variable now_of : nat -> string.
Variable put_item_ok : item -> bool.
Variable fl : Q -> Q.

Local Abbreviation execute := (execute_trade uuid_of now_of put_item_ok).
Local Abbreviation close := (close_position uuid_of now_of put_item_ok).
Local Abbreviation check := (check_exit_conditions uuid_of now_of put_item_ok fl).

Lemma execute_trade_eq p self :
  execute p self =
    match p_signal p with
    | BUY =>
        if Qeq_bool (p_current_price p) 0 then (Ok false, self)
        else
          let trade := bought_item uuid_of now_of p self in
          (Ok (put_item_ok trade),
           after_trade self
             (dset (p_symbol p) (bought_position uuid_of now_of p self)
                (portfolio self))
             (wallet_balance self - position_size_of p self)
             trade 3 (put_item_ok trade))
    | SELL =>
        match dget (p_symbol p) (portfolio self) with
        | Some position =>
            if Qeq_bool (pos_entry_price position) 0 then (Ok false, self)
            else
              let trade :=
                sold_item uuid_of now_of (p_symbol p) (p_market_type p)
                  (p_current_price p) None position self in
              (Ok (put_item_ok trade),
               after_trade self (ddel (p_symbol p) (portfolio self))
                 (wallet_balance self
                  + p_current_price p * pos_quantity position)
                 trade 2 (put_item_ok trade))
        | None => (Ok false, self)
        end
    | HOLD => (Ok false, self)
    end.
Proof.
  unfold execute_trade. run.
  destruct (p_signal p); simpl.
  - destruct (Qeq_bool (p_current_price p) 0); simpl; trivial.
    fold (position_size_of p self).
    fold (bought_item uuid_of now_of p self).
    destruct (put_item_ok _); reflexivity.
  - destruct (dget (p_symbol p) (portfolio self)) as [position|]; trivial.
    destruct (Qeq_bool (pos_entry_price position) 0); simpl; trivial.
    fold (sold_item uuid_of now_of (p_symbol p) (p_market_type p)
            (p_current_price p) None position self).
    destruct (put_item_ok _); reflexivity.
  - reflexivity.
Qed.

Lemma close_position_eq symbol price reason self :
  close symbol price reason self =
    match dget symbol (portfolio self) with
    | None => (Ok tt, self)
    | Some position =>
        if Qeq_bool (pos_entry_price position) 0 then (Ok tt, self)
        else
          let trade :=
            sold_item uuid_of now_of symbol (pos_market_type position) price
              (Some reason) position self in
          (Ok tt,
           after_trade self (ddel symbol (portfolio self))
             (wallet_balance self + price * pos_quantity position)
             trade 2 (put_item_ok trade))
    end.
Proof.
  unfold close_position. run.
  destruct (dget symbol (portfolio self)) as [position|]; trivial.
  destruct (Qeq_bool (pos_entry_price position) 0); simpl; trivial.
  fold (sold_item uuid_of now_of symbol (pos_market_type position) price
          (Some reason) position self).
  destruct (put_item_ok _); reflexivity.
Qed.

Lemma Qeq_bool_false (x : Q) : ~ x == 0 -> Qeq_bool x 0 = false.
Proof.
  intros H. destruct (Qeq_bool x 0) eqn:E; trivial.
  apply Qeq_bool_eq in E. contradiction.
Qed.

Lemma should_trade_true self p :
  should_trade self p = true ->
  p_signal p = BUY /\ min_confidence <= p_confidence p
  /\ 1 <= wallet_balance self * max_position_size
  /\ dget (p_symbol p) (portfolio self) = None.
Proof.
  unfold should_trade, Qlt_bool, dmem.
  destruct (Qle_bool min_confidence (p_confidence p)) eqn:Ec; simpl;
    [|discriminate].
  destruct (p_signal p); try discriminate.
  destruct (Qle_bool 1 _) eqn:Ev; simpl; [|discriminate].
  destruct (dget _ _); [discriminate|].
  intros _. apply Qle_bool_iff in Ec, Ev. auto.
Qed.

End TradingFacts.

Lemma added_after_trade self pf w t n b :
  added self (after_trade self pf w t n b) = if b then [t] else [].
Proof.
  unfold added. simpl. destruct b.
  - rewrite skipn_app, skipn_all, Nat.sub_diag. reflexivity.
  - apply skipn_all.
Qed.


(** *** Entry sizing *)

(** C8.  A BUY that passes [should_trade] (confidence at least
    [min_confidence], at least 1 of wallet * [max_position_size], symbol not
    held) and is executed at a non-zero price opens a position whose
    quantity is wallet * [max_position_size] * confidence divided by the
    price, hence whose value is that amount; the wallet is debited by that
    amount, which is also the [value] of the item written.  With a wallet of
    50 and a BUY on BTC at 45000 with confidence 0.8: value 8, quantity
    8/45000 (0.0001778 to seven places), wallet 42. *)
Theorem entry_sizing (uuid_of now_of : nat -> string)
    (put_item_ok : item -> bool) :
  (forall (p : prediction) (self : trader),
     should_trade self p = true -> ~ p_current_price p == 0 ->
     let size := wallet_balance self * max_position_size * p_confidence p in
     let self' := snd (execute_trade uuid_of now_of put_item_ok p self) in
     (exists pos,
        dget (p_symbol p) (portfolio self') = Some pos
        /\ pos_quantity pos = size / p_current_price p
        /\ pos_entry_price pos = p_current_price p
        /\ pos_quantity pos * pos_entry_price pos == size)
     /\ wallet_balance self' = wallet_balance self - size
     /\ (forall t, In t (added self self') ->
         t = bought_item uuid_of now_of p self /\ t_value t = Num size))
  /\ (let self' :=
        snd (execute_trade uuid_of now_of put_item_ok btc_buy (init 50)) in
      exists pos,
        dget "BTC" (portfolio self') = Some pos
        /\ pos_quantity pos * pos_entry_price pos == 8
        /\ pos_quantity pos == 8 / 45000
        /\ 0.00017775 <= pos_quantity pos < 0.00017785
        /\ wallet_balance self' == 42).
Proof.
  split.
  - intros p self Hst Hprice size self'.
    apply should_trade_true in Hst. destruct Hst as (Hsig & _ & _ & _).
    subst self'. rewrite execute_trade_eq, Hsig, (Qeq_bool_false _ Hprice).
    cbv zeta. cbn [snd]. rewrite added_after_trade.
    cbn [after_trade portfolio wallet_balance]. rewrite dget_dset_eq.
    split; [|split].
    + eexists. repeat split. simpl. unfold position_size_of. fold size.
      field. exact Hprice.
    + reflexivity.
    + intros t Ht. destruct (put_item_ok _); [|contradiction].
      destruct Ht as [<-|[]]. split; reflexivity.
  - rewrite execute_trade_eq. simpl. eexists. split; [reflexivity|].
    simpl. unfold position_size_of. simpl.
    repeat split; vm_compute; congruence.
Qed.

Lemma entry_sizing_witness :
  should_trade (init 50) btc_buy = true /\ ~ p_current_price btc_buy == 0
  /\ wallet_balance
       (snd (execute_trade sample_uuid sample_now store_accepts btc_buy
               (init 50)))
     = 50 - 50 * max_position_size * 0.8.
Proof.
  assert (H1 : should_trade (init 50) btc_buy = true) by reflexivity.
  assert (H2 : ~ p_current_price btc_buy == 0)
    by (intros H; vm_compute in H; discriminate H).
  split; [exact H1|]. split; [exact H2|].
  exact (proj1 (proj2 (proj1 (entry_sizing sample_uuid sample_now store_accepts)
                         btc_buy (init 50) H1 H2))).
Defined.

(** *** A trade whose item cannot be stored *)

(** C4, as stated, fails: when the trading table rejects the item of the
    BUY on BTC, [execute_trade] returns [False] but BTC stays in the
    portfolio and the wallet stays debited. *)
Lemma failed_put_keeps_mutation :
  let self := init 50 in
  let self' :=
    snd (execute_trade sample_uuid sample_now store_rejects btc_buy self) in
  ~ (portfolio self' = portfolio self
     /\ wallet_balance self' == wallet_balance self).
Proof.
  intros self self' [H _]. vm_compute in H. discriminate H.
Qed.

(** C4 (amended).  When the trading table rejects the item of one trade,
    whatever it does with the others, the error is caught: [execute_trade]
    returns [False], [close_position] returns, no item is added and the
    loop goes on with the next prediction or the next position to close;
    the in-memory change is kept, not undone: after a BUY the new position
    is in the portfolio and the wallet is debited, after a SELL or a close
    the position is gone and the wallet is credited. *)
Theorem failed_put_is_not_rolled_back (uuid_of now_of : nat -> string)
    (put_item_ok : item -> bool) (self : trader) :
  (forall p,
     p_signal p = BUY -> ~ p_current_price p == 0 ->
     put_item_ok (bought_item uuid_of now_of p self) = false ->
     let size := wallet_balance self * max_position_size * p_confidence p in
     let r := execute_trade uuid_of now_of put_item_ok p self in
     fst r = Ok false
     /\ dget (p_symbol p) (portfolio (snd r))
        = Some (bought_position uuid_of now_of p self)
     /\ wallet_balance (snd r) = wallet_balance self - size
     /\ trading_table (snd r) = trading_table self
     /\ forall rest n,
          should_trade self p = true ->
          entry_phase uuid_of now_of put_item_ok (p :: rest) n self
          = entry_phase uuid_of now_of put_item_ok rest n (snd r))
  /\ (forall p position,
        p_signal p = SELL ->
        dget (p_symbol p) (portfolio self) = Some position ->
        ~ pos_entry_price position == 0 ->
        put_item_ok
          (sold_item uuid_of now_of (p_symbol p) (p_market_type p)
             (p_current_price p) None position self) = false ->
        let r := execute_trade uuid_of now_of put_item_ok p self in
        fst r = Ok false
        /\ dget (p_symbol p) (portfolio (snd r)) = None
        /\ wallet_balance (snd r)
           = wallet_balance self + p_current_price p * pos_quantity position
        /\ trading_table (snd r) = trading_table self
        /\ forall rest n,
             min_confidence <= p_confidence p ->
             exit_phase uuid_of now_of put_item_ok (p :: rest) n self
             = exit_phase uuid_of now_of put_item_ok rest n (snd r))
  /\ (forall symbol price reason position,
        dget symbol (portfolio self) = Some position ->
        ~ pos_entry_price position == 0 ->
        put_item_ok
          (sold_item uuid_of now_of symbol (pos_market_type position) price
             (Some reason) position self) = false ->
        let close := fun '(symbol, price, reason) =>
          close_position uuid_of now_of put_item_ok symbol price reason in
        let r := close (symbol, price, reason) self in
        fst r = Ok tt
        /\ dget symbol (portfolio (snd r)) = None
        /\ wallet_balance (snd r)
           = wallet_balance self + price * pos_quantity position
        /\ trading_table (snd r) = trading_table self
        /\ forall rest,
             for_each ((symbol, price, reason) :: rest) close self
             = for_each rest close (snd r)).
Proof.
  split; [|split].
  - intros p Hsig Hprice Hput size r. subst r.
    assert (E : execute_trade uuid_of now_of put_item_ok p self
                = (Ok false,
                   after_trade self
                     (dset (p_symbol p) (bought_position uuid_of now_of p self)
                        (portfolio self))
                     (wallet_balance self - position_size_of p self)
                     (bought_item uuid_of now_of p self) 3 false)).
    { rewrite execute_trade_eq, Hsig, (Qeq_bool_false _ Hprice).
      cbv zeta. now rewrite Hput. }
    rewrite E. simpl. rewrite dget_dset_eq. repeat split.
    intros rest n Hst. unfold bind, gets. rewrite Hst, E. reflexivity.
  - intros p position Hsig Hpos Hentry Hput r. subst r.
    assert (E : execute_trade uuid_of now_of put_item_ok p self
                = (Ok false,
                   after_trade self (ddel (p_symbol p) (portfolio self))
                     (wallet_balance self
                      + p_current_price p * pos_quantity position)
                     (sold_item uuid_of now_of (p_symbol p) (p_market_type p)
                        (p_current_price p) None position self) 2 false)).
    { rewrite execute_trade_eq, Hsig, Hpos, (Qeq_bool_false _ Hentry).
      cbv zeta. now rewrite Hput. }
    rewrite E. simpl. rewrite dget_ddel_eq. repeat split.
    intros rest n Hconf. unfold bind, gets, dmem, Qge_bool.
    apply Qle_bool_iff in Hconf. rewrite Hsig, Hpos, Hconf.
    cbn [andb]. rewrite E. reflexivity.
  - intros symbol price reason position Hpos Hentry Hput close r.
    subst r close. cbv beta iota.
    assert (E : close_position uuid_of now_of put_item_ok symbol price reason
                  self
                = (Ok tt,
                   after_trade self (ddel symbol (portfolio self))
                     (wallet_balance self + price * pos_quantity position)
                     (sold_item uuid_of now_of symbol
                        (pos_market_type position) price (Some reason)
                        position self) 2 false)).
    { rewrite close_position_eq, Hpos, (Qeq_bool_false _ Hentry).
      cbv zeta. now rewrite Hput. }
    rewrite E. simpl. rewrite dget_ddel_eq. repeat split.
    intros rest. unfold bind. rewrite E. reflexivity.
Qed.

Lemma failed_put_is_not_rolled_back_witness :
  let store := store_loses "BTC" in
  let r := execute_trade sample_uuid sample_now store btc_buy (init 50) in
  let session :=
    entry_phase sample_uuid sample_now store [btc_buy; eth_buy] 0 (init 50) in
  store (bought_item sample_uuid sample_now btc_buy (init 50)) = false
  /\ fst r = Ok false
  /\ dget "BTC" (portfolio (snd r))
     = Some (bought_position sample_uuid sample_now btc_buy (init 50))
  /\ wallet_balance (snd r) = 50 - 50 * max_position_size * 0.8
  /\ trading_table (snd r) = []
  /\ session
     = entry_phase sample_uuid sample_now store [eth_buy] 0 (snd r)
  /\ fst session = Ok 1%nat
  /\ map symbol_of (trading_table (snd session)) = ["ETH"].
Proof.
  intros store r session.
  assert (Hput : store (bought_item sample_uuid sample_now btc_buy (init 50))
                 = false) by reflexivity.
  destruct (proj1 (failed_put_is_not_rolled_back sample_uuid sample_now
                     store (init 50))
              btc_buy eq_refl
              ltac:(intros H; vm_compute in H; discriminate H) Hput)
    as (H1 & H2 & H3 & H4 & H5).
  split; [exact Hput|]. split; [exact H1|]. split; [exact H2|].
  split; [exact H3|]. split; [exact H4|].
  split; [exact (H5 [eth_buy] 0%nat eq_refl)|].
  split; reflexivity.
Defined.

(** ** The risk monitor *)

Section RiskFacts.
Variable uuid_of : nat -> string.
Variable now_of : nat -> string.
Variable put_item_ok : item -> bool.
Variable fl : Q -> Q.

Local Abbreviation close := (close_position uuid_of now_of put_item_ok).
Local Abbreviation check := (check_exit_conditions uuid_of now_of put_item_ok fl).

(** The scanning loop reads the positions and the quotes only. *)
Lemma exit_scan_pure all_data items : forall acc self self0,
  exit_scan fl all_data items acc self
  = (fst (exit_scan fl all_data items acc self0), self).
Proof.
  induction items as [|[k pos] r IH]; intros acc self self0; simpl.
  - reflexivity.
  - destruct (dget k all_data) as [data|]; [|apply IH].
    run. destruct (Qeq_bool (pos_entry_price pos) 0); [reflexivity|].
    destruct (Qle_bool _ (- fl stop_loss_pct)); [apply IH|].
    destruct (Qge_bool _ (fl take_profit_pct)); apply IH.
Qed.


(** What holds of every entry the scan can add holds of its output. *)
Lemma exit_scan_Forall (P : string * Q * string -> Prop) all_data items :
  (forall k pos data reason,
     In (k, pos) items -> dget k all_data = Some data ->
     ~ pos_entry_price pos == 0 ->
     P (k, m_price data, reason)) ->
  forall acc self l self',
    Forall P acc ->
    exit_scan fl all_data items acc self = (Ok l, self') -> Forall P l.
Proof.
  induction items as [|[k pos] r IH]; intros HP acc self l self' Hacc; simpl.
  - intros [= <- _]. assumption.
  - assert (HP' : forall k pos data reason,
               In (k, pos) r -> dget k all_data = Some data ->
               ~ pos_entry_price pos == 0 ->
               P (k, m_price data, reason))
      by (intros; eapply HP; eauto; now right).
    destruct (dget k all_data) as [data|] eqn:Ek; [|now apply IH].
    run. destruct (Qeq_bool (pos_entry_price pos) 0) eqn:E0; [discriminate|].
    assert (Hnew : forall reason, Forall P (acc ++ [(k, m_price data, reason)])).
    { intros reason. apply Forall_app. split; [assumption|].
      constructor; [|constructor].
      eapply HP; eauto; [now left|]. now apply Qeq_bool_neq. }
    destruct (Qle_bool _ (- fl stop_loss_pct)); [now apply IH|].
    destruct (Qge_bool _ (fl take_profit_pct)); now apply IH.
Qed.



Lemma close_position_ok k price reason self :
  fst (close k price reason self) = Ok tt.
Proof.
  rewrite close_position_eq.
  destruct (dget k (portfolio self)) as [position|]; [|reflexivity].
  destruct (Qeq_bool (pos_entry_price position) 0); reflexivity.
Qed.

Local Abbreviation close_all :=
  (fun l => for_each l
     (fun '(symbol, price, reason) => close symbol price reason)).



Lemma check_exit_conditions_eq crypto_data forex_data self :
  check crypto_data forex_data self =
    match fst (exit_scan fl (by_symbol (crypto_data ++ forex_data))
                 (portfolio self) [] self) with
    | Ok l => close_all l self
    | Raise e => (Raise e, self)
    end.
Proof.
  unfold check_exit_conditions. run.
  rewrite (exit_scan_pure _ _ _ self self).
  destruct (fst _); reflexivity.
Qed.


End RiskFacts.

(** ** Growth of the trading table *)

Lemma extends_refl P self : extends P self self.
Proof. exists []. now rewrite app_nil_r. Qed.

Lemma extends_trans P self1 self2 self3 :
  extends P self1 self2 -> extends P self2 self3 -> extends P self1 self3.
Proof.
  intros (l1 & E1 & H1) (l2 & E2 & H2). exists (l1 ++ l2)%list.
  rewrite E2, E1, app_assoc. split; [reflexivity|].
  apply Forall_app. auto.
Qed.

Lemma extends_added P self self' :
  extends P self self' -> Forall P (added self self').
Proof.
  intros (l & E & H). unfold added.
  now rewrite E, skipn_app, skipn_all, Nat.sub_diag.
Qed.

Lemma extends_after_trade (P : item -> Prop) self pf w t n b :
  (b = true -> P t) -> extends P self (after_trade self pf w t n b).
Proof.
  intros H. destruct b.
  - exists [t]. split; [reflexivity|]. constructor; auto.
  - exists []. simpl. now rewrite app_nil_r.
Qed.

Lemma In_dget {V : Type} (k : string) (v : V) (d : dict V) :
  In (k, v) d -> dget k d <> None.
Proof.
  induction d as [|[k0 v0] r IH]; simpl; [contradiction|].
  intros [[= -> ->]|Hin].
  - now rewrite String.eqb_refl.
  - destruct (String.eqb k k0); [discriminate|auto].
Qed.

Section TableFacts.
Variable uuid_of : nat -> string.
Variable now_of : nat -> string.
Variable put_item_ok : item -> bool.
Variable fl : Q -> Q.

Local Abbreviation execute := (execute_trade uuid_of now_of put_item_ok).
Local Abbreviation close := (close_position uuid_of now_of put_item_ok).
Local Abbreviation check := (check_exit_conditions uuid_of now_of put_item_ok fl).

Lemma close_position_extends (P : item -> Prop) k price reason self :
  (forall position,
     dget k (portfolio self) = Some position ->
     ~ pos_entry_price position == 0 ->
     P (sold_item uuid_of now_of k (pos_market_type position) price
          (Some reason) position self)) ->
  extends P self (snd (close k price reason self)).
Proof.
  intros HP. rewrite close_position_eq.
  destruct (dget k (portfolio self)) as [position|]; [|apply extends_refl].
  destruct (Qeq_bool (pos_entry_price position) 0) eqn:E0;
    [apply extends_refl|].
  apply extends_after_trade. intros _. apply HP; trivial.
  now apply Qeq_bool_neq.
Qed.

Lemma execute_trade_extends (P : item -> Prop) p self :
  (p_signal p = BUY -> ~ p_current_price p == 0 ->
   P (bought_item uuid_of now_of p self)) ->
  (forall position,
     p_signal p = SELL ->
     dget (p_symbol p) (portfolio self) = Some position ->
     ~ pos_entry_price position == 0 ->
     P (sold_item uuid_of now_of (p_symbol p) (p_market_type p)
          (p_current_price p) None position self)) ->
  extends P self (snd (execute p self)).
Proof.
  intros HB HS. rewrite execute_trade_eq.
  destruct (p_signal p).
  - destruct (Qeq_bool (p_current_price p) 0) eqn:E0; [apply extends_refl|].
    apply extends_after_trade. intros _. apply HB; trivial.
    now apply Qeq_bool_neq.
  - destruct (dget _ _) as [position|]; [|apply extends_refl].
    destruct (Qeq_bool (pos_entry_price position) 0) eqn:E0;
      [apply extends_refl|].
    apply extends_after_trade. intros _. apply HS; trivial.
    now apply Qeq_bool_neq.
  - apply extends_refl.
Qed.

(** Closing the symbols of [l] writes items on those symbols only. *)
Lemma close_all_extends s l : forall self,
  Forall (fun c => closing_symbol c <> s) l ->
  extends (fun t => symbol_of t <> s) self
    (snd (for_each l
            (fun '(symbol, price, reason) => close symbol price reason) self)).
Proof.
  induction l as [|[[k price] reason] r IH]; intros self Hl; simpl.
  - apply extends_refl.
  - inversion Hl as [|? ? Hk Hr]; subst. unfold bind.
    pose proof (close_position_ok uuid_of now_of put_item_ok k price reason self)
      as Hok.
    pose proof (close_position_extends (fun t => symbol_of t <> s)
                  k price reason self (fun _ _ _ => Hk)) as Hext.
    destruct (close k price reason self) as [res self1].
    simpl in Hok, Hext. subst res.
    eapply extends_trans; [exact Hext | apply IH, Hr].
Qed.

End TableFacts.

(** *** Positions without a quote *)




(** ** Solvency *)

Lemma In_dset {V : Type} (k k' : string) (v v' : V) (d : dict V) :
  In (k', v') (dset k v d) -> (k', v') = (k, v) \/ In (k', v') d.
Proof.
  induction d as [|[k0 v0] r IH]; simpl.
  - intros [H|[]]; auto.
  - destruct (String.eqb k k0); simpl; intuition.
Qed.

Lemma In_ddel {V : Type} (k k' : string) (v' : V) (d : dict V) :
  In (k', v') (ddel k d) -> In (k', v') d.
Proof.
  induction d as [|[k0 v0] r IH]; simpl; [trivial|].
  destruct (String.eqb k k0); simpl; intuition.
Qed.

Lemma by_symbol_In (data : list quote) k q :
  dget k (by_symbol data) = Some q -> In q data.
Proof.
  unfold by_symbol.
  assert (H : forall (d : dict quote),
             dget k (fold_left (fun d item => dset (m_symbol item) item d)
                       data d) = Some q ->
             In q data \/ dget k d = Some q).
  { induction data as [|x r IH]; intros d; simpl; [auto|].
    intros Hget. destruct (IH _ Hget) as [Hin|Hd]; [auto|].
    destruct (String.eqb_spec (m_symbol x) k) as [<-|Hne].
    - rewrite dget_dset_eq in Hd. injection Hd as ->. auto.
    - rewrite dget_dset_neq in Hd by assumption. auto. }
  intros Hget. destruct (H [] Hget) as [Hin|Hd]; [assumption|discriminate].
Qed.

Section SolvencyFacts.
Variable uuid_of : nat -> string.
Variable now_of : nat -> string.
Variable put_item_ok : item -> bool.
Variable fl : Q -> Q.

Local Abbreviation execute := (execute_trade uuid_of now_of put_item_ok).
Local Abbreviation close := (close_position uuid_of now_of put_item_ok).

Lemma sound_step_refl self : solvent self -> sound_step self self.
Proof. intros H. split; [assumption|apply extends_refl]. Qed.

Lemma sound_step_trans self1 self2 self3 :
  sound_step self1 self2 -> sound_step self2 self3 -> sound_step self1 self3.
Proof.
  intros [_ E1] [S2 E2]. split; [assumption|].
  eapply extends_trans; eassumption.
Qed.

Lemma sound_after_trade self pf w t n :
  0 <= w ->
  (forall k pos, In (k, pos) pf -> 0 <= pos_quantity pos) ->
  t_walletBalanceAfter t = Num w ->
  forall b, sound_step self (after_trade self pf w t n b).
Proof.
  intros Hw Hpf Ht b. split; [split; assumption|].
  apply extends_after_trade. intros _.
  unfold balance_after_nonneg. now rewrite Ht.
Qed.

Lemma close_position_sound k price reason self :
  solvent self -> 0 <= price ->
  sound_step self (snd (close k price reason self)).
Proof.
  intros [Hw Hq] Hprice. rewrite close_position_eq.
  destruct (dget k (portfolio self)) as [position|] eqn:Ek;
    [|now apply sound_step_refl].
  destruct (Qeq_bool (pos_entry_price position) 0);
    [now apply sound_step_refl|].
  apply sound_after_trade; [| |reflexivity].
  - pose proof (Hq k position (dget_In _ _ _ Ek)). nra.
  - intros k' p' Hin. apply In_ddel in Hin. eauto.
Qed.

Lemma execute_trade_sound p self :
  solvent self -> p_confidence p <= 1 -> 0 <= p_current_price p ->
  (p_signal p = BUY -> 0 <= p_confidence p) ->
  sound_step self (snd (execute p self)).
Proof.
  intros [Hw Hq] Hc Hprice Hbuy. rewrite execute_trade_eq.
  destruct (p_signal p).
  - destruct (Qeq_bool (p_current_price p) 0) eqn:E0;
      [now apply sound_step_refl|].
    apply Qeq_bool_neq in E0. specialize (Hbuy eq_refl).
    assert (Hsize : 0 <= position_size_of p self)
      by (unfold position_size_of, max_position_size; nra).
    apply sound_after_trade; [| |reflexivity].
    + unfold position_size_of, max_position_size. nra.
    + intros k' p' Hin. apply In_dset in Hin. destruct Hin as [[= _ ->]|Hin].
      * simpl. apply Qle_shift_div_l; [|lra].
        destruct (Qle_lt_or_eq _ _ Hprice) as [Hlt|Heq]; [assumption|].
        exfalso. apply E0. symmetry. exact Heq.
      * eauto.
  - destruct (dget _ _) as [position|] eqn:Ek; [|now apply sound_step_refl].
    destruct (Qeq_bool (pos_entry_price position) 0);
      [now apply sound_step_refl|].
    apply sound_after_trade; [| |reflexivity].
    + pose proof (Hq _ position (dget_In _ _ _ Ek)). nra.
    + intros k' p' Hin. apply In_ddel in Hin. eauto.
  - now apply sound_step_refl.
Qed.

Lemma execute_trade_ok p self : exists b, fst (execute p self) = Ok b.
Proof.
  rewrite execute_trade_eq. destruct (p_signal p).
  - destruct (Qeq_bool _ 0); simpl; eauto.
  - destruct (dget _ _) as [position|]; simpl; eauto.
    destruct (Qeq_bool _ 0); simpl; eauto.
  - simpl; eauto.
Qed.

Lemma exit_phase_sound predictions : forall n self,
  solvent self ->
  (forall p, In p predictions ->
     p_confidence p <= 1 /\ 0 <= p_current_price p) ->
  sound_step self
    (snd (exit_phase uuid_of now_of put_item_ok predictions n self)).
Proof.
  induction predictions as [|p r IH]; intros n self Hs Hp; simpl.
  - now apply sound_step_refl.
  - assert (Hr : forall p, In p r ->
                  p_confidence p <= 1 /\ 0 <= p_current_price p)
      by (intros; apply Hp; now right).
    unfold bind, gets.
    destruct (p_signal p) eqn:Esig; try (now apply IH).
    destruct (dmem _ _ && _); [|now apply IH].
    destruct (Hp p (or_introl eq_refl)) as [Hc Hprice].
    pose proof (execute_trade_sound p self Hs Hc Hprice) as Hstep.
    destruct (execute_trade_ok p self) as [b Hb].
    destruct (execute p self) as [res self1]. simpl in Hb, Hstep.
    subst res.
    assert (Hstep1 : sound_step self self1)
      by (apply Hstep; congruence).
    eapply sound_step_trans; [exact Hstep1|].
    apply IH; [apply Hstep1 | assumption].
Qed.

Lemma entry_phase_sound predictions : forall n self,
  solvent self ->
  (forall p, In p predictions ->
     p_confidence p <= 1 /\ 0 <= p_current_price p) ->
  sound_step self
    (snd (entry_phase uuid_of now_of put_item_ok predictions n self)).
Proof.
  induction predictions as [|p r IH]; intros n self Hs Hp; simpl.
  - now apply sound_step_refl.
  - assert (Hr : forall p, In p r ->
                  p_confidence p <= 1 /\ 0 <= p_current_price p)
      by (intros; apply Hp; now right).
    unfold bind, gets.
    destruct (should_trade self p) eqn:Est; [|now apply IH].
    apply should_trade_true in Est. destruct Est as (_ & Hmin & _ & _).
    destruct (Hp p (or_introl eq_refl)) as [Hc Hprice].
    pose proof (execute_trade_sound p self Hs Hc Hprice) as Hstep.
    destruct (execute_trade_ok p self) as [b Hb].
    destruct (execute p self) as [res self1]. simpl in Hb, Hstep.
    subst res.
    assert (Hstep1 : sound_step self self1).
    { apply Hstep. intros _. unfold min_confidence in Hmin. lra. }
    eapply sound_step_trans; [exact Hstep1|].
    apply IH; [apply Hstep1 | assumption].
Qed.

Lemma close_all_sound l : forall self,
  solvent self ->
  Forall (fun c : string * Q * string => 0 <= snd (fst c)) l ->
  sound_step self
    (snd (for_each l
            (fun '(symbol, price, reason) => close symbol price reason) self)).
Proof.
  induction l as [|[[k price] reason] r IH]; intros self Hs Hl; simpl.
  - now apply sound_step_refl.
  - inversion Hl as [|? ? Hk Hr]; subst. simpl in Hk. unfold bind.
    pose proof (close_position_ok uuid_of now_of put_item_ok k price reason self)
      as Hok.
    pose proof (close_position_sound k price reason self Hs Hk) as Hstep.
    destruct (close k price reason self) as [res self1].
    simpl in Hok, Hstep. subst res.
    eapply sound_step_trans; [exact Hstep|].
    apply IH; [apply Hstep | assumption].
Qed.

Lemma check_exit_conditions_sound crypto_data forex_data self :
  solvent self ->
  (forall q, In q (crypto_data ++ forex_data) -> 0 <= m_price q) ->
  sound_step self
    (snd (check_exit_conditions uuid_of now_of put_item_ok fl
            crypto_data forex_data self)).
Proof.
  intros Hs Hq. rewrite check_exit_conditions_eq.
  destruct (exit_scan fl _ _ _ _) as [res self0] eqn:Escan. cbn [fst].
  destruct res as [l|e]; [|now apply sound_step_refl].
  apply close_all_sound; [assumption|].
  eapply (exit_scan_Forall fl (fun c => 0 <= snd (fst c)));
    [|constructor|exact Escan].
  intros k pos data reason _ Hk _. simpl.
  apply Hq. eapply by_symbol_In. exact Hk.
Qed.

End SolvencyFacts.

(** *** The wallet stays non-negative *)

(** C9.  If, when the trades of a session begin, the wallet balance and the
    quantities held are non-negative, every prediction has a confidence of
    at most 1 and a non-negative price, and every quote is non-negative,
    then the wallet balance is non-negative when the three phases end (or
    stop on an exception), and every item written on the way records a
    non-negative [walletBalanceAfter]. *)
Theorem wallet_stays_nonnegative (uuid_of now_of : nat -> string)
    (put_item_ok : item -> bool) (fl : Q -> Q)
    (predictions : list prediction)
    (crypto_data forex_data : list quote) (self : trader) :
  0 <= wallet_balance self ->
  (forall k pos, In (k, pos) (portfolio self) -> 0 <= pos_quantity pos) ->
  (forall p, In p predictions ->
     p_confidence p <= 1 /\ 0 <= p_current_price p) ->
  (forall q, In q (crypto_data ++ forex_data) -> 0 <= m_price q) ->
  let self' :=
    snd (trade_on_predictions uuid_of now_of put_item_ok fl predictions
           crypto_data forex_data self) in
  0 <= wallet_balance self'
  /\ Forall balance_after_nonneg (added self self').
Proof.
  intros Hw Hpos Hp Hq self'.
  assert (Hs : solvent self) by (split; assumption).
  assert (Hstep : sound_step self self').
  { subst self'. unfold trade_on_predictions, bind.
    pose proof (exit_phase_sound uuid_of now_of put_item_ok predictions 0
                  self Hs Hp) as H1.
    destruct (exit_phase _ _ _ _ _ _) as [[n1|e1] self1]; simpl in H1;
      [|exact H1].
    pose proof (check_exit_conditions_sound uuid_of now_of put_item_ok fl
                  crypto_data forex_data self1 (proj1 H1) Hq) as H2.
    destruct (check_exit_conditions _ _ _ _ _ _) as [[[]|e2] self2];
      simpl in H2.
    - eapply sound_step_trans; [exact H1|].
      eapply sound_step_trans; [exact H2|].
      apply entry_phase_sound; [apply H2 | assumption].
    - eapply sound_step_trans; eassumption. }
  destruct Hstep as [[Hw' _] Hext]. split; [exact Hw'|].
  apply extends_added, Hext.
Qed.

Lemma wallet_stays_nonnegative_witness :
  let self' :=
    snd (trade_on_predictions sample_uuid sample_now store_accepts
           no_rounding [btc_buy]
           [{| m_symbol := "BTC"; m_price := 45000 |}] [] (init 50)) in
  0 <= wallet_balance self'
  /\ Forall balance_after_nonneg (added (init 50) self').
Proof.
  apply (wallet_stays_nonnegative sample_uuid sample_now store_accepts
           no_rounding
           [btc_buy] [{| m_symbol := "BTC"; m_price := 45000 |}] []
           (init 50)).
  - vm_compute. discriminate.
  - intros k pos [].
  - intros p [<-|[]]. split; vm_compute; discriminate.
  - intros q [<-|[]]. vm_compute. discriminate.
Defined.

(** ** Exits of the model and of the risk monitor *)

Lemma sells_for_app s l1 l2 :
  sells_for s (l1 ++ l2) = (sells_for s l1 ++ sells_for s l2)%list.
Proof. apply filter_app. Qed.

Lemma sells_for_none s l : Forall (not_sell_on s) l -> sells_for s l = [].
Proof.
  induction 1 as [|t l Ht _ IH]; simpl; [reflexivity|].
  unfold not_sell_on in Ht. now rewrite Ht.
Qed.

Section ExitFacts.
Variable uuid_of : nat -> string.
Variable now_of : nat -> string.
Variable put_item_ok : item -> bool.
Variable fl : Q -> Q.
Variable s : string.

Local Abbreviation execute := (execute_trade uuid_of now_of put_item_ok).
Local Abbreviation exits := (exit_phase uuid_of now_of put_item_ok).
Local Abbreviation entries := (entry_phase uuid_of now_of put_item_ok).

Lemma execute_trade_other p self :
  p_symbol p <> s ->
  dget s (portfolio (snd (execute p self))) = dget s (portfolio self)
  /\ extends (not_sell_on s) self (snd (execute p self)).
Proof.
  intros Hne. split.
  - rewrite execute_trade_eq. destruct (p_signal p).
    + destruct (Qeq_bool _ 0); [reflexivity|].
      simpl. now apply dget_dset_neq.
    + destruct (dget (p_symbol p) _) as [position|]; [|reflexivity].
      destruct (Qeq_bool _ 0); [reflexivity|].
      simpl. now apply dget_ddel_neq.
    + reflexivity.
  - apply execute_trade_extends; intros; unfold not_sell_on; simpl.
    + reflexivity.
    + now apply String.eqb_neq.
Qed.

Lemma execute_trade_buy_extends p self :
  p_signal p = BUY -> extends (not_sell_on s) self (snd (execute p self)).
Proof.
  intros Hsig. apply execute_trade_extends; intros; [reflexivity|congruence].
Qed.

Lemma exit_phase_ok predictions : forall n self,
  exists n', fst (exits predictions n self) = Ok n'.
Proof.
  induction predictions as [|p r IH]; intros n self; simpl; eauto.
  unfold bind, gets.
  destruct (p_signal p); auto.
  destruct (dmem _ _ && _); auto.
  destruct (execute_trade_ok uuid_of now_of put_item_ok p self) as [b Hb].
  destruct (execute p self) as [res self1]. simpl in Hb. subst res. auto.
Qed.

(** Once [s] is closed, phase 1 writes no SELL on it. *)
Lemma exit_phase_closed predictions : forall n self,
  dget s (portfolio self) = None ->
  dget s (portfolio (snd (exits predictions n self))) = None
  /\ extends (not_sell_on s) self (snd (exits predictions n self)).
Proof.
  induction predictions as [|p r IH]; intros n self Hs; simpl.
  - split; [assumption|apply extends_refl].
  - unfold bind, gets.
    destruct (p_signal p) eqn:Esig; try (now apply IH).
    destruct (dmem (p_symbol p) (portfolio self)) eqn:Emem; simpl;
      [|now apply IH].
    destruct (Qge_bool _ _); [|now apply IH].
    assert (Hne : p_symbol p <> s).
    { intros Heq. rewrite Heq in Emem. unfold dmem in Emem.
      now rewrite Hs in Emem. }
    destruct (execute_trade_other p self Hne) as [Hkeep Hext].
    destruct (execute_trade_ok uuid_of now_of put_item_ok p self) as [b Hb].
    destruct (execute p self) as [res self1]. simpl in Hb, Hkeep, Hext.
    subst res.
    destruct (IH (if b then S n else n) self1) as [H1 H2]; [congruence|].
    split; [assumption|]. eapply extends_trans; eassumption.
Qed.

(** While [s] is open, a qualifying SELL prediction makes phase 1 close it
    once: one SELL item on [s], without exit reason, goes to the trading
    table, and is in it afterwards if the table accepts it. *)
Lemma exit_phase_sells_once predictions : forall n self pos,
  dget s (portfolio self) = Some pos ->
  ~ pos_entry_price pos == 0 ->
  (exists p, In p predictions /\ model_exit s p) ->
  exists l it,
    trading_table (snd (exits predictions n self))
    = (trading_table self ++ l)%list
    /\ sells_for s l = (if put_item_ok it then [it] else [])
    /\ t_exitReason it = None
    /\ dget s (portfolio (snd (exits predictions n self))) = None.
Proof.
  induction predictions as [|p r IH]; intros n self pos Hpos Hentry Hex.
  - destruct Hex as (p & [] & _).
  - simpl. unfold bind, gets.
    assert (Hskip :
      ~ model_exit s p ->
      exists l it,
        trading_table (snd (exits r n self)) = (trading_table self ++ l)%list
        /\ sells_for s l = (if put_item_ok it then [it] else [])
        /\ t_exitReason it = None
        /\ dget s (portfolio (snd (exits r n self))) = None).
    { intros Hnot. apply (IH n self pos); trivial.
      destruct Hex as (p0 & [<-|Hin] & Hp0); [contradiction|eauto]. }
    destruct (p_signal p) eqn:Esig;
      try (apply Hskip; intros (_ & H & _); congruence).
    destruct (dmem (p_symbol p) (portfolio self)) eqn:Emem; simpl.
    2:{ apply Hskip. intros (H & _ & _). rewrite H in Emem.
        unfold dmem in Emem. now rewrite Hpos in Emem. }
    destruct (Qge_bool (p_confidence p) min_confidence) eqn:Econf.
    2:{ apply Hskip. intros (_ & _ & H). apply Qle_bool_iff in H.
        unfold Qge_bool in Econf. congruence. }
    destruct (String.eqb_spec (p_symbol p) s) as [Heq|Hne].
    + (* the model-driven exit of [s] *)
      rewrite execute_trade_eq, Esig, Heq, Hpos, (Qeq_bool_false _ Hentry).
      cbv zeta. cbn [fst snd].
      set (it := sold_item uuid_of now_of s (p_market_type p)
                   (p_current_price p) None pos self).
      match goal with |- context [exits r ?n' ?st] =>
        destruct (exit_phase_closed r n' st) as [Hclosed (l & El & Hl)]
      end.
      { simpl. apply dget_ddel_eq. }
      exists ((if put_item_ok it then [it] else []) ++ l)%list, it.
      rewrite El. cbn [after_trade trading_table].
      split; [|split; [|split; [reflexivity|exact Hclosed]]].
      * destruct (put_item_ok it); [|reflexivity].
        now rewrite <- app_assoc.
      * rewrite sells_for_app, (sells_for_none s l Hl), app_nil_r.
        destruct (put_item_ok it); [|reflexivity].
        unfold sells_for. simpl. now rewrite String.eqb_refl.
    + (* an exit of another symbol *)
      destruct (execute_trade_other p self Hne) as [Hkeep (l1 & E1 & Hl1)].
      destruct (execute_trade_ok uuid_of now_of put_item_ok p self) as [b Hb].
      destruct (execute p self) as [res self1]. simpl in Hb, Hkeep, E1.
      subst res.
      destruct (IH (if b then S n else n) self1 pos) as (l & it & El & Hs & Hr & Hc);
        trivial; [congruence| |].
      { destruct Hex as (p0 & [<-|Hin] & Hp0); [|eauto].
        destruct Hp0 as (H & _). contradiction. }
      exists (l1 ++ l)%list, it. rewrite El, E1, <- app_assoc.
      split; [reflexivity|]. split; [|auto].
      rewrite sells_for_app, (sells_for_none s l1 Hl1). exact Hs.
Qed.

Lemma entry_phase_extends predictions : forall n self,
  extends (not_sell_on s) self (snd (entries predictions n self)).
Proof.
  induction predictions as [|p r IH]; intros n self; simpl.
  - apply extends_refl.
  - unfold bind, gets.
    destruct (should_trade self p) eqn:Est; [|apply IH].
    apply should_trade_true in Est. destruct Est as (Hsig & _).
    pose proof (execute_trade_buy_extends p self Hsig) as Hext.
    destruct (execute_trade_ok uuid_of now_of put_item_ok p self) as [b Hb].
    destruct (execute p self) as [res self1]. simpl in Hb, Hext. subst res.
    eapply extends_trans; [exact Hext | apply IH].
Qed.

Lemma check_exit_conditions_closed crypto_data forex_data self :
  dget s (portfolio self) = None ->
  extends (not_sell_on s) self
    (snd (check_exit_conditions uuid_of now_of put_item_ok fl
            crypto_data forex_data self)).
Proof.
  intros Hs. rewrite check_exit_conditions_eq.
  destruct (exit_scan fl _ _ _ _) as [res self0] eqn:Escan. cbn [fst].
  destruct res as [l|e]; [|apply extends_refl].
  assert (Hl : Forall (fun c => closing_symbol c <> s) l).
  { eapply (exit_scan_Forall fl (fun c => closing_symbol c <> s));
      [|constructor|exact Escan].
    intros k pos data reason Hin _ _. unfold closing_symbol. simpl.
    intros Heq. rewrite Heq in Hin. apply In_dget in Hin. contradiction. }
  destruct (close_all_extends uuid_of now_of put_item_ok s l self Hl)
    as (l' & El & Hl').
  exists l'. split; [exact El|].
  eapply Forall_impl; [|exact Hl'].
  intros t Ht. unfold not_sell_on.
  apply String.eqb_neq in Ht. rewrite Ht. apply andb_false_r.
Qed.

End ExitFacts.

Lemma added_grows self self' l :
  trading_table self' = (trading_table self ++ l)%list -> added self self' = l.
Proof.
  intros E. unfold added.
  now rewrite E, skipn_app, skipn_all, Nat.sub_diag.
Qed.

(** *** One SELL for a symbol due for both exits *)

(** C7.  For a symbol held when the trades of a session begin, on which
    some prediction is a SELL with confidence at least [min_confidence] and
    on which the risk monitor would take profit at the quoted price: the
    session closes it once, in phase 1.  One SELL item on it, without exit
    reason of the risk monitor, goes to the trading table in phase 1; when
    the table accepts that item, it is the only SELL on that symbol among
    the items written by phase 1 and among those written by the whole
    session (otherwise there is none). *)
Theorem model_exit_recorded_once (uuid_of now_of : nat -> string)
    (put_item_ok : item -> bool) (fl : Q -> Q)
    (predictions : list prediction)
    (crypto_data forex_data : list quote) (self : trader) (s : string)
    (pos : position) :
  dget s (portfolio self) = Some pos ->
  (exists p, In p predictions /\ model_exit s p) ->
  take_profit_due (by_symbol (crypto_data ++ forex_data)) s pos ->
  let self1 :=
    snd (exit_phase uuid_of now_of put_item_ok predictions 0 self) in
  let self' :=
    snd (trade_on_predictions uuid_of now_of put_item_ok fl predictions
           crypto_data forex_data self) in
  exists it,
    t_exitReason it = None
    /\ sells_for s (added self self1) = (if put_item_ok it then [it] else [])
    /\ sells_for s (added self self') = sells_for s (added self self1)
    /\ (put_item_ok it = true ->
        sells_for s (added self self1) = [it]
        /\ sells_for s (added self self') = [it]).
Proof.
  intros Hpos Hex (data & _ & Hentry & _) self1 self'.
  destruct (exit_phase_sells_once uuid_of now_of put_item_ok s predictions
              0%nat self pos Hpos Hentry Hex)
    as (l & it & El & Hsell & Hreason & Hclosed).
  fold self1 in El, Hclosed.
  assert (Hext : extends (not_sell_on s) self1 self').
  { subst self' self1. unfold trade_on_predictions, bind.
    destruct (exit_phase_ok uuid_of now_of put_item_ok predictions 0%nat self)
      as [n1 Hn1].
    destruct (exit_phase _ _ _ _ _ _) as [res self1]. simpl in Hn1.
    subst res. cbn [snd] in Hclosed |- *.
    pose proof (check_exit_conditions_closed uuid_of now_of put_item_ok fl s
                  crypto_data forex_data self1 Hclosed) as H2.
    destruct (check_exit_conditions _ _ _ _ _ _) as [[[]|e2] self2];
      simpl in H2 |- *; [|exact H2].
    eapply extends_trans; [exact H2|apply entry_phase_extends]. }
  destruct Hext as (l2 & E2 & Hl2).
  assert (Hall : sells_for s (added self self')
                 = sells_for s (added self self1)).
  { rewrite (added_grows _ _ _ El), (added_grows self self' (l ++ l2)).
    - now rewrite sells_for_app, (sells_for_none s l2 Hl2), app_nil_r.
    - rewrite E2, El, app_assoc. reflexivity. }
  exists it. rewrite Hall, (added_grows _ _ _ El), Hsell.
  split; [exact Hreason|]. split; [reflexivity|]. split; [reflexivity|].
  intros ->. split; reflexivity.
Qed.

Lemma model_exit_recorded_once_witness :
  let self1 :=
    snd (exit_phase sample_uuid sample_now store_accepts [eurusd_sell] 0
           holding_eurusd) in
  let self' :=
    snd (trade_on_predictions sample_uuid sample_now store_accepts no_rounding
           [eurusd_sell] [] [eurusd_quote] holding_eurusd) in
  exists it,
    sells_for "EURUSD" (added holding_eurusd self1) = [it]
    /\ sells_for "EURUSD" (added holding_eurusd self') = [it]
    /\ t_exitReason it = None.
Proof.
  destruct (model_exit_recorded_once sample_uuid sample_now store_accepts
              no_rounding
              [eurusd_sell] [] [eurusd_quote] holding_eurusd "EURUSD"
              eurusd_lot) as (it & Hreason & _ & _ & Hone).
  - reflexivity.
  - exists eurusd_sell. split; [now left|].
    repeat split. vm_compute. discriminate.
  - exists eurusd_quote. split; [reflexivity|]. split.
    + intros H. vm_compute in H. discriminate H.
    + vm_compute. discriminate.
  - exists it. destruct (Hone eq_refl) as [H1 H2]. auto.
Defined.

(** * Further properties *)

(** ** The replayed positions *)

Lemma replay_holding l : forall self history,
  Forall (fun t => readable t = true) l ->
  (forall s, dget s (portfolio self) = holding s history) ->
  exists pf w,
    for_each l replay_trade self = (Ok tt, update self pf w)
    /\ forall s, dget s pf = holding s (rev l ++ history)%list.
Proof.
  induction l as [|t r IH]; intros self history Hr Hinv.
  - exists (portfolio self), (wallet_balance self). simpl.
    rewrite update_self. auto.
  - inversion Hr as [|? ? Ht Hr']; subst.
    simpl for_each. unfold bind at 1.
    assert (Hnext : forall st,
              (forall s, dget s (portfolio st) = holding s (t :: history)) ->
              replay_trade t self = (Ok tt, st) ->
              (exists pf w, st = update self pf w) ->
              exists pf w,
                (let (r0, self') := replay_trade t self in
                 match r0 with
                 | Ok _ => for_each r replay_trade self'
                 | Raise e => (Raise e, self')
                 end) = (Ok tt, update self pf w)
                /\ forall s, dget s pf = holding s (rev (t :: r) ++ history)%list).
    { intros st Hst Hrun (pf0 & w0 & ->). rewrite Hrun.
      destruct (IH _ (t :: history) Hr' Hst) as (pf & w & Hrun' & Hpf).
      exists pf, w. rewrite Hrun', update_update. split; [reflexivity|].
      intros s. simpl rev. rewrite Hpf, <- app_assoc. reflexivity. }
    unfold readable in Ht.
    destruct (t_symbol t) as [sym|] eqn:Esym; try discriminate.
    destruct (t_action t) as [act|] eqn:Eact; try discriminate.
    destruct (t_quantity t) as [|q|] eqn:Eq; try discriminate.
    destruct (t_price t) as [|p|] eqn:Ep; try discriminate.
    assert (Hsym : symbol_of t = sym) by (unfold symbol_of; now rewrite Esym).
    destruct (String.eqb act "BUY") eqn:Ebuy.
    + destruct (t_tradeId t) as [tid|] eqn:Etid; try discriminate.
      assert (Hb : is_buy t = true)
        by (unfold is_buy, has_action; now rewrite Eact).
      apply String.eqb_eq in Ebuy. subst act.
      eapply Hnext; [|apply (replay_trade_buy t self sym q p tid); assumption
                     |eauto].
      intros s. simpl portfolio. simpl holding. rewrite Hsym, Hb.
      destruct (String.eqb_spec sym s) as [<-|Hne].
      * rewrite dget_dset_eq. unfold lot_of. now rewrite Eq, Ep, Etid.
      * rewrite dget_dset_neq by assumption. apply Hinv.
    + assert (Hnb : is_buy t = false)
        by (unfold is_buy, has_action; now rewrite Eact).
      destruct (String.eqb act "SELL") eqn:Esell.
      * assert (Hs : is_sell t = true)
          by (unfold is_sell, has_action; now rewrite Eact).
        apply String.eqb_eq in Esell. subst act.
        destruct (dmem sym (portfolio self)) eqn:Emem.
        -- eapply Hnext;
             [|apply (replay_trade_sell_open t self sym q p); assumption|eauto].
           intros s. simpl portfolio. simpl holding. rewrite Hsym, Hnb, Hs.
           destruct (String.eqb_spec sym s) as [<-|Hne].
           ++ apply dget_ddel_eq.
           ++ rewrite dget_ddel_neq by assumption. apply Hinv.
        -- eapply Hnext;
             [|apply (replay_trade_skip t self sym "SELL" q p); auto
              |exists (portfolio self), (wallet_balance self);
               now rewrite update_self].
           intros s. simpl holding. rewrite Hsym, Hnb, Hs.
           destruct (String.eqb_spec sym s) as [<-|Hne]; [|apply Hinv].
           unfold dmem in Emem. now destruct (dget sym (portfolio self)).
      * assert (Hs : is_sell t = false)
          by (unfold is_sell, has_action; now rewrite Eact).
        eapply Hnext;
          [|apply (replay_trade_skip t self sym act q p);
            auto; now rewrite Esell
           |exists (portfolio self), (wallet_balance self);
            now rewrite update_self].
        intros s. simpl holding. rewrite Hnb, Hs.
        destruct (String.eqb _ s); apply Hinv.
Qed.

(** X1.  After the replay of a window whose records are all readable, the
    position on each symbol is the lot of the latest BUY or SELL record on
    that symbol in timestamp order when that record is a BUY, and the symbol
    is not held otherwise. *)
Theorem replay_positions (INITIAL_BALANCE : Q) (trades : list item)
    (self : trader) (s : string) :
  Forall (fun t => readable t = true) trades ->
  dget s (portfolio
            (snd (load_portfolio_state INITIAL_BALANCE (Ok trades) self)))
  = holding s (rev (sorted trades)).
Proof.
  intros Hr. rewrite load_unfold.
  destruct (replay_holding (sorted trades) (update self [] INITIAL_BALANCE) [])
    as (pf & w & Hrun & Hpf).
  - rewrite Forall_forall in *. intros t Ht. apply Hr.
    eapply Permutation_in; [apply sorted_perm | exact Ht].
  - reflexivity.
  - rewrite Hrun. simpl. rewrite Hpf, app_nil_r. reflexivity.
Qed.

Lemma replay_positions_witness :
  Forall (fun t => readable t = true) [buy_btc_2; sell_sol; buy_btc_1]
  /\ dget "BTC"
       (portfolio
          (snd (load_portfolio_state 50 (Ok [buy_btc_2; sell_sol; buy_btc_1])
                  (init 50))))
     = Some (lot_of buy_btc_2).
Proof.
  assert (H : Forall (fun t => readable t = true)
                [buy_btc_2; sell_sol; buy_btc_1])
    by (repeat constructor).
  split; [exact H|].
  exact (replay_positions 50 _ (init 50) "BTC" H).
Defined.

(** ** The replay starts from scratch *)

Lemma replay_trade_base t self base :
  replay_trade t self =
    (fst (replay_trade t (update base (portfolio self) (wallet_balance self))),
     update self
       (portfolio
          (snd (replay_trade t
                  (update base (portfolio self) (wallet_balance self)))))
       (wallet_balance
          (snd (replay_trade t
                  (update base (portfolio self) (wallet_balance self)))))).
Proof.
  unfold replay_trade. run.
  destruct (t_symbol t), (t_action t), (t_quantity t), (t_price t); simpl;
    try (now rewrite update_self).
  destruct (String.eqb _ "BUY").
  - destruct (t_tradeId t); simpl; [reflexivity|now rewrite update_self].
  - destruct (String.eqb _ "SELL" && _); simpl;
      [reflexivity|now rewrite update_self].
Qed.

Lemma replay_base l : forall self base,
  for_each l replay_trade self =
    (fst (for_each l replay_trade
            (update base (portfolio self) (wallet_balance self))),
     update self
       (portfolio
          (snd (for_each l replay_trade
                  (update base (portfolio self) (wallet_balance self)))))
       (wallet_balance
          (snd (for_each l replay_trade
                  (update base (portfolio self) (wallet_balance self)))))).
Proof.
  induction l as [|t r IH]; intros self base; simpl.
  - now rewrite update_self.
  - unfold bind. rewrite (replay_trade_base t self base).
    destruct (replay_trade t (update base _ _)) as [[[]|e] st] eqn:E;
      cbn [fst snd]; [|reflexivity].
    destruct (replay_trade_frame t
                (update base (portfolio self) (wallet_balance self)))
      as (r0 & pf0 & w0 & E0).
    rewrite E in E0. injection E0 as _ ->.
    rewrite (IH (update self _ _) base). cbn [update portfolio wallet_balance].
    reflexivity.
Qed.

(** X2.  The portfolio and the cash balance that [load_portfolio_state]
    leaves depend on the scanned window only, not on the state the trader
    was in (the other attributes of the trader are untouched), and loading
    the same window again changes nothing. *)
Theorem load_from_scratch (INITIAL_BALANCE : Q) (scan : result (list item))
    (self other : trader) :
  snd (load_portfolio_state INITIAL_BALANCE scan self)
  = update self
      (portfolio (snd (load_portfolio_state INITIAL_BALANCE scan other)))
      (wallet_balance (snd (load_portfolio_state INITIAL_BALANCE scan other)))
  /\ load_portfolio_state INITIAL_BALANCE scan
       (snd (load_portfolio_state INITIAL_BALANCE scan self))
     = load_portfolio_state INITIAL_BALANCE scan self.
Proof.
  assert (Hfrom : forall a b,
            snd (load_portfolio_state INITIAL_BALANCE scan a)
            = update a
                (portfolio (snd (load_portfolio_state INITIAL_BALANCE scan b)))
                (wallet_balance
                   (snd (load_portfolio_state INITIAL_BALANCE scan b)))).
  { intros a b. destruct scan as [trades|e]; [|reflexivity].
    rewrite !load_unfold.
    rewrite (replay_base (sorted trades) (update a [] INITIAL_BALANCE) b).
    cbn [update portfolio wallet_balance].
    change (update b [] INITIAL_BALANCE)
      with {| portfolio := []; wallet_balance := INITIAL_BALANCE;
              current_market_prices := current_market_prices b;
              trading_table := trading_table b; ticks := ticks b |}.
    destruct (for_each (sorted trades) replay_trade _) as [[[]|e] st];
      reflexivity. }
  split; [apply Hfrom|].
  pose proof (load_never_raises INITIAL_BALANCE scan self) as H1.
  pose proof (load_never_raises INITIAL_BALANCE scan
                (snd (load_portfolio_state INITIAL_BALANCE scan self))) as H2.
  pose proof (Hfrom (snd (load_portfolio_state INITIAL_BALANCE scan self)) self)
    as H3.
  pose proof (Hfrom self self) as H4.
  destruct (load_portfolio_state INITIAL_BALANCE scan self) as [r1 s1].
  cbn [fst snd] in *.
  destruct (load_portfolio_state INITIAL_BALANCE scan s1) as [r2 s2].
  cbn [fst snd] in *. subst r1 r2. f_equal.
  rewrite H3. apply update_self.
Qed.

(** ** When the risk monitor raises *)

Section CompletionFacts.
Variable uuid_of : nat -> string.
Variable now_of : nat -> string.
Variable put_item_ok : item -> bool.
Variable fl : Q -> Q.

Local Abbreviation execute := (execute_trade uuid_of now_of put_item_ok).
Local Abbreviation close := (close_position uuid_of now_of put_item_ok).
Local Abbreviation check := (check_exit_conditions uuid_of now_of put_item_ok fl).
Local Abbreviation exits := (exit_phase uuid_of now_of put_item_ok).
Local Abbreviation entries := (entry_phase uuid_of now_of put_item_ok).

Lemma exit_scan_raises all_data items : forall acc self,
  fst (exit_scan fl all_data items acc self)
  = (if zero_entry_quoted all_data items
     then Raise ZeroDivisionError
     else fst (exit_scan fl all_data items acc self))
  /\ (zero_entry_quoted all_data items = false ->
      exists l, fst (exit_scan fl all_data items acc self) = Ok l).
Proof.
  induction items as [|[k pos] r IH]; intros acc self; simpl.
  - split; eauto.
  - destruct (dget k all_data) as [data|]; simpl; [|apply IH].
    run. destruct (Qeq_bool (pos_entry_price pos) 0); simpl.
    + split; [reflexivity|discriminate].
    + destruct (Qle_bool _ (- fl stop_loss_pct)); [apply IH|].
      destruct (Qge_bool _ (fl take_profit_pct)); apply IH.
Qed.

Lemma close_all_ok l : forall self,
  fst (for_each l
         (fun '(symbol, price, reason) => close symbol price reason) self)
  = Ok tt.
Proof.
  induction l as [|[[k price] reason] r IH]; intros self; simpl.
  - reflexivity.
  - unfold bind.
    pose proof (close_position_ok uuid_of now_of put_item_ok k price reason self)
      as Hok.
    destruct (close k price reason self) as [res self1].
    simpl in Hok. subst res. apply IH.
Qed.

Lemma check_exit_conditions_raises (crypto_data forex_data : list quote)
    (self : trader) :
  zero_entry_quoted (by_symbol (crypto_data ++ forex_data)) (portfolio self)
  = true ->
  check crypto_data forex_data self = (Raise ZeroDivisionError, self).
Proof.
  intros Hz. rewrite check_exit_conditions_eq.
  destruct (exit_scan_raises (by_symbol (crypto_data ++ forex_data))
              (portfolio self) [] self) as [H1 _].
  rewrite Hz in H1. now rewrite H1.
Qed.

Lemma check_exit_conditions_returns (crypto_data forex_data : list quote)
    (self : trader) :
  zero_entry_quoted (by_symbol (crypto_data ++ forex_data)) (portfolio self)
  = false ->
  fst (check crypto_data forex_data self) = Ok tt.
Proof.
  intros Hz. rewrite check_exit_conditions_eq.
  destruct (exit_scan_raises (by_symbol (crypto_data ++ forex_data))
              (portfolio self) [] self) as [_ H2].
  destruct (H2 Hz) as [l ->]. apply close_all_ok.
Qed.

(** X3.  [check_exit_conditions] raises exactly when some held lot that has
    a quote has entry price 0: the exception is [ZeroDivisionError], it comes
    before any position is closed, and the trader is left as it was;
    otherwise the method returns normally. *)
Theorem risk_monitor_raises_on_zero_entry (crypto_data forex_data : list quote)
    (self : trader) :
  let all_data := by_symbol (crypto_data ++ forex_data) in
  check crypto_data forex_data self
  = if zero_entry_quoted all_data (portfolio self)
    then (Raise ZeroDivisionError, self)
    else (Ok tt, snd (check crypto_data forex_data self)).
Proof.
  intros all_data. subst all_data.
  destruct (zero_entry_quoted _ (portfolio self)) eqn:Hz.
  - now apply check_exit_conditions_raises.
  - pose proof (check_exit_conditions_returns _ _ _ Hz) as Hok.
    destruct (check crypto_data forex_data self) as [res self1].
    simpl in Hok. now subst res.
Qed.

Lemma priced_not_zero_entry all_data self :
  priced self -> zero_entry_quoted all_data (portfolio self) = false.
Proof.
  intros Hp. unfold zero_entry_quoted.
  destruct (existsb _ _) eqn:E; [|reflexivity].
  apply existsb_exists in E. destruct E as ([k pos] & Hin & Hz).
  destruct (dget k all_data); [|discriminate].
  apply Qeq_bool_eq in Hz. exfalso. exact (Hp k pos Hin Hz).
Qed.

Lemma close_position_priced k price reason self :
  priced self -> priced (snd (close k price reason self)).
Proof.
  intros Hp. rewrite close_position_eq.
  destruct (dget k (portfolio self)) as [position|]; [|exact Hp].
  destruct (Qeq_bool (pos_entry_price position) 0); [exact Hp|].
  intros k' p' Hin. simpl in Hin. apply In_ddel in Hin. eauto.
Qed.

Lemma execute_trade_priced p self :
  priced self -> priced (snd (execute p self)).
Proof.
  intros Hp. rewrite execute_trade_eq. destruct (p_signal p).
  - destruct (Qeq_bool (p_current_price p) 0) eqn:E0; [exact Hp|].
    intros k' p' Hin. simpl in Hin. apply In_dset in Hin.
    destruct Hin as [[= _ ->]|Hin]; [|eauto].
    simpl. now apply Qeq_bool_neq.
  - destruct (dget _ _) as [position|]; [|exact Hp].
    destruct (Qeq_bool (pos_entry_price position) 0); [exact Hp|].
    intros k' p' Hin. simpl in Hin. apply In_ddel in Hin. eauto.
  - exact Hp.
Qed.

Lemma close_all_priced l : forall self,
  priced self ->
  priced (snd (for_each l
                 (fun '(symbol, price, reason) => close symbol price reason)
                 self)).
Proof.
  induction l as [|[[k price] reason] r IH]; intros self Hp; simpl.
  - exact Hp.
  - unfold bind.
    pose proof (close_position_ok uuid_of now_of put_item_ok k price reason self)
      as Hok.
    pose proof (close_position_priced k price reason self Hp) as Hp1.
    destruct (close k price reason self) as [res self1].
    simpl in Hok, Hp1. subst res. now apply IH.
Qed.

Lemma exit_phase_priced predictions : forall n self,
  priced self -> priced (snd (exits predictions n self)).
Proof.
  induction predictions as [|p r IH]; intros n self Hp; simpl; [exact Hp|].
  unfold bind, gets.
  destruct (p_signal p); try (now apply IH).
  destruct (dmem _ _ && _); [|now apply IH].
  pose proof (execute_trade_priced p self Hp) as Hp1.
  destruct (execute_trade_ok uuid_of now_of put_item_ok p self) as [b Hb].
  destruct (execute p self) as [res self1]. simpl in Hb, Hp1. subst res.
  now apply IH.
Qed.

Lemma entry_phase_priced predictions : forall n self,
  priced self ->
  priced (snd (entries predictions n self))
  /\ exists n', fst (entries predictions n self) = Ok n'.
Proof.
  induction predictions as [|p r IH]; intros n self Hp; simpl; [eauto|].
  unfold bind, gets.
  destruct (should_trade self p); [|now apply IH].
  pose proof (execute_trade_priced p self Hp) as Hp1.
  destruct (execute_trade_ok uuid_of now_of put_item_ok p self) as [b Hb].
  destruct (execute p self) as [res self1]. simpl in Hb, Hp1. subst res.
  now apply IH.
Qed.

(** X4.  If every lot held when the trades of a session begin has a
    non-zero entry price, the three phases run to the end (no phase raises,
    whatever the predictions, the quotes and the outcome of the writes);
    and when no prediction is at a price of 0, every lot held afterwards
    has a non-zero entry price again. *)
Theorem phases_complete (predictions : list prediction)
    (crypto_data forex_data : list quote) (self : trader) :
  priced self ->
  let r := trade_on_predictions uuid_of now_of put_item_ok fl predictions
             crypto_data forex_data self in
  (exists n, fst r = Ok n)
  /\ (Forall (fun p => ~ p_current_price p == 0) predictions ->
      priced (snd r)).
Proof.
  intros Hp r. subst r.
  enough (H : (exists n,
                 fst (trade_on_predictions uuid_of now_of put_item_ok fl
                        predictions crypto_data forex_data self) = Ok n)
              /\ priced
                   (snd (trade_on_predictions uuid_of now_of put_item_ok fl
                           predictions crypto_data forex_data self)))
    by (split; [apply H|intros _; apply H]).
  unfold trade_on_predictions, bind.
  pose proof (exit_phase_priced predictions 0%nat self Hp) as Hp1.
  destruct (exit_phase_ok uuid_of now_of put_item_ok predictions 0%nat self)
    as [n1 Hn1].
  destruct (exit_phase _ _ _ _ _ _) as [res self1]. simpl in Hn1, Hp1.
  subst res.
  pose proof (check_exit_conditions_returns crypto_data forex_data self1
                (priced_not_zero_entry _ self1 Hp1)) as Hck.
  assert (Hp2 : priced (snd (check crypto_data forex_data self1))).
  { rewrite check_exit_conditions_eq.
    destruct (fst (exit_scan fl _ _ _ _)) as [l|e]; [|exact Hp1].
    now apply close_all_priced. }
  destruct (check crypto_data forex_data self1) as [res self2].
  cbn [fst snd] in Hck, Hp2. subst res.
  destruct (entry_phase_priced predictions n1 _ Hp2) as [Hp3 Hok].
  split; assumption.
Qed.

End CompletionFacts.

Lemma phases_complete_witness :
  let r := trade_on_predictions sample_uuid sample_now store_accepts
             no_rounding [eurusd_sell; btc_buy] [] [eurusd_quote]
             holding_eurusd in
  priced holding_eurusd
  /\ (exists n, fst r = Ok n)
  /\ priced (snd r).
Proof.
  intros r.
  assert (H : priced holding_eurusd).
  { intros k pos [[= <- <-]|[]] Hz. vm_compute in Hz. discriminate Hz. }
  destruct (phases_complete sample_uuid sample_now store_accepts no_rounding
              [eurusd_sell; btc_buy] [] [eurusd_quote] holding_eurusd H)
    as [Hok Hpriced].
  split; [exact H|]. split; [exact Hok|].
  apply Hpriced.
  repeat constructor; intros Hz; vm_compute in Hz; discriminate Hz.
Defined.

(** ** What [trades_executed] counts *)

Section CountFacts.
Variable uuid_of : nat -> string.
Variable now_of : nat -> string.
Variable put_item_ok : item -> bool.
Variable fl : Q -> Q.

Local Abbreviation execute := (execute_trade uuid_of now_of put_item_ok).
Local Abbreviation close := (close_position uuid_of now_of put_item_ok).
Local Abbreviation exits := (exit_phase uuid_of now_of put_item_ok).
Local Abbreviation entries := (entry_phase uuid_of now_of put_item_ok).

Lemma counted_trans n1 s1 n2 s2 n3 s3 :
  counted n1 s1 n2 s2 -> counted n2 s2 n3 s3 -> counted n1 s1 n3 s3.
Proof.
  intros (l1 & E1 & H1) (l2 & E2 & H2). exists (l1 ++ l2)%list.
  rewrite E2, E1, app_assoc, filter_app, length_app. split; [reflexivity|lia].
Qed.

Lemma execute_trade_counted p n self :
  exists b,
    fst (execute p self) = Ok b
    /\ counted n self (if b then S n else n) (snd (execute p self)).
Proof.
  assert (Hnone : counted n self n self)
    by (exists []; rewrite app_nil_r; simpl; split; [reflexivity|lia]).
  assert (Hstep : forall pf w t k (b : bool),
            model_trade t = true ->
            counted n self (if b then S n else n) (after_trade self pf w t k b)).
  { intros pf w t k b Ht. destruct b.
    - exists [t]. simpl. rewrite Ht. simpl. split; [reflexivity|lia].
    - exists []. simpl. rewrite app_nil_r. split; [reflexivity|lia]. }
  rewrite execute_trade_eq. destruct (p_signal p).
  - destruct (Qeq_bool _ 0); [exists false; auto|].
    eexists. split; [reflexivity|]. now apply Hstep.
  - destruct (dget _ _) as [position|]; [|exists false; auto].
    destruct (Qeq_bool _ 0); [exists false; auto|].
    eexists. split; [reflexivity|]. now apply Hstep.
  - exists false; auto.
Qed.

Lemma exit_phase_counted predictions : forall n self,
  exists n',
    fst (exits predictions n self) = Ok n'
    /\ counted n self n' (snd (exits predictions n self)).
Proof.
  induction predictions as [|p r IH]; intros n self; simpl.
  - exists n. split; [reflexivity|].
    exists []. rewrite app_nil_r. simpl. split; [reflexivity|lia].
  - unfold bind, gets.
    destruct (p_signal p); try apply IH.
    destruct (dmem _ _ && _); [|apply IH].
    destruct (execute_trade_counted p n self) as (b & Hb & Hc).
    destruct (execute p self) as [res self1]. simpl in Hb, Hc. subst res.
    destruct (IH (if b then S n else n) self1) as (n' & Hn' & Hc').
    exists n'. split; [exact Hn'|]. eapply counted_trans; eassumption.
Qed.

Lemma entry_phase_counted predictions : forall n self,
  exists n',
    fst (entries predictions n self) = Ok n'
    /\ counted n self n' (snd (entries predictions n self)).
Proof.
  induction predictions as [|p r IH]; intros n self; simpl.
  - exists n. split; [reflexivity|].
    exists []. rewrite app_nil_r. simpl. split; [reflexivity|lia].
  - unfold bind, gets.
    destruct (should_trade self p); [|apply IH].
    destruct (execute_trade_counted p n self) as (b & Hb & Hc).
    destruct (execute p self) as [res self1]. simpl in Hb, Hc. subst res.
    destruct (IH (if b then S n else n) self1) as (n' & Hn' & Hc').
    exists n'. split; [exact Hn'|]. eapply counted_trans; eassumption.
Qed.

Lemma close_all_counted l : forall n self,
  counted n self n
    (snd (for_each l
            (fun '(symbol, price, reason) => close symbol price reason) self)).
Proof.
  induction l as [|[[k price] reason] r IH]; intros n self; simpl.
  - exists []. rewrite app_nil_r. simpl. split; [reflexivity|lia].
  - unfold bind.
    pose proof (close_position_ok uuid_of now_of put_item_ok k price reason self)
      as Hok.
    assert (Hc : counted n self n (snd (close k price reason self))).
    { rewrite close_position_eq.
      destruct (dget k (portfolio self)) as [position|];
        [|exists []; rewrite app_nil_r; simpl; split; [reflexivity|lia]].
      destruct (Qeq_bool _ 0);
        [exists []; rewrite app_nil_r; simpl; split; [reflexivity|lia]|].
      cbv zeta.
      match goal with |- context [put_item_ok ?t] =>
        destruct (put_item_ok t); [exists [t]|exists []]
      end; simpl; rewrite ?app_nil_r; (split; [reflexivity|lia]). }
    destruct (close k price reason self) as [res self1].
    simpl in Hok, Hc. subst res.
    eapply counted_trans; [exact Hc|apply IH].
Qed.

(** X5.  When the three phases run to the end, the count they return is the
    number of items written without exit reason, that is by [execute_trade]:
    the exits of the risk monitor are written to the trading table but are
    not counted. *)
Theorem trades_executed_counts_model_trades (predictions : list prediction)
    (crypto_data forex_data : list quote) (self : trader) (n : nat) :
  let r := trade_on_predictions uuid_of now_of put_item_ok fl predictions
             crypto_data forex_data self in
  fst r = Ok n ->
  n = List.length (filter model_trade (added self (snd r))).
Proof.
  intros r. subst r. unfold trade_on_predictions, bind.
  destruct (exit_phase_counted predictions 0%nat self) as (n1 & Hn1 & Hc1).
  destruct (exit_phase _ _ _ _ _ _) as [res self1]. simpl in Hn1, Hc1.
  subst res.
  rewrite (check_exit_conditions_eq uuid_of now_of put_item_ok fl).
  destruct (fst (exit_scan fl _ _ _ _)) as [l|e]; [|discriminate].
  pose proof (close_all_counted l n1 self1) as Hc2.
  pose proof (close_all_ok uuid_of now_of put_item_ok l self1) as Hok.
  destruct (for_each l _ self1) as [res self2]. simpl in Hok, Hc2.
  subst res.
  destruct (entry_phase_counted predictions n1 self2) as (n3 & Hn3 & Hc3).
  destruct (entry_phase _ _ _ _ _ _) as [res self3]. simpl in Hn3, Hc3 |- *.
  subst res. intros [= <-].
  destruct (counted_trans _ _ _ _ _ _ Hc1 (counted_trans _ _ _ _ _ _ Hc2 Hc3))
    as (l' & E & ->).
  now rewrite (added_grows _ _ _ E).
Qed.

End CountFacts.

Lemma trades_executed_counts_model_trades_witness :
  let r :=
    trade_on_predictions sample_uuid sample_now store_accepts no_rounding
      [btc_buy] [] [gbpusd_quote] holding_gbpusd in
  fst r = Ok 1%nat
  /\ map t_exitReason (added holding_gbpusd (snd r))
     = [Some "TAKE_PROFIT"; None]
  /\ 1%nat = List.length (filter model_trade (added holding_gbpusd (snd r))).
Proof.
  intros r.
  assert (H : fst r = Ok 1%nat) by reflexivity.
  split; [exact H|]. split; [reflexivity|].
  exact (trades_executed_counts_model_trades sample_uuid sample_now
           store_accepts no_rounding [btc_buy] [] [gbpusd_quote]
           holding_gbpusd 1 H).
Defined.

(** ** No second lot on a symbol *)

Lemma buys_for_none s l : Forall (not_buy_on s) l -> buys_for s l = [].
Proof.
  induction 1 as [|t l Ht _ IH]; simpl; [reflexivity|].
  unfold not_buy_on in Ht. now rewrite Ht.
Qed.

Lemma buys_for_app s l1 l2 :
  buys_for s (l1 ++ l2) = (buys_for s l1 ++ buys_for s l2)%list.
Proof. apply filter_app. Qed.

Lemma buys_for_one s t : (List.length (buys_for s [t]) <= 1)%nat.
Proof. unfold buys_for. simpl. destruct (_ && _); simpl; lia. Qed.

Section EntryFacts.
Variable uuid_of : nat -> string.
Variable now_of : nat -> string.
Variable put_item_ok : item -> bool.
Variable fl : Q -> Q.
Variable s : string.

Local Abbreviation execute := (execute_trade uuid_of now_of put_item_ok).
Local Abbreviation entries := (entry_phase uuid_of now_of put_item_ok).

Lemma execute_trade_other_buy p self :
  p_symbol p <> s -> extends (not_buy_on s) self (snd (execute p self)).
Proof.
  intros Hne. apply execute_trade_extends; intros; unfold not_buy_on; simpl.
  - now apply String.eqb_neq.
  - reflexivity.
Qed.

(** While [s] is held the entry phase leaves its lot alone and writes no BUY
    on it. *)
Lemma entry_phase_held predictions : forall n self pos,
  dget s (portfolio self) = Some pos ->
  dget s (portfolio (snd (entries predictions n self))) = Some pos
  /\ extends (not_buy_on s) self (snd (entries predictions n self)).
Proof.
  induction predictions as [|p r IH]; intros n self pos Hpos; simpl.
  - split; [assumption|apply extends_refl].
  - unfold bind, gets.
    destruct (should_trade self p) eqn:Est; [|now apply IH].
    apply should_trade_true in Est. destruct Est as (_ & _ & _ & Hfree).
    assert (Hne : p_symbol p <> s) by (intros Heq; congruence).
    destruct (execute_trade_other uuid_of now_of put_item_ok s p self Hne)
      as [Hkeep _].
    pose proof (execute_trade_other_buy p self Hne) as Hext.
    destruct (execute_trade_ok uuid_of now_of put_item_ok p self) as [b Hb].
    destruct (execute p self) as [res self1]. simpl in Hb, Hkeep, Hext.
    subst res.
    destruct (IH (if b then S n else n) self1 pos) as [H1 H2]; [congruence|].
    split; [assumption|]. eapply extends_trans; eassumption.
Qed.

Lemma entry_phase_one_buy predictions : forall n self,
  exists l,
    trading_table (snd (entries predictions n self))
    = (trading_table self ++ l)%list
    /\ (List.length (buys_for s l) <= 1)%nat.
Proof.
  induction predictions as [|p r IH]; intros n self; simpl.
  - exists []. rewrite app_nil_r. simpl. split; [reflexivity|lia].
  - unfold bind, gets.
    destruct (should_trade self p) eqn:Est; [|apply IH].
    apply should_trade_true in Est. destruct Est as (Hsig & _ & _ & Hfree).
    destruct (String.eqb_spec (p_symbol p) s) as [Heq|Hne].
    + rewrite execute_trade_eq, Hsig.
      destruct (Qeq_bool (p_current_price p) 0); cbn [fst snd]; [apply IH|].
      cbv zeta.
      match goal with |- context [entries r ?n' ?st] =>
        destruct (entry_phase_held r n' st
                    (bought_position uuid_of now_of p self))
          as [_ (l & El & Hl)]
      end.
      { simpl. rewrite Heq. apply dget_dset_eq. }
      rewrite El. cbn [after_trade trading_table].
      match goal with |- context [put_item_ok ?t] =>
        destruct (put_item_ok t); [exists (t :: l)|exists l]
      end.
      * rewrite <- app_assoc. split; [reflexivity|].
        match goal with |- context [buys_for s (?t :: l)] =>
          change (t :: l) with ([t] ++ l)%list;
          rewrite buys_for_app, (buys_for_none s l Hl), app_nil_r;
          apply buys_for_one
        end.
      * split; [reflexivity|]. rewrite (buys_for_none s l Hl). simpl. lia.
    + pose proof (execute_trade_other_buy p self Hne) as (l1 & E1 & Hl1).
      destruct (execute_trade_ok uuid_of now_of put_item_ok p self) as [b Hb].
      destruct (execute p self) as [res self1]. simpl in Hb, E1. subst res.
      destruct (IH (if b then S n else n) self1) as (l & El & Hl).
      exists (l1 ++ l)%list. rewrite El, E1, <- app_assoc.
      split; [reflexivity|].
      rewrite buys_for_app, (buys_for_none s l1 Hl1). exact Hl.
Qed.

End EntryFacts.

(** X6.  The entry phase never adds to a position: the lot of a symbol held
    when the phase begins is still there, unchanged, when it ends, and no
    BUY item is written on that symbol; and on any symbol the phase writes
    at most one BUY item, however many BUY predictions name it. *)
Theorem no_second_lot (uuid_of now_of : nat -> string)
    (put_item_ok : item -> bool) (predictions : list prediction) (n : nat)
    (self : trader) (s : string) :
  let self' := snd (entry_phase uuid_of now_of put_item_ok predictions n self) in
  (List.length (buys_for s (added self self')) <= 1)%nat
  /\ forall pos,
       dget s (portfolio self) = Some pos ->
       dget s (portfolio self') = Some pos
       /\ buys_for s (added self self') = [].
Proof.
  intros self'. subst self'. split.
  - destruct (entry_phase_one_buy uuid_of now_of put_item_ok s predictions
                n self) as (l & El & Hl).
    now rewrite (added_grows _ _ _ El).
  - intros pos Hpos.
    destruct (entry_phase_held uuid_of now_of put_item_ok s predictions
                n self pos Hpos) as [Hkeep (l & El & Hl)].
    split; [exact Hkeep|].
    rewrite (added_grows _ _ _ El). now apply buys_for_none.
Qed.

Lemma no_second_lot_witness :
  let self' :=
    snd (entry_phase sample_uuid sample_now store_accepts
           [btc_buy; btc_buy] 0 holding_eurusd) in
  List.length (buys_for "BTC" (added holding_eurusd self')) = 1%nat
  /\ dget "EURUSD" (portfolio self') = Some eurusd_lot
  /\ buys_for "EURUSD" (added holding_eurusd self') = [].
Proof.
  intros self'. split; [reflexivity|].
  exact (proj2 (no_second_lot sample_uuid sample_now store_accepts
                  [btc_buy; btc_buy] 0 holding_eurusd "EURUSD")
           eurusd_lot eq_refl).
Defined.

(** ** The items written replay to the trades made *)

Lemma for_each_app {X : Type} (f : X -> M unit) l1 l2 self :
  for_each (l1 ++ l2) f self =
    match for_each l1 f self with
    | (Ok _, self1) => for_each l2 f self1
    | (Raise e, self1) => (Raise e, self1)
    end.
Proof.
  revert self. induction l1 as [|x r IH]; intros self; simpl.
  - reflexivity.
  - unfold bind. destruct (f x self) as [[[]|e] self1]; [apply IH|reflexivity].
Qed.

Lemma agrees_refl self : agrees self self.
Proof.
  split; [reflexivity|]. intros s.
  destruct (dget s (portfolio self)); [repeat split|trivial].
Qed.

Lemma replayable_refl self : replayable self self.
Proof.
  exists []. rewrite app_nil_r. split; [reflexivity|].
  intros a Ha. exists a. split; [reflexivity|assumption].
Qed.

Lemma replayable_trans s1 s2 s3 :
  replayable s1 s2 -> replayable s2 s3 -> replayable s1 s3.
Proof.
  intros (l1 & E1 & H1) (l2 & E2 & H2). exists (l1 ++ l2)%list.
  rewrite E2, E1, app_assoc. split; [reflexivity|].
  intros a Ha. destruct (H1 a Ha) as (a1 & R1 & A1).
  destruct (H2 a1 A1) as (a2 & R2 & A2).
  exists a2. rewrite for_each_app, R1. auto.
Qed.

Lemma replayable_same self self' :
  trading_table self' = trading_table self ->
  portfolio self' = portfolio self ->
  wallet_balance self' = wallet_balance self ->
  replayable self self'.
Proof.
  intros Et Ep Ew. exists []. rewrite app_nil_r. split; [exact Et|].
  intros a [Hw Hp]. exists a. split; [reflexivity|].
  split; [now rewrite Ew|]. intros s. rewrite Ep. apply Hp.
Qed.

Section RoundTripFacts.
Variable uuid_of : nat -> string.
Variable now_of : nat -> string.
Variable put_item_ok : item -> bool.
Variable fl : Q -> Q.
Hypothesis put_item_accepts : forall t, put_item_ok t = true.

Local Abbreviation execute := (execute_trade uuid_of now_of put_item_ok).
Local Abbreviation close := (close_position uuid_of now_of put_item_ok).
Local Abbreviation exits := (exit_phase uuid_of now_of put_item_ok).
Local Abbreviation entries := (entry_phase uuid_of now_of put_item_ok).

(** The replay of a stored SELL item undoes the lot as the sale did. *)
Lemma sold_replayable symbol market_type price reason position self n :
  dget symbol (portfolio self) = Some position ->
  replayable self
    (after_trade self (ddel symbol (portfolio self))
       (wallet_balance self + price * pos_quantity position)
       (sold_item uuid_of now_of symbol market_type price reason position self)
       n true).
Proof.
  intros Hpos. eexists [_]. split; [reflexivity|].
  intros a [Hw Hp]. simpl for_each. unfold bind.
  assert (Hmem : dmem symbol (portfolio a) = true).
  { specialize (Hp symbol). rewrite Hpos in Hp. unfold dmem.
    destruct (dget symbol (portfolio a)); [reflexivity|contradiction]. }
  rewrite (replay_trade_sell_open _ a symbol (pos_quantity position) price)
    by (trivial; reflexivity).
  eexists. split; [reflexivity|]. split.
  - simpl. rewrite Hw. reflexivity.
  - intros s. simpl.
    destruct (String.eqb_spec symbol s) as [<-|Hne].
    + now rewrite !dget_ddel_eq.
    + rewrite !dget_ddel_neq by assumption. apply Hp.
Qed.

(** The replay of a stored BUY item opens the lot that the purchase
    opened. *)
Lemma bought_replayable p self :
  ~ p_current_price p == 0 ->
  replayable self
    (after_trade self
       (dset (p_symbol p) (bought_position uuid_of now_of p self)
          (portfolio self))
       (wallet_balance self - position_size_of p self)
       (bought_item uuid_of now_of p self) 3 true).
Proof.
  intros Hprice. eexists [_]. split; [reflexivity|].
  intros a [Hw Hp]. simpl for_each. unfold bind.
  rewrite (replay_trade_buy _ a (p_symbol p)
             (position_size_of p self / p_current_price p)
             (p_current_price p) (uuid_of (ticks self)))
    by reflexivity.
  eexists. split; [reflexivity|]. split.
  - simpl. rewrite Hw. field. exact Hprice.
  - intros s. simpl.
    destruct (String.eqb_spec (p_symbol p) s) as [<-|Hne].
    + rewrite !dget_dset_eq. repeat split.
    + rewrite !dget_dset_neq by assumption. apply Hp.
Qed.

Lemma execute_trade_replayable p self :
  replayable self (snd (execute p self)).
Proof.
  rewrite execute_trade_eq. destruct (p_signal p).
  - destruct (Qeq_bool (p_current_price p) 0) eqn:E0;
      [apply replayable_refl|].
    cbv zeta. rewrite put_item_accepts. cbn [snd].
    apply bought_replayable. now apply Qeq_bool_neq.
  - destruct (dget _ _) as [position|] eqn:Ek; [|apply replayable_refl].
    destruct (Qeq_bool _ 0); [apply replayable_refl|].
    cbv zeta. rewrite put_item_accepts. cbn [snd].
    now apply sold_replayable.
  - apply replayable_refl.
Qed.

Lemma close_position_replayable k price reason self :
  replayable self (snd (close k price reason self)).
Proof.
  rewrite close_position_eq.
  destruct (dget k (portfolio self)) as [position|] eqn:Ek;
    [|apply replayable_refl].
  destruct (Qeq_bool _ 0); [apply replayable_refl|].
  cbv zeta. rewrite put_item_accepts. cbn [snd].
  now apply sold_replayable.
Qed.

Lemma exit_phase_replayable predictions : forall n self,
  replayable self (snd (exits predictions n self)).
Proof.
  induction predictions as [|p r IH]; intros n self; simpl.
  - apply replayable_refl.
  - unfold bind, gets.
    destruct (p_signal p); try apply IH.
    destruct (dmem _ _ && _); [|apply IH].
    pose proof (execute_trade_replayable p self) as Hstep.
    destruct (execute_trade_ok uuid_of now_of put_item_ok p self) as [b Hb].
    destruct (execute p self) as [res self1]. simpl in Hb, Hstep. subst res.
    eapply replayable_trans; [exact Hstep|apply IH].
Qed.

Lemma entry_phase_replayable predictions : forall n self,
  replayable self (snd (entries predictions n self)).
Proof.
  induction predictions as [|p r IH]; intros n self; simpl.
  - apply replayable_refl.
  - unfold bind, gets.
    destruct (should_trade self p); [|apply IH].
    pose proof (execute_trade_replayable p self) as Hstep.
    destruct (execute_trade_ok uuid_of now_of put_item_ok p self) as [b Hb].
    destruct (execute p self) as [res self1]. simpl in Hb, Hstep. subst res.
    eapply replayable_trans; [exact Hstep|apply IH].
Qed.

Lemma close_all_replayable l : forall self,
  replayable self
    (snd (for_each l
            (fun '(symbol, price, reason) => close symbol price reason) self)).
Proof.
  induction l as [|[[k price] reason] r IH]; intros self; simpl.
  - apply replayable_refl.
  - unfold bind.
    pose proof (close_position_ok uuid_of now_of put_item_ok k price reason self)
      as Hok.
    pose proof (close_position_replayable k price reason self) as Hstep.
    destruct (close k price reason self) as [res self1].
    simpl in Hok, Hstep. subst res.
    eapply replayable_trans; [exact Hstep|apply IH].
Qed.

Lemma trade_on_predictions_replayable predictions crypto_data forex_data self :
  replayable self
    (snd (trade_on_predictions uuid_of now_of put_item_ok fl predictions
            crypto_data forex_data self)).
Proof.
  unfold trade_on_predictions, bind.
  pose proof (exit_phase_replayable predictions 0%nat self) as H1.
  destruct (exit_phase_ok uuid_of now_of put_item_ok predictions 0%nat self)
    as [n1 Hn1].
  destruct (exit_phase _ _ _ _ _ _) as [res self1]. simpl in Hn1, H1.
  subst res.
  rewrite (check_exit_conditions_eq uuid_of now_of put_item_ok fl).
  destruct (fst (exit_scan fl _ _ _ _)) as [l|e]; [|exact H1].
  pose proof (close_all_replayable l self1) as H2.
  pose proof (close_all_ok uuid_of now_of put_item_ok l self1) as Hok.
  destruct (for_each l _ self1) as [res self2]. simpl in Hok, H2. subst res.
  eapply replayable_trans; [exact H1|].
  eapply replayable_trans; [exact H2|apply entry_phase_replayable].
Qed.

End RoundTripFacts.

(** X7.  When the trading table accepts every item and no prediction is
    at a price of 0, the items written by the three phases, replayed in the
    order written with the loop body of [load_portfolio_state] from the
    state in which the phases began, are all read without error and lead to
    the cash balance and, symbol by symbol, to the lots (quantity, entry
    price, trade id, market type) that the phases left in memory. *)
Theorem session_items_replay_to_session_state (uuid_of now_of : nat -> string)
    (put_item_ok : item -> bool) (fl : Q -> Q)
    (predictions : list prediction)
    (crypto_data forex_data : list quote) (self : trader) :
  (forall t, put_item_ok t = true) ->
  Forall (fun p => ~ p_current_price p == 0) predictions ->
  let self' :=
    snd (trade_on_predictions uuid_of now_of put_item_ok fl predictions
           crypto_data forex_data self) in
  exists replayed,
    for_each (added self self') replay_trade self = (Ok tt, replayed)
    /\ agrees replayed self'.
Proof.
  intros Hput _ self'.
  destruct (trade_on_predictions_replayable uuid_of now_of put_item_ok fl Hput
              predictions crypto_data forex_data self) as (l & El & Hl).
  fold self' in El, Hl. rewrite (added_grows _ _ _ El).
  apply Hl, agrees_refl.
Qed.

Lemma session_items_replay_to_session_state_witness :
  let self' :=
    snd (trade_on_predictions sample_uuid sample_now store_accepts no_rounding
           [eurusd_sell; btc_buy] [] [eurusd_quote] holding_eurusd) in
  List.length (added holding_eurusd self') = 2%nat
  /\ exists replayed,
       for_each (added holding_eurusd self') replay_trade holding_eurusd
       = (Ok tt, replayed)
       /\ agrees replayed self'.
Proof.
  intros self'. split; [reflexivity|].
  apply (session_items_replay_to_session_state sample_uuid sample_now
           store_accepts no_rounding [eurusd_sell; btc_buy] [] [eurusd_quote]
           holding_eurusd (fun _ => eq_refl)).
  repeat constructor; intros Hz; vm_compute in Hz; discriminate Hz.
Defined.

(** ** The lots the risk monitor closes *)

Lemma In_dget_Some {V : Type} (k : string) (v : V) (d : dict V) :
  well_keyed d -> In (k, v) d -> dget k d = Some v.
Proof.
  unfold well_keyed. induction d as [|[k0 v0] r IH]; simpl; [contradiction|].
  intros Hnd Hin. inversion Hnd as [|? ? Hk0 Hr]; subst.
  destruct Hin as [[= -> ->]|Hin].
  - now rewrite String.eqb_refl.
  - destruct (String.eqb_spec k k0) as [->|Hne]; [|auto].
    exfalso. apply Hk0. apply (in_map fst) in Hin. exact Hin.
Qed.

Section RiskExitFacts.
Variable uuid_of : nat -> string.
Variable now_of : nat -> string.
Variable put_item_ok : item -> bool.
Variable fl : Q -> Q.
Variable all_data : dict quote.

Local Abbreviation close := (close_position uuid_of now_of put_item_ok).

Lemma exit_scan_due items : forall acc self,
  (forall k pos, In (k, pos) items -> ~ pos_entry_price pos == 0) ->
  exit_scan fl all_data items acc self
  = (Ok (acc ++ due_list fl all_data items)%list, self).
Proof.
  induction items as [|[k pos] r IH]; intros acc self Hp; simpl.
  - now rewrite app_nil_r.
  - assert (Hr : forall k pos, In (k, pos) r -> ~ pos_entry_price pos == 0)
      by (intros; eapply Hp; right; eassumption).
    unfold exit_due, float_pnl.
    destruct (dget k all_data) as [data|]; [|now apply IH].
    run. rewrite (Qeq_bool_false _ (Hp k pos (or_introl eq_refl))).
    destruct (Qle_bool _ (- fl stop_loss_pct)).
    + rewrite IH by assumption. now rewrite <- app_assoc.
    + destruct (Qge_bool _ (fl take_profit_pct)).
      * rewrite IH by assumption. now rewrite <- app_assoc.
      * now apply IH.
Qed.

(** Closing the due lots of [items], all still held: each is removed and
    paid for, the other symbols are left alone. *)
Lemma close_due items : forall self,
  NoDup (map fst items) ->
  (forall k pos, In (k, pos) items ->
     dget k (portfolio self) = Some pos /\ ~ pos_entry_price pos == 0) ->
  let self' :=
    snd (for_each (due_list fl all_data items)
           (fun '(symbol, price, reason) => close symbol price reason) self) in
  wallet_balance self' == wallet_balance self + exit_proceeds fl all_data items
  /\ forall s,
       dget s (portfolio self')
       = if existsb
              (fun '(k, pos) =>
                 String.eqb k s
                 && match exit_due fl all_data k pos with
                    | Some _ => true
                    | None => false
                    end) items
         then None
         else dget s (portfolio self).
Proof.
  induction items as [|[k pos] r IH]; intros self Hnd Hheld; simpl.
  - split; [lra|reflexivity].
  - inversion Hnd as [|? ? Hk Hr]; subst.
    destruct (Hheld k pos (or_introl eq_refl)) as [Hpos Hentry].
    destruct (exit_due fl all_data k pos) as [[price reason]|] eqn:Edue.
    + simpl. unfold bind.
      rewrite close_position_eq, Hpos, (Qeq_bool_false _ Hentry).
      cbv beta iota zeta.
      match goal with |- context [for_each _ _ ?st] => set (self1 := st) end.
      destruct (IH self1 Hr) as [Hw Hp].
      { intros k' pos' Hin. destruct (Hheld k' pos' (or_intror Hin)) as [H1 H2].
        split; [|exact H2]. subst self1. simpl.
        rewrite dget_ddel_neq; [exact H1|].
        intros ->. apply Hk. apply (in_map fst) in Hin. exact Hin. }
      split.
      * rewrite Hw. subst self1. simpl. lra.
      * intros s. rewrite Hp. subst self1. simpl.
        destruct (String.eqb_spec k s) as [<-|Hne]; simpl.
        -- rewrite dget_ddel_eq. now destruct (existsb _ r).
        -- now rewrite dget_ddel_neq.
    + simpl. destruct (IH self Hr) as [Hw Hp].
      { intros k' pos' Hin. apply Hheld. now right. }
      split; [exact Hw|].
      intros s. rewrite Hp. now rewrite andb_false_r.
Qed.

End RiskExitFacts.

(** X8.  On a portfolio whose lots all have a non-zero entry price,
    [check_exit_conditions] closes exactly the lots whose symbol is quoted
    with a P&L ratio, as the floats give it, at or below minus
    [stop_loss_pct] or at or above [take_profit_pct]: those symbols are no
    longer held, every other lot is left as it was, and the wallet is
    credited with quoted price times quantity for each lot closed, whether
    or not the items could be written. *)
Theorem risk_monitor_closes_due_lots (uuid_of now_of : nat -> string)
    (put_item_ok : item -> bool) (fl : Q -> Q)
    (crypto_data forex_data : list quote)
    (self : trader) :
  well_keyed (portfolio self) -> priced self ->
  let all_data := by_symbol (crypto_data ++ forex_data) in
  let self' :=
    snd (check_exit_conditions uuid_of now_of put_item_ok fl
           crypto_data forex_data self) in
  wallet_balance self'
    == wallet_balance self + exit_proceeds fl all_data (portfolio self)
  /\ forall s,
       dget s (portfolio self')
       = match dget s (portfolio self) with
         | Some pos =>
             match exit_due fl all_data s pos with
             | Some _ => None
             | None => Some pos
             end
         | None => None
         end.
Proof.
  intros Hwk Hp all_data self'. subst self'.
  rewrite check_exit_conditions_eq. fold all_data.
  rewrite (exit_scan_due fl all_data (portfolio self) [] self Hp).
  cbn [fst app].
  destruct (close_due uuid_of now_of put_item_ok fl all_data (portfolio self)
              self Hwk) as [Hw Hpf].
  { intros k pos Hin. split; [now apply In_dget_Some|eauto]. }
  split; [exact Hw|].
  intros s. rewrite Hpf. clear Hw Hpf.
  destruct (existsb _ _) eqn:E.
  - apply existsb_exists in E. destruct E as ([k pos] & Hin & Hb).
    apply andb_prop in Hb. destruct Hb as [Hk Hd].
    apply String.eqb_eq in Hk. subst k.
    rewrite (In_dget_Some s pos _ Hwk Hin).
    now destruct (exit_due fl all_data s pos).
  - destruct (dget s (portfolio self)) as [pos|] eqn:Es; [|reflexivity].
    destruct (exit_due fl all_data s pos) eqn:Ed; [|reflexivity].
    exfalso. apply dget_In in Es.
    assert (Hex : existsb
                    (fun '(k, pos) =>
                       String.eqb k s
                       && match exit_due fl all_data k pos with
                          | Some _ => true
                          | None => false
                          end) (portfolio self) = true).
    { apply existsb_exists. exists (s, pos). split; [exact Es|].
      now rewrite String.eqb_refl, Ed. }
    congruence.
Qed.

Lemma risk_monitor_closes_due_lots_witness :
  let self' :=
    snd (check_exit_conditions sample_uuid sample_now store_accepts
           no_rounding [] [gbpusd_quote] holding_gbpusd) in
  well_keyed (portfolio holding_gbpusd) /\ priced holding_gbpusd
  /\ wallet_balance self' == 37.5 + 1.5 * 10
  /\ dget "GBPUSD" (portfolio self') = None.
Proof.
  intros self'.
  assert (H1 : well_keyed (portfolio holding_gbpusd)).
  { repeat constructor. simpl. tauto. }
  assert (H2 : priced holding_gbpusd).
  { intros k pos [[= <- <-]|[]] Hz. vm_compute in Hz. discriminate Hz. }
  destruct (risk_monitor_closes_due_lots sample_uuid sample_now store_accepts
              no_rounding [] [gbpusd_quote] holding_gbpusd H1 H2)
    as [Hw Hpf].
  split; [exact H1|]. split; [exact H2|]. split.
  - fold self' in Hw. rewrite Hw. vm_compute. reflexivity.
  - exact (Hpf "GBPUSD").
Defined.

(** ** The portfolio value across a trade *)

Lemma calculate_portfolio_value_eq self :
  calculate_portfolio_value self
  == wallet_balance self
     + positions_value (current_market_prices self) (portfolio self).
Proof.
  unfold calculate_portfolio_value.
  generalize (wallet_balance self) as acc.
  induction (portfolio self) as [|[k pos] r IH]; intros acc; simpl.
  - lra.
  - rewrite IH. unfold mark. lra.
Qed.

Lemma positions_value_app prices pf1 pf2 :
  positions_value prices (pf1 ++ pf2)%list
  == positions_value prices pf1 + positions_value prices pf2.
Proof.
  induction pf1 as [|[k pos] r IH]; simpl; [lra|]. rewrite IH. lra.
Qed.

Lemma dset_absent {V : Type} (k : string) (v : V) (d : dict V) :
  dget k d = None -> dset k v d = (d ++ [(k, v)])%list.
Proof.
  induction d as [|[k0 v0] r IH]; simpl; [reflexivity|].
  destruct (String.eqb k k0); [discriminate|].
  intros H. now rewrite IH.
Qed.

Lemma dget_absent {V : Type} (k : string) (d : dict V) :
  ~ In k (map fst d) -> dget k d = None.
Proof.
  induction d as [|[k0 v0] r IH]; simpl; [reflexivity|].
  intros H. destruct (String.eqb_spec k k0) as [->|Hne]; [tauto|].
  apply IH. tauto.
Qed.

Lemma positions_value_ddel prices k pos pf :
  well_keyed pf -> dget k pf = Some pos ->
  positions_value prices (ddel k pf)
  == positions_value prices pf - pos_quantity pos * mark prices k pos.
Proof.
  unfold well_keyed. induction pf as [|[k0 v0] r IH]; simpl; [discriminate|].
  intros Hnd Hget. inversion Hnd as [|? ? Hk0 Hr]; subst.
  destruct (String.eqb_spec k k0) as [->|Hne].
  - injection Hget as ->.
    rewrite (ddel_absent k0 r (dget_absent k0 r Hk0)). lra.
  - simpl. rewrite IH by assumption. lra.
Qed.

(** X9.  A BUY that passes [should_trade] and is executed at a non-zero
    price changes the portfolio value by quantity times (mark minus price),
    the mark being the current market price of the symbol, or the entry
    price when there is none: bought at its mark, the lot leaves the
    portfolio value and the total P&L as they were. *)
Theorem buy_keeps_portfolio_value (INITIAL_BALANCE : Q)
    (uuid_of now_of : nat -> string) (put_item_ok : item -> bool)
    (p : prediction) (self : trader) :
  should_trade self p = true -> ~ p_current_price p == 0 ->
  let self' := snd (execute_trade uuid_of now_of put_item_ok p self) in
  let lot := bought_position uuid_of now_of p self in
  let m := mark (current_market_prices self) (p_symbol p) lot in
  calculate_portfolio_value self'
    == calculate_portfolio_value self
       + pos_quantity lot * (m - p_current_price p)
  /\ (m == p_current_price p ->
      calculate_portfolio_value self' == calculate_portfolio_value self
      /\ calculate_total_pnl INITIAL_BALANCE self'
         == calculate_total_pnl INITIAL_BALANCE self).
Proof.
  intros Hst Hprice self' lot m.
  apply should_trade_true in Hst. destruct Hst as (Hsig & _ & _ & Hfree).
  assert (Hval : calculate_portfolio_value self'
                 == calculate_portfolio_value self
                    + pos_quantity lot * (m - p_current_price p)).
  { subst self'. rewrite execute_trade_eq, Hsig, (Qeq_bool_false _ Hprice).
    cbv zeta. cbn [snd]. rewrite !calculate_portfolio_value_eq.
    cbn [after_trade portfolio wallet_balance current_market_prices].
    rewrite (dset_absent _ _ _ Hfree), positions_value_app. simpl.
    fold lot. fold m.
    assert (Hq : pos_quantity lot * p_current_price p
                 == position_size_of p self)
      by (subst lot; simpl; field; exact Hprice).
    change (pos_quantity lot)
      with (position_size_of p self / p_current_price p) in *.
    set (q := position_size_of p self / p_current_price p) in *.
    rewrite <- Hq. ring. }
  split; [exact Hval|].
  intros Hm. split.
  - rewrite Hval, Hm. lra.
  - unfold calculate_total_pnl. rewrite Hval, Hm. lra.
Qed.

Lemma buy_keeps_portfolio_value_witness :
  let self' :=
    snd (execute_trade sample_uuid sample_now store_accepts btc_buy
           holding_eurusd) in
  should_trade holding_eurusd btc_buy = true
  /\ calculate_portfolio_value self'
     == calculate_portfolio_value holding_eurusd.
Proof.
  intros self'.
  assert (H1 : should_trade holding_eurusd btc_buy = true) by reflexivity.
  assert (H2 : ~ p_current_price btc_buy == 0)
    by (intros H; vm_compute in H; discriminate H).
  split; [exact H1|].
  apply (proj2 (buy_keeps_portfolio_value 50 sample_uuid sample_now
                  store_accepts btc_buy holding_eurusd H1 H2)).
  reflexivity.
Defined.

(** X10.  Closing a lot, by [close_position] or by [execute_trade] on a
    SELL, changes the portfolio value by quantity times (price minus mark):
    sold at its mark, the lot leaves the portfolio value as it was, whether
    or not the item could be written. *)
Theorem sell_keeps_portfolio_value (uuid_of now_of : nat -> string)
    (put_item_ok : item -> bool) (self : trader) (symbol : string)
    (pos : position) :
  well_keyed (portfolio self) ->
  dget symbol (portfolio self) = Some pos ->
  ~ pos_entry_price pos == 0 ->
  let m := mark (current_market_prices self) symbol pos in
  (forall price reason,
     calculate_portfolio_value
       (snd (close_position uuid_of now_of put_item_ok symbol price reason
               self))
     == calculate_portfolio_value self + pos_quantity pos * (price - m))
  /\ (forall p,
        p_symbol p = symbol -> p_signal p = SELL ->
        calculate_portfolio_value
          (snd (execute_trade uuid_of now_of put_item_ok p self))
        == calculate_portfolio_value self
           + pos_quantity pos * (p_current_price p - m)).
Proof.
  intros Hwk Hpos Hentry m. split.
  - intros price reason.
    rewrite close_position_eq, Hpos, (Qeq_bool_false _ Hentry).
    cbv zeta. cbn [snd]. rewrite !calculate_portfolio_value_eq.
    cbn [after_trade portfolio wallet_balance current_market_prices].
    rewrite (positions_value_ddel _ symbol pos _ Hwk Hpos). fold m. lra.
  - intros p Hsym Hsig.
    rewrite execute_trade_eq, Hsig, Hsym, Hpos, (Qeq_bool_false _ Hentry).
    cbv zeta. cbn [snd]. rewrite !calculate_portfolio_value_eq.
    cbn [after_trade portfolio wallet_balance current_market_prices].
    rewrite (positions_value_ddel _ symbol pos _ Hwk Hpos). fold m. lra.
Qed.

Lemma sell_keeps_portfolio_value_witness :
  calculate_portfolio_value
    (snd (close_position sample_uuid sample_now store_accepts "EURUSD" 1.21
            "TAKE_PROFIT" holding_eurusd))
  == calculate_portfolio_value holding_eurusd + 10 * (1.21 - 1.1).
Proof.
  assert (H1 : well_keyed (portfolio holding_eurusd)).
  { repeat constructor. simpl. tauto. }
  assert (H3 : ~ pos_entry_price eurusd_lot == 0)
    by (intros H; vm_compute in H; discriminate H).
  exact (proj1 (sell_keeps_portfolio_value sample_uuid sample_now
                  store_accepts holding_eurusd "EURUSD" eurusd_lot
                  H1 eq_refl H3) 1.21 "TAKE_PROFIT").
Defined.

(** ** The signal evaluator *)

Lemma Qlt_bool_iff a b : Qlt_bool a b = true <-> a < b.
Proof.
  unfold Qlt_bool. rewrite negb_true_iff.
  destruct (Qle_bool b a) eqn:E.
  - apply Qle_bool_iff in E. split; [discriminate|lra].
  - split; [intros _|reflexivity].
    apply Qnot_le_lt. intros H. apply Qle_bool_iff in H. congruence.
Qed.

Lemma Qlt_bool_false a b : Qlt_bool a b = false -> b <= a.
Proof.
  unfold Qlt_bool. rewrite negb_false_iff. apply Qle_bool_iff.
Qed.

Lemma rounding_no_rounding : rounding no_rounding.
Proof.
  unfold rounding, no_rounding. repeat split; auto; reflexivity.
Qed.

(** A decimal between 0 and 1 rounds to a double between 0 and 1. *)
Lemma rounding_unit fl c : rounding fl -> 0 <= c <= 1 -> 0 <= fl c <= 1.
Proof.
  intros (Hmono & H0 & H1) [Hc0 Hc1]. split.
  - rewrite <- H0. now apply Hmono.
  - rewrite <- H1. now apply Hmono.
Qed.

Section PredictionFacts.
Variable fl : Q -> Q.
Variable rf_pred : nat -> quote -> result Q.
Variable gb_pred : nat -> quote -> result Q.

Local Abbreviation one := (predict_one fl rf_pred gb_pred).
Local Abbreviation loop := (predict_loop fl rf_pred gb_pred).
Local Abbreviation follows := (made_from fl rf_pred gb_pred).
Local Abbreviation ends := (stops rf_pred gb_pred).

(** The confidence computed from a predicted change. *)
Lemma confidence_unit (x : xfloat) (s : Q) :
  rounding fl -> 0 <= s ->
  unit_confidence (xmin (xscale fl (xabs x) s) 1).
Proof.
  intros (Hmono & H0 & _) Hs.
  destruct x as [q| | |]; unfold xmin; simpl; try (split; lra); trivial.
  destruct (Qlt_bool 1 (fl (Qabs q * s))) eqn:E; simpl.
  - split; lra.
  - apply Qlt_bool_false in E. split; [|exact E].
    rewrite <- H0. apply Hmono.
    apply Qmult_le_0_compat; [apply Qabs_nonneg|exact Hs].
Qed.

Lemma xmax_unit (x : xfloat) (c : Q) :
  unit_confidence x -> 0 <= c <= 1 -> unit_confidence (xmax x c).
Proof.
  intros Hx Hc. unfold xmax. now destruct (xlt x c).
Qed.

(** After a predicted decline the confidence is a number, at least [c]. *)
Lemma xmax_floor (pc : xfloat) (s d c : Q) :
  xlt pc d = true ->
  exists v, xmax (xmin (xscale fl (xabs pc) s) 1) c = Fin v /\ c <= v.
Proof.
  intros Hpc.
  assert (Hfin : exists v, xmin (xscale fl (xabs pc) s) 1 = Fin v).
  { destruct pc as [q| | |]; try discriminate; unfold xmin; simpl.
    - destruct (Qlt_bool 1 _); eauto.
    - eauto. }
  destruct Hfin as [v ->]. unfold xmax. simpl.
  destruct (Qlt_bool v c) eqn:E.
  - exists c. split; [reflexivity|lra].
  - exists v. split; [reflexivity|]. now apply Qlt_bool_false.
Qed.

(** When the loop body raises. *)
Lemma predict_one_raises ac pf i d :
  (exists e, one ac pf i d = Raise e) <-> ends pf i d.
Proof.
  unfold predict_one, stops, raises.
  destruct (rf_pred i d) as [rf|e1]; [|split; eauto].
  destruct (gb_pred i d) as [gb|e2]; [|split; eauto].
  assert (Hno : forall A (a : A), ~ (exists e, Ok a = Raise e))
    by (intros A a [e H]; discriminate H).
  destruct (dget (m_symbol d) pf) as [pos|].
  - destruct (Qeq_bool (pos_entry_price pos) 0) eqn:E.
    + apply Qeq_bool_iff in E. split; [|eauto].
      intros _. right. right. exists pos. auto.
    + assert (Hpos : ~ pos_entry_price pos == 0).
      { intros H. apply Qeq_bool_iff in H. congruence. }
      split.
      * intros H. exfalso. revert H.
        destruct (xlt _ _); [apply Hno|].
        destruct (Qge_bool _ _); [apply Hno|].
        destruct (Qle_bool _ _); apply Hno.
      * intros [H|[H|(pos' & [= <-] & H)]];
          [exfalso; exact (Hno _ _ H)|exfalso; exact (Hno _ _ H)
          |contradiction].
  - split.
    + intros H. exfalso. revert H.
      destruct (xgt _ _); [apply Hno|].
      destruct (xlt _ _); apply Hno.
    + intros [H|[H|(pos' & H & _)]];
        [exfalso; exact (Hno _ _ H)|exfalso; exact (Hno _ _ H)|discriminate].
Qed.

(** What the loop body puts in a prediction. *)
Lemma predict_one_facts ac pf i d f :
  rounding fl -> 0 <= ac_sensitivity ac ->
  one ac pf i d = Ok f ->
  fc_symbol f = m_symbol d /\ fc_market_type f = ac_market_type ac
  /\ fc_current_price f = m_price d
  /\ unit_confidence (fc_confidence f)
  /\ (forall pos,
        dget (m_symbol d) pf = Some pos ->
        fc_signal f <> BUY
        /\ (fc_signal f = SELL ->
            exists c, fc_confidence f = Fin c /\ fl 0.7 <= c)
        /\ (fl take_profit_pct <= float_pnl fl (m_price d) pos
            \/ float_pnl fl (m_price d) pos <= - fl stop_loss_pct ->
            fc_signal f = SELL)).
Proof.
  intros Hfl Hs. unfold predict_one.
  destruct (rf_pred i d) as [rf|e1]; [|discriminate].
  destruct (gb_pred i d) as [gb|e2]; [|discriminate].
  set (ens := fl (fl (rf + gb) / 2)).
  set (pc := np_div fl (fl (ens - m_price d)) (m_price d)).
  pose proof (confidence_unit pc (ac_sensitivity ac) Hfl Hs) as Hconf.
  assert (H7 : 0 <= fl 0.7 <= 1) by (apply rounding_unit; [exact Hfl|lra]).
  assert (H9 : 0 <= fl 0.9 <= 1) by (apply rounding_unit; [exact Hfl|lra]).
  assert (H95 : 0 <= fl 0.95 <= 1) by (apply rounding_unit; [exact Hfl|lra]).
  assert (H79 : fl 0.7 <= fl 0.9) by (apply Hfl; lra).
  assert (H795 : fl 0.7 <= fl 0.95) by (apply Hfl; lra).
  destruct (dget (m_symbol d) pf) as [pos|] eqn:Epos.
  - destruct (Qeq_bool (pos_entry_price pos) 0); [discriminate|].
    fold (float_pnl fl (m_price d) pos).
    destruct (xlt pc (- fl (ac_decline ac))) eqn:Edecl;
      [|destruct (Qge_bool (float_pnl fl (m_price d) pos)
                   (fl take_profit_pct)) eqn:Etp;
        [|destruct (Qle_bool (float_pnl fl (m_price d) pos)
                     (- fl stop_loss_pct)) eqn:Esl]];
      intros [= <-];
      cbn [fc_symbol fc_market_type fc_current_price fc_confidence fc_signal];
      (split; [reflexivity|]); (split; [reflexivity|]);
      (split; [reflexivity|]).
    + split; [now apply xmax_unit|].
      intros pos' [= <-]. split; [discriminate|].
      split; [|reflexivity].
      intros _. exact (xmax_floor pc _ _ _ Edecl).
    + split; [exact H9|].
      intros pos' [= <-]. split; [discriminate|].
      split; [|reflexivity].
      intros _. exists (fl 0.9). auto.
    + split; [exact H95|].
      intros pos' [= <-]. split; [discriminate|].
      split; [|reflexivity].
      intros _. exists (fl 0.95). auto.
    + split; [exact Hconf|].
      intros pos' [= <-]. split; [discriminate|].
      split; [discriminate|].
      intros [H|H]; exfalso.
      * unfold Qge_bool in Etp. apply Qle_bool_iff in H. congruence.
      * apply Qle_bool_iff in H. congruence.
  - destruct (xgt pc (fl (ac_entry ac))); [|destruct (xlt pc _)];
      intros [= <-];
      cbn [fc_symbol fc_market_type fc_current_price fc_confidence fc_signal];
      (split; [reflexivity|]); (split; [reflexivity|]);
      (split; [reflexivity|]); (split; [exact Hconf|]); discriminate.
Qed.

(** The loop makes the predictions of the first items, up to the first
    one on which the body raises. *)
Lemma predict_loop_items ac pf : forall data i acc,
  exists made,
    loop ac pf i data acc = (acc ++ made)%list
    /\ follows ac pf i made data
    /\ (List.length made = List.length data
        \/ exists d,
             nth_error data (List.length made) = Some d
             /\ ends pf (i + List.length made) d).
Proof.
  induction data as [|d r IH]; intros i acc; simpl.
  - exists []. rewrite app_nil_r. simpl. auto.
  - destruct (one ac pf i d) as [f|e] eqn:E.
    + destruct (IH (S i) (acc ++ [f])%list) as (made & -> & Hm & Hend).
      exists (f :: made). rewrite <- app_assoc. simpl.
      split; [reflexivity|]. split; [auto|].
      destruct Hend as [Hlen|(d' & Hd' & Hstop)]; [left; congruence|].
      right. exists d'. split; [exact Hd'|].
      now rewrite Nat.add_succ_r.
    + exists []. rewrite app_nil_r. simpl.
      split; [reflexivity|]. split; [trivial|].
      right. exists d. split; [reflexivity|].
      rewrite Nat.add_0_r. apply (predict_one_raises ac). eauto.
Qed.

Lemma made_from_length ac pf : forall made i data,
  follows ac pf i made data -> (List.length made <= List.length data)%nat.
Proof.
  induction made as [|f m IH]; intros i [|d r]; simpl; try lia.
  intros [_ H]. apply IH in H. lia.
Qed.

Lemma made_from_nth ac pf : forall made i data j f,
  follows ac pf i made data -> nth_error made j = Some f ->
  exists d, nth_error data j = Some d /\ one ac pf (i + j) d = Ok f.
Proof.
  induction made as [|f0 m IH]; intros i [|d r] j f; simpl;
    try (destruct j; discriminate); try tauto.
  intros [H0 Hm]. destruct j as [|j]; simpl.
  - intros [= <-]. exists d. now rewrite Nat.add_0_r.
  - intros Hj. destruct (IH _ _ _ _ Hm Hj) as (d' & Hd' & H').
    exists d'. now rewrite Nat.add_succ_r.
Qed.

Lemma made_from_map ac pf : forall made i data,
  rounding fl -> 0 <= ac_sensitivity ac ->
  follows ac pf i made data ->
  map (fun f => (fc_symbol f, fc_current_price f)) made
  = map (fun d => (m_symbol d, m_price d)) (firstn (List.length made) data)
  /\ Forall (fun f => fc_market_type f = ac_market_type ac
                      /\ unit_confidence (fc_confidence f)) made.
Proof.
  intros made i data Hfl Hs. revert i data.
  induction made as [|f m IH]; intros i [|d r]; simpl; try tauto.
  - intros _. split; [reflexivity|constructor].
  - intros _. split; [reflexivity|constructor].
  - intros [H0 Hm]. destruct (IH _ _ Hm) as [IH1 IH2].
    destruct (predict_one_facts _ _ _ _ _ Hfl Hs H0)
      as (Hsym & Hmt & Hprice & Hconf & _).
    split; [now rewrite Hsym, Hprice, IH1|].
    constructor; auto.
Qed.

End PredictionFacts.

Lemma asset_class_sensitivity ac :
  ac = crypto \/ ac = forex -> 0 <= ac_sensitivity ac.
Proof. intros [-> | ->]; simpl; lra. Qed.

(** X11.  The predictions of [predict_crypto_prices] and
    [predict_forex_prices] are made for the first items of the market data,
    one per item and in the same order, each with the symbol and the price
    of its item and the market type of the method, up to the first item on
    which a model raises or whose symbol is held with entry price 0: that
    item and those after it get no prediction, the ones before it keep
    theirs.  Each confidence is between 0 and 1 or is nan, and without the
    models there is no prediction. *)
Theorem predictions_follow_data (fl : Q -> Q)
    (rf_pred gb_pred : nat -> quote -> result Q) (ac : asset_class)
    (pf : dict position) (data : list quote) :
  rounding fl -> ac = crypto \/ ac = forex ->
  let preds := predict_prices fl rf_pred gb_pred ac true pf data in
  let n := List.length preds in
  map (fun f => (fc_symbol f, fc_current_price f)) preds
  = map (fun d => (m_symbol d, m_price d)) (firstn n data)
  /\ (forall i d,
        (i < n)%nat -> nth_error data i = Some d ->
        ~ stops rf_pred gb_pred pf i d)
  /\ (n = List.length data
      \/ exists d, nth_error data n = Some d /\ stops rf_pred gb_pred pf n d)
  /\ Forall (fun f => fc_market_type f = ac_market_type ac
                      /\ unit_confidence (fc_confidence f)) preds
  /\ predict_prices fl rf_pred gb_pred ac false pf data = [].
Proof.
  intros Hfl Hac preds n. subst n preds. unfold predict_prices. simpl.
  destruct (predict_loop_items fl rf_pred gb_pred ac pf data 0 [])
    as (made & -> & Hm & Hend).
  simpl in *.
  destruct (made_from_map fl rf_pred gb_pred ac pf made 0 data Hfl
              (asset_class_sensitivity ac Hac) Hm) as [Hmap Hall].
  split; [exact Hmap|]. split; [|split; [exact Hend|split; [exact Hall|]]].
  - intros i d Hi Hd Hstop.
    destruct (nth_error made i) as [f|] eqn:Ef.
    + destruct (made_from_nth fl rf_pred gb_pred ac pf made 0 data i f Hm Ef)
        as (d' & Hd' & Hone).
      rewrite Hd in Hd'. injection Hd' as <-.
      apply (predict_one_raises fl rf_pred gb_pred ac) in Hstop.
      destruct Hstop as [e He]. simpl in Hone. congruence.
    + apply nth_error_None in Ef. lia.
  - reflexivity.
Qed.

Lemma predictions_follow_data_witness :
  let rf := fun (_ : nat) (_ : quote) => Ok 45000 in
  let gb := fun (i : nat) (_ : quote) =>
              if Nat.eqb i 1 then Raise (ValueError "features")
              else Ok 45000 in
  let data := [{| m_symbol := "BTC"; m_price := 40000 |};
               {| m_symbol := "ETH"; m_price := 3000 |};
               {| m_symbol := "SOL"; m_price := 150 |}] in
  let preds := predict_crypto_prices no_rounding rf gb true [] data in
  map (fun f => (fc_symbol f, fc_current_price f)) preds = [("BTC", 40000)]
  /\ map fc_signal preds = [BUY].
Proof.
  intros rf gb data preds.
  destruct (predictions_follow_data no_rounding rf gb crypto [] data
              rounding_no_rounding (or_introl eq_refl)) as (Hmap & _).
  split; [exact Hmap|reflexivity].
Defined.

(** X12.  A prediction made for a symbol that is held is never a BUY; when
    it is a SELL its confidence is a number, at least the double 0.7 and so
    at least [min_confidence]; and it is a SELL whenever the P&L ratio of
    the lot at the current price, as the floats give it, is at or above
    [take_profit_pct] or at or below minus [stop_loss_pct]. *)
Theorem held_symbol_predictions (fl : Q -> Q)
    (rf_pred gb_pred : nat -> quote -> result Q) (ac : asset_class)
    (models_loaded : bool) (pf : dict position) (data : list quote)
    (f : forecast) (pos : position) :
  rounding fl -> ac = crypto \/ ac = forex ->
  In f (predict_prices fl rf_pred gb_pred ac models_loaded pf data) ->
  dget (fc_symbol f) pf = Some pos ->
  fc_signal f <> BUY
  /\ (fc_signal f = SELL ->
      exists c,
        fc_confidence f = Fin c /\ fl 0.7 <= c /\ fl min_confidence <= c)
  /\ (fl take_profit_pct <= float_pnl fl (fc_current_price f) pos
      \/ float_pnl fl (fc_current_price f) pos <= - fl stop_loss_pct ->
      fc_signal f = SELL).
Proof.
  intros Hfl Hac Hin Hpos. unfold predict_prices in Hin.
  destruct models_loaded; simpl in Hin; [|contradiction].
  destruct (predict_loop_items fl rf_pred gb_pred ac pf data 0 [])
    as (made & E & Hm & _).
  rewrite E in Hin. simpl in Hin.
  apply In_nth_error in Hin. destruct Hin as [j Hj].
  destruct (made_from_nth fl rf_pred gb_pred ac pf made 0 data j f Hm Hj)
    as (d & _ & Hone).
  destruct (predict_one_facts fl rf_pred gb_pred ac pf _ d f Hfl
              (asset_class_sensitivity ac Hac) Hone)
    as (Hsym & _ & Hprice & _ & Hheld).
  rewrite Hsym in Hpos. destruct (Hheld pos Hpos) as (Hnb & Hsell & Hdue).
  rewrite Hprice. split; [exact Hnb|]. split; [|exact Hdue].
  intros Hs. destruct (Hsell Hs) as (c & Hc & H7).
  exists c. split; [exact Hc|]. split; [exact H7|].
  assert (H67 : fl min_confidence <= fl 0.7)
    by (apply Hfl; unfold min_confidence; lra).
  lra.
Qed.

Lemma held_symbol_predictions_witness :
  let rf := fun (_ : nat) (_ : quote) => Ok 1.5 in
  let gb := fun (_ : nat) (_ : quote) => Ok 1.5 in
  let pf := portfolio holding_gbpusd in
  let preds :=
    predict_forex_prices no_rounding rf gb true pf [gbpusd_quote] in
  exists f,
    preds = [f] /\ fc_signal f = SELL /\ fc_confidence f = Fin 0.9.
Proof.
  intros rf gb pf preds. eexists. split; [reflexivity|].
  split; [|reflexivity].
  refine (proj2 (proj2 (held_symbol_predictions no_rounding rf gb forex true
                          pf [gbpusd_quote] _ gbpusd_lot
                          rounding_no_rounding (or_intror eq_refl)
                          (or_introl eq_refl) eq_refl)) _).
  left. vm_compute. discriminate.
Defined.

(** X13.  A data item with price 0 gets a prediction like any other: the
    predicted change is a division by zero of numpy floats, which gives an
    infinity or nan and no exception.  For a symbol that is not held the
    signal is BUY with confidence 1 when the predicted price is above 0,
    SELL with confidence 1 when it is below, and HOLD with confidence nan
    when it is 0. *)
Theorem zero_price_prediction (fl : Q -> Q)
    (rf_pred gb_pred : nat -> quote -> result Q) (ac : asset_class)
    (pf : dict position) (i : nat) (d : quote) (rf gb : Q) :
  m_price d == 0 ->
  rf_pred i d = Ok rf -> gb_pred i d = Ok gb ->
  dget (m_symbol d) pf = None ->
  let predicted := fl (fl (fl (rf + gb) / 2) - m_price d) in
  exists f,
    predict_one fl rf_pred gb_pred ac pf i d = Ok f
    /\ fc_symbol f = m_symbol d /\ fc_current_price f = m_price d
    /\ (0 < predicted ->
        fc_signal f = BUY /\ fc_confidence f = Fin 1
        /\ fc_predicted_change_pct f = PosInf)
    /\ (predicted < 0 ->
        fc_signal f = SELL /\ fc_confidence f = Fin 1
        /\ fc_predicted_change_pct f = NegInf)
    /\ (predicted == 0 ->
        fc_signal f = HOLD /\ fc_confidence f = NaN
        /\ fc_predicted_change_pct f = NaN).
Proof.
  intros Hzero Hrf Hgb Hfree predicted.
  unfold predict_one. rewrite Hrf, Hgb, Hfree. fold predicted.
  assert (Hdiv : np_div fl predicted (m_price d)
                 = if Qlt_bool 0 predicted then PosInf
                   else if Qlt_bool predicted 0 then NegInf else NaN).
  { unfold np_div. apply Qeq_bool_iff in Hzero. now rewrite Hzero. }
  rewrite Hdiv.
  destruct (Qlt_bool 0 predicted) eqn:Epos.
  - apply Qlt_bool_iff in Epos.
    eexists. split; [reflexivity|]. simpl.
    repeat split; trivial; intros; lra.
  - destruct (Qlt_bool predicted 0) eqn:Eneg.
    + apply Qlt_bool_iff in Eneg.
      eexists. split; [reflexivity|]. simpl.
      repeat split; trivial; intros; lra.
    + apply Qlt_bool_false in Epos, Eneg.
      eexists. split; [reflexivity|]. simpl.
      repeat split; trivial; intros; lra.
Qed.

Lemma zero_price_prediction_witness :
  let rf := fun (_ : nat) (_ : quote) => Ok 100 in
  let gb := fun (_ : nat) (_ : quote) => Ok 100 in
  exists f,
    predict_crypto_prices no_rounding rf gb true [] [btc_unpriced] = [f]
    /\ fc_current_price f = 0
    /\ fc_signal f = BUY /\ fc_confidence f = Fin 1
    /\ fc_predicted_change_pct f = PosInf.
Proof.
  intros rf gb.
  destruct (zero_price_prediction no_rounding rf gb crypto [] 0 btc_unpriced
              100 100 (Qeq_refl 0) eq_refl eq_refl eq_refl)
    as (f & Hone & _ & Hprice & Hbuy & _).
  exists f. split.
  - unfold predict_crypto_prices, predict_prices.
    cbn [negb predict_loop]. now rewrite Hone.
  - split; [exact Hprice|]. apply Hbuy. reflexivity.
Defined.

(** ** The market data feed *)

Section FeedFacts.
Context {A : Type}.
Variable query : string -> result (list price_row).
Variable item_of : string -> price_row -> M A.
Variable sym : A -> string.
Hypothesis item_of_pure :
  forall symbol row self, snd (item_of symbol row self) = self.
Hypothesis item_of_symbol :
  forall symbol row self d,
    fst (item_of symbol row self) = Ok d -> sym d = symbol.

Lemma fetch_loop_eq symbols : forall data self,
  fetch_loop query item_of symbols data self
  = if existsb (feed_fails query item_of self) symbols
    then (Raise
            match fst (fetch_loop query item_of symbols data self) with
            | Raise e => e
            | Ok _ => ClientError
            end, self)
    else (Ok (data ++ feed_items query item_of self symbols)%list, self).
Proof.
  induction symbols as [|symbol r IH]; intros data self; simpl.
  - now rewrite app_nil_r.
  - unfold bind, lift, feed_fails at 1, newest.
    destruct (query symbol) as [[|row rows]|e]; simpl.
    + apply IH.
    + pose proof (item_of_pure symbol row self) as Hpure.
      destruct (item_of symbol row self) as [[d|e] self1]; simpl in Hpure |- *;
        subst self1; [|reflexivity].
      rewrite IH. destruct (existsb _ r); [reflexivity|].
      now rewrite <- app_assoc.
    + reflexivity.
Qed.

Lemma get_latest_eq symbols self :
  get_latest query item_of symbols self
  = (Ok (if existsb (feed_fails query item_of self) symbols
         then []
         else feed_items query item_of self symbols), self).
Proof.
  unfold get_latest, try_except. rewrite fetch_loop_eq.
  destruct (existsb _ symbols); reflexivity.
Qed.

Lemma feed_items_symbols self symbols :
  forall d, In d (feed_items query item_of self symbols) ->
  In (sym d) symbols
  /\ exists row,
       newest query (sym d) = Some row
       /\ fst (item_of (sym d) row self) = Ok d.
Proof.
  induction symbols as [|symbol r IH]; simpl; [contradiction|].
  intros d Hin. apply in_app_or in Hin. destruct Hin as [Hin|Hin].
  - destruct (newest query symbol) as [row|] eqn:En; [|contradiction].
    destruct (fst (item_of symbol row self)) as [d'|] eqn:Ei;
      [|contradiction].
    destruct Hin as [<-|[]].
    rewrite (item_of_symbol symbol row self d' Ei).
    split; [now left|]. exists row. auto.
  - destruct (IH d Hin) as [H1 H2]. auto.
Qed.

Lemma feed_items_NoDup self symbols :
  NoDup symbols ->
  NoDup (map sym (feed_items query item_of self symbols)).
Proof.
  induction 1 as [|symbol r Hnotin Hnd IH]; simpl; [constructor|].
  rewrite map_app.
  destruct (newest query symbol) as [row|]; [|exact IH].
  destruct (fst (item_of symbol row self)) as [d|] eqn:Ei; [|exact IH].
  simpl. constructor; [|exact IH].
  rewrite (item_of_symbol symbol row self d Ei).
  intros Hin. apply in_map_iff in Hin. destruct Hin as (d' & Hs & Hd').
  apply feed_items_symbols in Hd'. destruct Hd' as [Hd' _].
  rewrite Hs in Hd'. contradiction.
Qed.

End FeedFacts.

Lemma crypto_item_of_eq symbol row self :
  crypto_item_of symbol row self
  = (match float_or_zero (r_price row), float_or_zero (r_volume row) with
     | Ok price, Ok volume =>
         Ok {| c_symbol := symbol; c_price := price; c_volume := volume;
               c_timestamp := timestamp_or_empty (r_timestamp row);
               c_market_type := "crypto" |}
     | Raise e, _ => Raise e
     | Ok _, Raise e => Raise e
     end, self).
Proof.
  unfold crypto_item_of. run.
  destruct (float_or_zero (r_price row)); [|reflexivity].
  destruct (float_or_zero (r_volume row)); reflexivity.
Qed.

Lemma forex_item_of_eq pair row self :
  forex_item_of pair row self
  = (match float_or_zero (r_bid row), float_or_zero (r_ask row),
           float_or_zero (r_spread row) with
     | Ok bid, Ok ask, Ok spread =>
         Ok {| f_symbol := pair; f_price := (bid + ask) / 2;
               f_bid := bid; f_ask := ask; f_spread := spread;
               f_timestamp := timestamp_or_empty (r_timestamp row);
               f_market_type := "forex" |}
     | Raise e, _, _ => Raise e
     | Ok _, Raise e, _ => Raise e
     | Ok _, Ok _, Raise e => Raise e
     end, self).
Proof.
  unfold forex_item_of. run.
  destruct (float_or_zero (r_bid row)); [|reflexivity].
  destruct (float_or_zero (r_ask row)); [|reflexivity].
  destruct (float_or_zero (r_spread row)); reflexivity.
Qed.

Lemma crypto_item_of_pure symbol row self :
  snd (crypto_item_of symbol row self) = self.
Proof. now rewrite crypto_item_of_eq. Qed.

Lemma forex_item_of_pure pair row self :
  snd (forex_item_of pair row self) = self.
Proof. now rewrite forex_item_of_eq. Qed.

Lemma crypto_item_of_symbol symbol row self d :
  fst (crypto_item_of symbol row self) = Ok d -> c_symbol d = symbol.
Proof.
  rewrite crypto_item_of_eq. simpl.
  destruct (float_or_zero (r_price row)); [|discriminate].
  destruct (float_or_zero (r_volume row)); [|discriminate].
  now intros [= <-].
Qed.

Lemma forex_item_of_symbol pair row self d :
  fst (forex_item_of pair row self) = Ok d -> f_symbol d = pair.
Proof.
  rewrite forex_item_of_eq. simpl.
  destruct (float_or_zero (r_bid row)); [|discriminate].
  destruct (float_or_zero (r_ask row)); [|discriminate].
  destruct (float_or_zero (r_spread row)); [|discriminate].
  now intros [= <-].
Qed.

Lemma crypto_symbols_NoDup : NoDup crypto_symbols.
Proof.
  unfold crypto_symbols. repeat constructor; simpl; intuition discriminate.
Qed.

Lemma forex_pairs_NoDup : NoDup forex_pairs.
Proof.
  unfold forex_pairs. repeat constructor; simpl; intuition discriminate.
Qed.

(** X14.  [get_latest_crypto_data] and [get_latest_forex_data] never raise
    and leave the trader as it is.  They are all or nothing: when the query
    of one symbol raises, or the newest row of one symbol has an attribute
    that is not a number, the result is the empty list, also for the
    symbols that were read before; otherwise the result has one item for
    each symbol that has a row, in the order of the fixed list, so its
    symbols are pairwise distinct. *)
Theorem market_feed_all_or_nothing (query : string -> result (list price_row))
    (self : trader) :
  (get_latest_crypto_data query self
   = (Ok (if existsb (feed_fails query crypto_item_of self) crypto_symbols
          then []
          else feed_items query crypto_item_of self crypto_symbols), self)
   /\ NoDup (map c_symbol
               (feed_items query crypto_item_of self crypto_symbols)))
  /\ (get_latest_forex_data query self
      = (Ok (if existsb (feed_fails query forex_item_of self) forex_pairs
             then []
             else feed_items query forex_item_of self forex_pairs), self)
      /\ NoDup (map f_symbol
                  (feed_items query forex_item_of self forex_pairs))).
Proof.
  split; split.
  - apply get_latest_eq, crypto_item_of_pure.
  - apply feed_items_NoDup;
      [apply crypto_item_of_symbol|apply crypto_symbols_NoDup].
  - apply get_latest_eq, forex_item_of_pure.
  - apply feed_items_NoDup;
      [apply forex_item_of_symbol|apply forex_pairs_NoDup].
Qed.

Lemma market_feed_data_crypto query self data :
  fst (get_latest_crypto_data query self) = Ok data ->
  NoDup (map c_symbol data)
  /\ forall c, In c data ->
       In (c_symbol c) crypto_symbols
       /\ exists row,
            newest query (c_symbol c) = Some row
            /\ fst (crypto_item_of (c_symbol c) row self) = Ok c.
Proof.
  pose proof (get_latest_eq query crypto_item_of crypto_item_of_pure
                crypto_symbols self) as E.
  pose proof (feed_items_NoDup query crypto_item_of c_symbol
                crypto_item_of_symbol self crypto_symbols crypto_symbols_NoDup)
    as Hnd.
  fold (get_latest_crypto_data query) in E.
  set (b := existsb (feed_fails query crypto_item_of self) crypto_symbols)
    in E.
  set (items := feed_items query crypto_item_of self crypto_symbols) in *.
  rewrite E. cbn [fst]. destruct b; intros [= <-].
  - split; [constructor|contradiction].
  - split; [exact Hnd|].
    apply feed_items_symbols, crypto_item_of_symbol.
Qed.

Lemma market_feed_data_forex query self data :
  fst (get_latest_forex_data query self) = Ok data ->
  NoDup (map f_symbol data)
  /\ forall f, In f data ->
       In (f_symbol f) forex_pairs
       /\ exists row,
            newest query (f_symbol f) = Some row
            /\ fst (forex_item_of (f_symbol f) row self) = Ok f.
Proof.
  pose proof (get_latest_eq query forex_item_of forex_item_of_pure
                forex_pairs self) as E.
  pose proof (feed_items_NoDup query forex_item_of f_symbol
                forex_item_of_symbol self forex_pairs forex_pairs_NoDup)
    as Hnd.
  fold (get_latest_forex_data query) in E.
  set (b := existsb (feed_fails query forex_item_of self) forex_pairs) in E.
  set (items := feed_items query forex_item_of self forex_pairs) in *.
  rewrite E. cbn [fst]. destruct b; intros [= <-].
  - split; [constructor|contradiction].
  - split; [exact Hnd|].
    apply feed_items_symbols, forex_item_of_symbol.
Qed.

(** X15.  Each item of the crypto feed carries the price of the newest row
    of its symbol, 0 when the row has no price; each item of the forex feed
    carries the bid and the ask of the newest row of its pair, 0 for one
    that is missing, and as price their mean, which lies between them when
    the bid is not above the ask. *)
Theorem market_feed_prices (query : string -> result (list price_row))
    (self : trader) :
  (forall data c,
     fst (get_latest_crypto_data query self) = Ok data -> In c data ->
     exists row,
       newest query (c_symbol c) = Some row
       /\ float_or_zero (r_price row) = Ok (c_price c)
       /\ (r_price row = Absent -> c_price c = 0))
  /\ (forall data f,
        fst (get_latest_forex_data query self) = Ok data -> In f data ->
        exists row,
          newest query (f_symbol f) = Some row
          /\ float_or_zero (r_bid row) = Ok (f_bid f)
          /\ float_or_zero (r_ask row) = Ok (f_ask f)
          /\ f_price f = (f_bid f + f_ask f) / 2
          /\ (f_bid f <= f_ask f -> f_bid f <= f_price f <= f_ask f)
          /\ (r_bid row = Absent -> r_ask row = Absent -> f_price f == 0)).
Proof.
  split.
  - intros data c Hrun Hin.
    destruct (market_feed_data_crypto query self data Hrun) as [_ Hall].
    destruct (Hall c Hin) as (_ & row & Hrow & Hitem).
    exists row. split; [exact Hrow|].
    rewrite crypto_item_of_eq in Hitem. simpl in Hitem.
    destruct (float_or_zero (r_price row)) as [price|] eqn:Ep;
      [|discriminate].
    destruct (float_or_zero (r_volume row)); [|discriminate].
    injection Hitem as <-. simpl. split; [reflexivity|].
    intros Habs. rewrite Habs in Ep. simpl in Ep. congruence.
  - intros data f Hrun Hin.
    destruct (market_feed_data_forex query self data Hrun) as [_ Hall].
    destruct (Hall f Hin) as (_ & row & Hrow & Hitem).
    exists row. split; [exact Hrow|].
    rewrite forex_item_of_eq in Hitem. simpl in Hitem.
    destruct (float_or_zero (r_bid row)) as [bid|] eqn:Eb; [|discriminate].
    destruct (float_or_zero (r_ask row)) as [ask|] eqn:Ea; [|discriminate].
    destruct (float_or_zero (r_spread row)); [|discriminate].
    injection Hitem as <-. simpl.
    assert (Hmid : (bid + ask) / 2 == (bid + ask) * (1 # 2)) by (field).
    repeat split; trivial.
    + rewrite Hmid. lra.
    + rewrite Hmid. lra.
    + intros Hb Ha. rewrite Hb in Eb. rewrite Ha in Ea. simpl in Eb, Ea.
      injection Eb as <-. injection Ea as <-. reflexivity.
Qed.

Lemma market_feed_prices_witness :
  let query := fun (symbol : string) =>
    if String.eqb symbol "EURUSD"
    then Ok [{| r_price := Absent; r_volume := Absent; r_bid := Num 1.2;
                r_ask := Num 1.22; r_spread := Absent;
                r_timestamp := None |}]
    else Ok [] in
  exists data f,
    fst (get_latest_forex_data query (init 50)) = Ok data
    /\ In f data
    /\ f_price f = (f_bid f + f_ask f) / 2
    /\ f_price f == 1.21.
Proof.
  intros query. eexists. eexists.
  split; [reflexivity|]. split; [left; reflexivity|].
  destruct (proj2 (market_feed_prices query (init 50)) _ _ eq_refl
              (or_introl eq_refl)) as (row & _ & _ & _ & Hmid & _).
  split; [exact Hmid|]. reflexivity.
Defined.

(** ** Quotes by symbol *)

Lemma fold_dset_fresh (data : list quote) : forall d : dict quote,
  NoDup (map fst d ++ map m_symbol data) ->
  fold_left (fun d item => dset (m_symbol item) item d) data d
  = (d ++ map (fun q => (m_symbol q, q)) data)%list.
Proof.
  induction data as [|x r IH]; intros d Hnd; simpl.
  - now rewrite app_nil_r.
  - simpl in Hnd.
    assert (Hfresh : dget (m_symbol x) d = None).
    { apply dget_absent. apply NoDup_remove_2 in Hnd.
      intros Hin. apply Hnd. apply in_or_app. now left. }
    rewrite (dset_absent _ _ _ Hfresh), IH.
    + now rewrite <- app_assoc.
    + rewrite map_app, <- app_assoc. exact Hnd.
Qed.

Lemma by_symbol_distinct (data : list quote) :
  NoDup (map m_symbol data) ->
  forall q, In q data -> dget (m_symbol q) (by_symbol data) = Some q.
Proof.
  intros Hnd q Hin. unfold by_symbol.
  rewrite (fold_dset_fresh data []) by exact Hnd. simpl.
  apply In_dget_Some.
  - unfold well_keyed. rewrite map_map. exact Hnd.
  - apply in_map_iff. exists q. auto.
Qed.

(** X16.  The quotes of one fetch of the two feeds have pairwise distinct
    symbols, so none hides another: the dictionary that
    [check_exit_conditions] builds from them gives, for the symbol of each
    quote, that quote. *)
Theorem fetched_quotes_by_symbol
    (crypto_query forex_query : string -> result (list price_row))
    (self : trader) (crypto_data : list crypto_item)
    (forex_data : list forex_item) :
  fst (get_latest_crypto_data crypto_query self) = Ok crypto_data ->
  fst (get_latest_forex_data forex_query self) = Ok forex_data ->
  let quotes :=
    (map crypto_quote crypto_data ++ map forex_quote forex_data)%list in
  NoDup (map m_symbol quotes)
  /\ forall q, In q quotes -> dget (m_symbol q) (by_symbol quotes) = Some q.
Proof.
  intros Hc Hf quotes.
  destruct (market_feed_data_crypto _ _ _ Hc) as [Hndc Hallc].
  destruct (market_feed_data_forex _ _ _ Hf) as [Hndf Hallf].
  assert (Hnd : NoDup (map m_symbol quotes)).
  { subst quotes. rewrite map_app, !map_map. simpl.
    apply NoDup_app; [exact Hndc|exact Hndf|].
    intros a Ha Hb.
    apply in_map_iff in Ha. destruct Ha as (c & <- & Hin).
    apply in_map_iff in Hb. destruct Hb as (f & Heq & Hin').
    destruct (Hallc c Hin) as [Hsc _]. destruct (Hallf f Hin') as [Hsf _].
    rewrite Heq in Hsf. unfold crypto_symbols in Hsc.
    unfold forex_pairs in Hsf. simpl in Hsc, Hsf.
    repeat (destruct Hsc as [Hsc|Hsc];
            [rewrite <- Hsc in Hsf; intuition discriminate|]).
    contradiction. }
  split; [exact Hnd|]. now apply by_symbol_distinct.
Qed.

Lemma fetched_quotes_by_symbol_witness :
  let crypto_query := fun (symbol : string) =>
    if String.eqb symbol "BTC"
    then Ok [{| r_price := Num 45000; r_volume := Num 12; r_bid := Absent;
                r_ask := Absent; r_spread := Absent;
                r_timestamp := None |}]
    else Ok [] in
  let forex_query := fun (symbol : string) =>
    if String.eqb symbol "EURUSD"
    then Ok [{| r_price := Absent; r_volume := Absent; r_bid := Num 1.2;
                r_ask := Num 1.22; r_spread := Absent;
                r_timestamp := None |}]
    else Ok [] in
  exists crypto_data forex_data,
    fst (get_latest_crypto_data crypto_query (init 50)) = Ok crypto_data
    /\ fst (get_latest_forex_data forex_query (init 50)) = Ok forex_data
    /\ NoDup (map m_symbol
                (map crypto_quote crypto_data ++ map forex_quote forex_data)).
Proof.
  intros crypto_query forex_query. eexists. eexists.
  split; [reflexivity|]. split; [reflexivity|].
  exact (proj1 (fetched_quotes_by_symbol crypto_query forex_query (init 50)
                  _ _ eq_refl eq_refl)).
Defined.

(** ** The answers of the handler *)

Lemma dset_keys {V : Type} (k k' : string) (v : V) (d : dict V) :
  In k' (map fst (dset k v d)) -> k' = k \/ In k' (map fst d).
Proof.
  induction d as [|[k0 v0] r IH]; simpl.
  - intros [H|[]]; auto.
  - destruct (String.eqb k k0) eqn:E; simpl.
    + apply String.eqb_eq in E. subst k0. intuition.
    + intuition.
Qed.

Lemma ddel_keys {V : Type} (k k' : string) (d : dict V) :
  In k' (map fst (ddel k d)) -> In k' (map fst d).
Proof.
  induction d as [|[k0 v0] r IH]; simpl; [trivial|].
  destruct (String.eqb k k0); simpl; intuition.
Qed.

Lemma dset_well_keyed {V : Type} (k : string) (v : V) (d : dict V) :
  well_keyed d -> well_keyed (dset k v d).
Proof.
  unfold well_keyed. induction d as [|[k0 v0] r IH]; simpl; intros Hnd.
  - repeat constructor. intros [].
  - inversion Hnd as [|? ? Hnotin Hr]; subst.
    destruct (String.eqb k k0) eqn:E; simpl.
    + apply String.eqb_eq in E. subst k0. now constructor.
    + constructor; [|now apply IH].
      intros Hin. apply dset_keys in Hin. destruct Hin as [->|Hin].
      * now rewrite String.eqb_refl in E.
      * contradiction.
Qed.

Lemma ddel_well_keyed {V : Type} (k : string) (d : dict V) :
  well_keyed d -> well_keyed (ddel k d).
Proof.
  unfold well_keyed. induction d as [|[k0 v0] r IH]; simpl; intros Hnd.
  - constructor.
  - inversion Hnd as [|? ? Hnotin Hr]; subst.
    destruct (String.eqb k k0); simpl; [now apply IH|].
    constructor; [|now apply IH].
    intros Hin. apply ddel_keys in Hin. contradiction.
Qed.

Lemma replay_trade_well_keyed t self :
  well_keyed (portfolio self) ->
  well_keyed (portfolio (snd (replay_trade t self))).
Proof.
  intros Hk. unfold replay_trade. run.
  destruct (t_symbol t), (t_action t), (t_quantity t), (t_price t); simpl;
    trivial.
  destruct (String.eqb _ "BUY").
  - destruct (t_tradeId t); simpl; trivial. now apply dset_well_keyed.
  - destruct (String.eqb _ "SELL" && _); simpl; trivial.
    now apply ddel_well_keyed.
Qed.

Lemma replay_trade_priced t self :
  (is_buy t = true -> forall q, t_price t = Num q -> ~ q == 0) ->
  priced self -> priced (snd (replay_trade t self)).
Proof.
  intros Ht Hp. unfold replay_trade. run.
  unfold is_buy, has_action in Ht.
  destruct (t_symbol t), (t_action t) as [a|], (t_quantity t),
    (t_price t) as [|price|]; simpl; trivial.
  destruct (String.eqb a "BUY") eqn:Ea.
  - destruct (t_tradeId t); simpl; trivial.
    intros k pos Hin. simpl in Hin. apply In_dset in Hin.
    destruct Hin as [[= _ ->]|Hin]; [|eauto].
    simpl. now apply Ht.
  - destruct (String.eqb a "SELL" && _); simpl; trivial.
    intros k pos Hin. simpl in Hin. apply In_ddel in Hin. eauto.
Qed.

Lemma replay_well_keyed l : forall self,
  well_keyed (portfolio self) ->
  well_keyed (portfolio (snd (for_each l replay_trade self))).
Proof.
  induction l as [|t l IH]; intros self Hk; simpl; [exact Hk|].
  unfold bind. pose proof (replay_trade_well_keyed t self Hk) as Hk1.
  destruct (replay_trade t self) as [[[]|e] self1]; simpl in Hk1 |- *;
    [now apply IH|exact Hk1].
Qed.

Lemma replay_priced l : forall self,
  buys_priced l -> priced self ->
  priced (snd (for_each l replay_trade self)).
Proof.
  induction l as [|t l IH]; intros self Hl Hp; simpl; [exact Hp|].
  inversion Hl as [|? ? Ht Hr]; subst.
  unfold bind. pose proof (replay_trade_priced t self Ht Hp) as Hp1.
  destruct (replay_trade t self) as [[[]|e] self1]; simpl in Hp1 |- *;
    [now apply IH|exact Hp1].
Qed.

Lemma load_well_keyed INITIAL_BALANCE scan self :
  well_keyed (portfolio (snd (load_portfolio_state INITIAL_BALANCE scan self))).
Proof.
  destruct scan as [trades|e]; [|constructor].
  rewrite load_unfold.
  pose proof (replay_well_keyed (sorted trades)
                (update self [] INITIAL_BALANCE)) as Hk.
  destruct (for_each _ _ _) as [[a|e] self1]; simpl in Hk |- *.
  - apply Hk. constructor.
  - constructor.
Qed.

Lemma load_priced INITIAL_BALANCE scan self :
  (forall trades, scan = Ok trades -> buys_priced trades) ->
  priced (snd (load_portfolio_state INITIAL_BALANCE scan self)).
Proof.
  intros Hscan. destruct scan as [trades|e]; [|intros k pos []].
  rewrite load_unfold.
  assert (Hs : buys_priced (sorted trades)).
  { unfold buys_priced. rewrite Forall_forall. intros t Hin.
    specialize (Hscan trades eq_refl). unfold buys_priced in Hscan.
    rewrite Forall_forall in Hscan. apply Hscan.
    eapply Permutation_in; [|exact Hin]. apply sorted_perm. }
  pose proof (replay_priced (sorted trades) (update self [] INITIAL_BALANCE)
                Hs) as Hp.
  destruct (for_each _ _ _) as [[a|e] self1]; simpl in Hp |- *.
  - apply Hp. intros k pos [].
  - intros k pos [].
Qed.

Section HandlerFacts.
Variable INITIAL_BALANCE : Q.
Variable uuid_of : nat -> string.
Variable now_of : nat -> string.
Variable put_item_ok : item -> bool.
Variable fl : Q -> Q.

Local Abbreviation execute := (execute_trade uuid_of now_of put_item_ok).
Local Abbreviation check := (check_exit_conditions uuid_of now_of put_item_ok fl).
Local Abbreviation exits := (exit_phase uuid_of now_of put_item_ok).
Local Abbreviation entries := (entry_phase uuid_of now_of put_item_ok).
Local Abbreviation load := (load_portfolio_state INITIAL_BALANCE).
Local Abbreviation session :=
  (execute_trading_session INITIAL_BALANCE uuid_of now_of put_item_ok fl).
Local Abbreviation handler :=
  (lambda_handler INITIAL_BALANCE uuid_of now_of put_item_ok fl).

Lemma zero_entry_quoted_ddel all_data k pos (pf : dict position) :
  well_keyed pf -> dget k pf = Some pos ->
  Qeq_bool (pos_entry_price pos) 0 = false ->
  zero_entry_quoted all_data (ddel k pf) = zero_entry_quoted all_data pf.
Proof.
  unfold well_keyed, zero_entry_quoted.
  induction pf as [|[k0 v0] r IH]; simpl; [discriminate|].
  intros Hnd Hget Hz. inversion Hnd as [|? ? Hnotin Hr]; subst.
  destruct (String.eqb k k0) eqn:E.
  - apply String.eqb_eq in E. subst k0. injection Hget as ->.
    rewrite Hz, (ddel_absent k r) by (now apply dget_absent).
    destruct (dget k all_data); reflexivity.
  - simpl. f_equal. now apply IH.
Qed.

(** Phase 1 closes no lot that has entry price 0. *)
Lemma exit_phase_zero_entry all_data predictions : forall n self,
  well_keyed (portfolio self) ->
  well_keyed (portfolio (snd (exits predictions n self)))
  /\ zero_entry_quoted all_data (portfolio (snd (exits predictions n self)))
     = zero_entry_quoted all_data (portfolio self).
Proof.
  induction predictions as [|p r IH]; intros n self Hk; simpl; [auto|].
  unfold bind, gets.
  destruct (p_signal p) eqn:Es; try (now apply IH).
  destruct (dmem _ _ && _); [|now apply IH].
  rewrite execute_trade_eq, Es.
  destruct (dget (p_symbol p) (portfolio self)) as [position|] eqn:Eg;
    [|now apply IH].
  destruct (Qeq_bool (pos_entry_price position) 0) eqn:Ez; [now apply IH|].
  cbv beta iota zeta.
  match goal with
  | |- context [exits r ?m ?s] =>
      destruct (IH m s) as [H1 H2];
        [simpl; now apply ddel_well_keyed|]
  end.
  split; [exact H1|]. rewrite H2. simpl.
  now apply zero_entry_quoted_ddel with (pos := position).
Qed.

Lemma entry_phase_ok predictions : forall n self,
  exists n', fst (entries predictions n self) = Ok n'.
Proof.
  induction predictions as [|p r IH]; intros n self; simpl; eauto.
  unfold bind, gets.
  destruct (should_trade self p); auto.
  destruct (execute_trade_ok uuid_of now_of put_item_ok p self) as [b Hb].
  destruct (execute p self) as [res self1]. simpl in Hb. subst res. auto.
Qed.

(** The trades of a session raise exactly when a lot with entry price 0 is
    quoted when they begin. *)
Lemma trade_on_predictions_outcome predictions crypto_data forex_data self :
  well_keyed (portfolio self) ->
  let r := trade_on_predictions uuid_of now_of put_item_ok fl predictions
             crypto_data forex_data self in
  if zero_entry_quoted (by_symbol (crypto_data ++ forex_data))
       (portfolio self)
  then fst r = Raise ZeroDivisionError
  else exists n, fst r = Ok n.
Proof.
  intros Hk r. subst r. unfold trade_on_predictions, bind.
  destruct (exit_phase_zero_entry (by_symbol (crypto_data ++ forex_data))
              predictions 0%nat self Hk) as [_ Hz].
  destruct (exit_phase_ok uuid_of now_of put_item_ok predictions 0%nat self)
    as [n1 Hn1].
  destruct (exits predictions 0%nat self) as [res self1].
  cbn [fst snd] in Hz, Hn1. subst res. rewrite <- Hz.
  destruct (zero_entry_quoted _ (portfolio self1)) eqn:E.
  - now rewrite (check_exit_conditions_raises uuid_of now_of put_item_ok fl
                   _ _ _ E).
  - pose proof (check_exit_conditions_returns uuid_of now_of put_item_ok fl
                  _ _ _ E) as Hck.
    destruct (check crypto_data forex_data self1) as [res self2].
    cbn [fst] in Hck. subst res. apply entry_phase_ok.
Qed.

Lemma session_outcome scan model_loaded crypto_data forex_data
    (predict_crypto predict_forex :
       dict position -> list quote -> list prediction) self :
  let out := session scan model_loaded crypto_data forex_data predict_crypto
               predict_forex self in
  if model_loaded
     && zero_entry_quoted (by_symbol (crypto_data ++ forex_data))
          (portfolio (snd (load scan self)))
  then fst out = Raise ZeroDivisionError
  else exists n,
         fst out
         = Ok {| trades_executed := n;
                 portfolio_value := calculate_portfolio_value (snd out);
                 result_wallet_balance := wallet_balance (snd out);
                 total_pnl :=
                   calculate_portfolio_value (snd out) - INITIAL_BALANCE |}.
Proof.
  intros out. subst out. unfold execute_trading_session, bind.
  pose proof (load_never_raises INITIAL_BALANCE scan self) as Hload.
  pose proof (load_well_keyed INITIAL_BALANCE scan self) as Hk.
  destruct (load scan self) as [res loaded]. cbn [fst snd] in *. subst res.
  destruct model_loaded; cbn [negb andb].
  - unfold set_current_market_prices, gets. cbv beta iota.
    match goal with
    | |- context [trade_on_predictions _ _ _ _ ?ps _ _ ?s] =>
        pose proof (trade_on_predictions_outcome ps crypto_data forex_data s
                      Hk) as Hrun;
        destruct (trade_on_predictions uuid_of now_of put_item_ok fl ps
                    crypto_data forex_data s) as [res self1]
    end.
    cbv zeta in Hrun. cbn [fst portfolio] in Hrun.
    destruct (zero_entry_quoted _ (portfolio loaded)).
    + now rewrite Hrun.
    + destruct Hrun as [n ->]. exists n. reflexivity.
  - exists 0%nat. reflexivity.
Qed.

(** X17.  [lambda_handler] always returns an answer.  The status code is
    400 exactly when the request type is neither ['trade_execution'] (the
    default) nor ['portfolio_status'].  It is 500 exactly when a trading
    session is asked for, a model is loaded, and the replayed portfolio
    holds a lot with entry price 0 on a quoted symbol, whatever the
    predictions and the outcome of the writes; the exception reported is
    then [ZeroDivisionError].  A request other than a trading session leaves
    the trader as it is. *)
Theorem handler_status_code (event : dict string) (scan : result (list item))
    (model_loaded : bool) (crypto_data forex_data : list quote)
    (predict_crypto predict_forex :
       dict position -> list quote -> list prediction) (self : trader) :
  let out := handler event scan model_loaded crypto_data forex_data
               predict_crypto predict_forex self in
  let failing :=
    model_loaded
    && zero_entry_quoted (by_symbol (crypto_data ++ forex_data))
         (portfolio (snd (load scan self))) in
  exists r,
    fst out = Ok r
    /\ (statusCode r = 400%nat <->
        request_type_of event <> "trade_execution"
        /\ request_type_of event <> "portfolio_status")
    /\ (statusCode r = 500%nat <->
        request_type_of event = "trade_execution" /\ failing = true)
    /\ (statusCode r = 500%nat -> r = trading_failed ZeroDivisionError)
    /\ (request_type_of event <> "trade_execution" -> snd out = self).
Proof.
  intros out failing. subst out.
  unfold lambda_handler, try_except. fold (request_type_of event).
  destruct (String.eqb (request_type_of event) "trade_execution") eqn:E1.
  - apply String.eqb_eq in E1. unfold bind.
    pose proof (session_outcome scan model_loaded crypto_data forex_data
                  predict_crypto predict_forex self) as Hs.
    cbv zeta in Hs. fold failing in Hs.
    destruct (session scan model_loaded crypto_data forex_data predict_crypto
                predict_forex self) as [res self1].
    cbn [fst snd] in Hs. destruct failing.
    + subst res. eexists. split; [reflexivity|]. simpl.
      intuition (try discriminate; try congruence).
    + destruct Hs as [n ->]. eexists. split; [reflexivity|]. simpl.
      intuition (try discriminate; try congruence).
  - assert (N1 : request_type_of event <> "trade_execution")
      by (now apply String.eqb_neq).
    destruct (String.eqb (request_type_of event) "portfolio_status") eqn:E2.
    + apply String.eqb_eq in E2. eexists. split; [reflexivity|]. simpl.
      intuition (try discriminate; try congruence).
    + apply String.eqb_neq in E2. eexists. split; [reflexivity|]. simpl.
      intuition (try discriminate; try congruence).
Qed.

(** X18.  When no BUY record of the scanned window has price 0 (and so also
    when the scan fails or finds nothing), a request for a trading session
    is answered with status 200, and the figures of the answer are those of
    the trader as the session leaves it: its wallet balance, its portfolio
    value, and that value minus [INITIAL_BALANCE]. *)
Theorem handler_completes_on_priced_ledger (event : dict string)
    (scan : result (list item)) (model_loaded : bool)
    (crypto_data forex_data : list quote)
    (predict_crypto predict_forex :
       dict position -> list quote -> list prediction) (self : trader) :
  request_type_of event = "trade_execution" ->
  (forall trades, scan = Ok trades -> buys_priced trades) ->
  let out := handler event scan model_loaded crypto_data forex_data
               predict_crypto predict_forex self in
  exists r n,
    fst out = Ok r /\ statusCode r = 200%nat
    /\ r = session_completed n
             (calculate_portfolio_value (snd out)) (wallet_balance (snd out))
             (calculate_portfolio_value (snd out) - INITIAL_BALANCE).
Proof.
  intros Hreq Hscan out. subst out.
  unfold lambda_handler, try_except. fold (request_type_of event).
  rewrite Hreq, String.eqb_refl. unfold bind.
  pose proof (session_outcome scan model_loaded crypto_data forex_data
                predict_crypto predict_forex self) as Hs.
  cbv zeta in Hs.
  rewrite (priced_not_zero_entry _ _ (load_priced INITIAL_BALANCE scan self
                                        Hscan)) in Hs.
  rewrite andb_false_r in Hs.
  destruct (session scan model_loaded crypto_data forex_data predict_crypto
              predict_forex self) as [res self1].
  cbn [fst snd] in Hs. destruct Hs as [n ->].
  eexists. exists n. split; [reflexivity|]. split; reflexivity.
Qed.

(** X19.  A ['portfolio_status'] request reads the trader in memory and
    leaves it unchanged: sent after a trading session that was answered
    with figures, it reports the wallet balance, portfolio value and total
    P&L of that answer, whatever the trading table holds by then; its
    ['positions'] is the number of its ['openPositions'], which list the
    held symbols in the order of the portfolio. *)
Theorem status_follows_session (event event' : dict string)
    (scan scan' : result (list item)) (model_loaded model_loaded' : bool)
    (crypto_data forex_data crypto_data' forex_data' : list quote)
    (predict_crypto predict_forex predict_crypto' predict_forex' :
       dict position -> list quote -> list prediction) (self : trader)
    (n : nat) (pv wb pnl : Q) :
  let out := handler event scan model_loaded crypto_data forex_data
               predict_crypto predict_forex self in
  fst out = Ok (session_completed n pv wb pnl) ->
  request_type_of event' = "portfolio_status" ->
  exists st,
    handler event' scan' model_loaded' crypto_data' forex_data'
      predict_crypto' predict_forex' (snd out)
    = (Ok (status_report st), snd out)
    /\ s_walletBalance st = wb /\ s_portfolioValue st = pv
    /\ s_totalPnL st = pnl
    /\ s_positions st = List.length (s_openPositions st)
    /\ map o_symbol (s_openPositions st) = map fst (portfolio (snd out)).
Proof.
  intros out Hout Hreq.
  assert (Hfig : pv = calculate_portfolio_value (snd out)
                 /\ wb = wallet_balance (snd out)
                 /\ pnl = calculate_total_pnl INITIAL_BALANCE (snd out)).
  { subst out. revert Hout.
    unfold lambda_handler, try_except. fold (request_type_of event).
    destruct (String.eqb (request_type_of event) "trade_execution").
    - unfold bind.
      pose proof (session_outcome scan model_loaded crypto_data forex_data
                    predict_crypto predict_forex self) as Hs.
      cbv zeta in Hs.
      destruct (session scan model_loaded crypto_data forex_data
                  predict_crypto predict_forex self) as [res self1].
      cbn [fst snd] in Hs. destruct (_ && _).
      + subst res. discriminate.
      + destruct Hs as [m ->]. simpl. intros [= _ <- <- <-]. auto.
    - destruct (String.eqb (request_type_of event) "portfolio_status");
        discriminate. }
  destruct Hfig as (-> & -> & ->).
  unfold lambda_handler at 1, try_except. fold (request_type_of event').
  rewrite Hreq. simpl. eexists. split; [reflexivity|]. simpl.
  repeat split.
  - now rewrite length_map.
  - rewrite map_map. apply map_ext. now intros [k pos].
Qed.

End HandlerFacts.

Lemma handler_completes_on_priced_ledger_witness :
  let out := lambda_handler 50 sample_uuid sample_now store_accepts no_rounding
               trade_event (Ok [buy_btc_1]) true [] [] (fun _ _ => [])
               (fun _ _ => []) (init 50) in
  exists r n,
    fst out = Ok r /\ statusCode r = 200%nat
    /\ r = session_completed n
             (calculate_portfolio_value (snd out)) (wallet_balance (snd out))
             (calculate_portfolio_value (snd out) - 50).
Proof.
  apply (handler_completes_on_priced_ledger 50 sample_uuid sample_now
           store_accepts no_rounding trade_event (Ok [buy_btc_1]) true [] []
           (fun _ _ => []) (fun _ _ => []) (init 50) eq_refl).
  intros trades [= <-]. repeat constructor.
  intros _ q [= <-] H. vm_compute in H. discriminate H.
Defined.

Lemma status_follows_session_witness :
  let out := lambda_handler 50 sample_uuid sample_now store_accepts no_rounding
               trade_event (Ok [buy_btc_1]) false [] [] (fun _ _ => [])
               (fun _ _ => []) (init 50) in
  exists st,
    lambda_handler 50 sample_uuid sample_now store_accepts
      no_rounding status_event
      (Ok []) true [] [] (fun _ _ => []) (fun _ _ => []) (snd out)
    = (Ok (status_report st), snd out)
    /\ s_walletBalance st == 40 /\ s_positions st = 1%nat.
Proof.
  intros out.
  destruct (status_follows_session 50 sample_uuid sample_now store_accepts
              no_rounding
              trade_event status_event (Ok [buy_btc_1]) (Ok []) false true
              [] [] [] [] (fun _ _ => []) (fun _ _ => []) (fun _ _ => [])
              (fun _ _ => []) (init 50) _ _ _ _ eq_refl eq_refl)
    as (st & Hrun & Hwb & _ & _ & Hn & Hsym).
  exists st. split; [exact Hrun|]. split.
  - rewrite Hwb. reflexivity.
  - rewrite Hn. rewrite <- (length_map o_symbol), Hsym. reflexivity.
Defined.
